(** * Region-template extraction engine (main.py): a shallow embedding

    The Python script is embedded function by function.  Python values are
    modelled as the script uses them:

    - [str] is a sequence of Unicode code points ([pystr]);
    - [int] is [Z], [float] is IEEE-754 binary64 ([spec_float] with
      [prec = 53], [emax = 1024]), and the two are joined in [pynum];
    - an exception is named by its class ([exn]); a computation that may
      raise returns a [result];
    - a dict whose key order is observable (a table row) is an
      insertion-ordered association list ([odict]); the [field_names]
      mapping, whose order is never observed, is a [gmap];
    - the external collaborators (PIL, pytesseract, the Streamlit widgets,
      the json module) are the methods of the classes [Collaborators] and
      [JsonCodec]. *)

From Stdlib Require Import ZArith NArith List String Ascii Lia.
From Stdlib Require Import Floats.SpecFloat.
From stdpp Require Import base option list gmap strings pretty.

Open Scope Z_scope.

(** ** Strings *)

Definition pystr : Type := list N.

(** A string literal of the script, as code points. *)
Definition lit (s : string) : pystr :=
  (fun a => N_of_ascii a) <$> list_ascii_of_string s.

(** [str(z)] for an [int]. *)
Definition str_of_int (z : Z) : pystr := lit (pretty z).

Definition NEWLINE : N := 10%N.
Definition SPACE : N := 32%N.
Definition UNDERSCORE : N := 95%N.

(** [str.isspace] on one code point: the code points CPython's
    [_PyUnicode_IsWhitespace] accepts. *)
Definition isspace (c : N) : bool :=
  ((9 <=? c) && (c <=? 13) || (28 <=? c) && (c <=? 32)
   || (c =? 133) || (c =? 160) || (c =? 5760)
   || (8192 <=? c) && (c <=? 8202)
   || (c =? 8232) || (c =? 8233) || (c =? 8239) || (c =? 8287)
   || (c =? 12288))%N.

Fixpoint lstrip (s : pystr) : pystr :=
  match s with
  | [] => []
  | c :: s' => if isspace c then lstrip s' else s
  end.

Definition rstrip (s : pystr) : pystr := reverse (lstrip (reverse s)).

(** [s.strip()] *)
Definition strip (s : pystr) : pystr := rstrip (lstrip s).

(** [s.replace(old, new)] for one-character [old] and [new]. *)
Definition replace_char (old new : N) (s : pystr) : pystr :=
  (fun c => if (c =? old)%N then new else c) <$> s.

(** ** Exceptions and results *)

Definition exn : Type := string.

Definition ZeroDivisionError : exn := "ZeroDivisionError"%string.
Definition OverflowError : exn := "OverflowError"%string.
Definition ValueError : exn := "ValueError"%string.
Definition IndexError : exn := "IndexError"%string.
Definition AttributeError : exn := "AttributeError"%string.
Definition TypeError : exn := "TypeError"%string.
(** The error the specification names for a zero-width page. *)
Definition DegenerateGeometry : exn := "DegenerateGeometry"%string.

Inductive result (A : Type) : Type :=
| Ok (a : A)
| Raise (e : exn).
Arguments Ok {A} a.
Arguments Raise {A} e.

#[global] Instance result_ret : MRet result := fun A a => Ok a.
#[global] Instance result_bind : MBind result := fun A B f m =>
  match m with
  | Ok a => f a
  | Raise e => Raise e
  end.

(** ** Numbers *)

Definition float : Type := spec_float.

Definition fmul : float -> float -> float := SFmul 53 1024.
Definition fdiv : float -> float -> float := SFdiv 53 1024.

Inductive pynum : Type :=
| PInt (z : Z)
| PFloat (f : float).

Definition is_zero (f : float) : bool :=
  match f with
  | S754_zero _ => true
  | _ => false
  end.

Definition is_finite (f : float) : bool :=
  match f with
  | S754_zero _ | S754_finite _ _ _ => true
  | _ => false
  end.

(** [float(z)]: the nearest binary64, [OverflowError] beyond its range. *)
Definition float_of_int (z : Z) : result float :=
  match binary_normalize 53 1024 z 0 false with
  | S754_infinity _ => Raise OverflowError
  | f => Ok f
  end.

Definition to_float (x : pynum) : result float :=
  match x with
  | PInt z => float_of_int z
  | PFloat f => Ok f
  end.

(** An [int] as an exact, unrounded binary number. *)
Definition exact_int (z : Z) : float :=
  match z with
  | Z0 => S754_zero false
  | Zpos p => S754_finite false p 0
  | Zneg p => S754_finite true p 0
  end.

(** [x / y].  [int / int] is the correctly rounded exact quotient;
    a zero divisor raises; a [float] quotient never raises. *)
Definition py_truediv (x y : pynum) : result float :=
  match x, y with
  | PInt a, PInt b =>
      if bool_decide (b = 0) then Raise ZeroDivisionError
      else match fdiv (exact_int a) (exact_int b) with
           | S754_infinity _ => Raise OverflowError
           | q => Ok q
           end
  | _, _ =>
      a ← to_float x;
      b ← to_float y;
      if is_zero b then Raise ZeroDivisionError else Ok (fdiv a b)
  end.

(** [x * y]. *)
Definition py_mul (x y : pynum) : result pynum :=
  match x, y with
  | PInt a, PInt b => Ok (PInt (a * b))
  | _, _ =>
      a ← to_float x;
      b ← to_float y;
      Ok (PFloat (fmul a b))
  end.

(** [int(x)]: truncation toward zero; [ValueError] on NaN,
    [OverflowError] on an infinity. *)
Definition py_int (x : pynum) : result Z :=
  match x with
  | PInt z => Ok z
  | PFloat (S754_zero _) => Ok 0
  | PFloat (S754_finite s m e) =>
      let a := if bool_decide (0 <= e) then Z.pos m * 2 ^ e
               else Z.pos m `div` 2 ^ (- e) in
      Ok (if s then - a else a)
  | PFloat S754_nan => Raise ValueError
  | PFloat (S754_infinity _) => Raise OverflowError
  end.

(** ** Insertion-ordered dicts *)

Definition odict (V : Type) : Type := list (pystr * V).

Fixpoint odict_get {V} (d : odict V) (k : pystr) : option V :=
  match d with
  | [] => None
  | (k', v) :: d' => if bool_decide (k' = k) then Some v else odict_get d' k
  end.

(** [d[k] = v]: an existing key keeps its position. *)
Fixpoint odict_set {V} (d : odict V) (k : pystr) (v : V) : odict V :=
  match d with
  | [] => [(k, v)]
  | (k', v') :: d' =>
      if bool_decide (k' = k) then (k', v) :: d'
      else (k', v') :: odict_set d' k v
  end.

Definition odict_keys {V} (d : odict V) : list pystr := fst <$> d.

(** ** Rectangles

    A region as the drawing surface reports it, and a bounding box as
    [perform_ocr] receives it: a dict with the four keys below, each a
    JSON number ([int] or [float]) or a product of one with a scale. *)

Record Rect : Type := mkRect {
  rect_left : pynum;
  rect_top : pynum;
  rect_width : pynum;
  rect_height : pynum
}.

(** ** External collaborators *)

Class Collaborators : Type := {
  image : Type;
  (** [image.size], as [(width, height)] *)
  size : image -> Z * Z;
  (** [image.mode] *)
  mode : image -> pystr;
  (** [image.crop((left, upper, right, lower))] *)
  crop : image -> Z * Z * Z * Z -> result image;
  (** [ImageOps.grayscale], [ImageOps.invert] *)
  grayscale : image -> result image;
  invert : image -> result image;
  (** [pytesseract.image_to_string(image, lang=...)] *)
  image_to_string : image -> pystr -> result pystr;
  (** [st.text_input(label, value=..., key=...)]: the text currently in
      the widget *)
  text_input : pystr -> pystr -> pystr -> pystr;
}.

(** ** Effects of the extraction: collaborator calls and warnings *)

Inductive event : Type :=
| EvCrop (box : Z * Z * Z * Z)
| EvRecognize (lang : pystr)
| EvWarning (e : exn).

Definition Eff (A : Type) : Type := list event * result A.

#[global] Instance Eff_ret : MRet Eff := fun A a => ([], Ok a).
#[global] Instance Eff_bind : MBind Eff := fun A B f m =>
  match m with
  | (log, Ok a) => let '(log', r) := f a in (log ++ log', r)
  | (log, Raise e) => (log, Raise e)
  end.

(** A pure, possibly raising step inside an effectful block. *)
Definition lift {A} (r : result A) : Eff A := ([], r).

(** A collaborator call, recorded before its outcome. *)
Definition call {A} (ev : event) (r : result A) : Eff A := ([ev], r).

Section Engine.
Context `{Collaborators}.

(** [preprocess_image(image, options)] *)
Definition preprocess_image (img : image) (options : list pystr)
    : result image :=
  processed_image ←
    (if bool_decide (lit "grayscale" ∈ options)
     then grayscale img else Ok img);
  if bool_decide (lit "invert" ∈ options) then
    processed_image ←
      (if bool_decide (mode processed_image ≠ lit "L")
       then grayscale processed_image else Ok processed_image);
    invert processed_image
  else Ok processed_image.

(** The language code handed to the recognizer. *)
Definition lang_code (language : pystr) : pystr :=
  if bool_decide (language = lit "Hindi") then lit "hin"
  else if bool_decide (language = lit "English + Hindi") then lit "eng+hin"
  else lit "eng".

(** [text.strip().replace('\n', ' ')] *)
Definition clean_text (text : pystr) : pystr :=
  replace_char NEWLINE SPACE (strip text).

(** The [try] block of [perform_ocr]; [None] when the block is left
    without reaching its [return]. *)
Definition perform_ocr_try (img : image) (bounding_box : Rect)
    (language : pystr) (preprocessing_options : list pystr)
    : Eff (option pystr) :=
  left ← lift (py_int (rect_left bounding_box));
  top ← lift (py_int (rect_top bounding_box));
  width ← lift (py_int (rect_width bounding_box));
  height ← lift (py_int (rect_height bounding_box));
  if bool_decide (0 < width) && bool_decide (0 < height) then
    let box := (left, top, left + width, top + height) in
    cropped_image ← call (EvCrop box) (crop img box);
    processed_crop ←
      lift (preprocess_image cropped_image preprocessing_options);
    text ← call (EvRecognize (lang_code language))
                (image_to_string processed_crop (lang_code language));
    mret (Some (clean_text text))
  else mret None.

(** [perform_ocr(image, bounding_box, language, preprocessing_options)]:
    the log of the call and the returned text. *)
Definition perform_ocr (img : image) (bounding_box : Rect)
    (language : pystr) (preprocessing_options : list pystr)
    : list event * pystr :=
  match perform_ocr_try img bounding_box language preprocessing_options with
  | (log, Ok (Some text)) => (log, text)
  | (log, Ok None) => (log, [])
  | (log, Raise e) => (log ++ [EvWarning e], [])
  end.

End Engine.

(** ** The result table *)

Inductive cell : Type :=
| CInt (z : Z)
| CStr (s : pystr)
| CNaN.

Record DataFrame : Type := mkDataFrame {
  df_columns : list pystr;
  df_rows : list (list cell)
}.

(** The keys of one record that are not yet columns, in key order. *)
Definition add_columns (cols : list pystr) (rec : odict cell) : list pystr :=
  fold_left (fun acc k => if bool_decide (k ∈ acc) then acc else acc ++ [k])
            (odict_keys rec) cols.

(** [pd.DataFrame(records)] for a list of dicts: the columns are the keys
    in order of first appearance, a key a record lacks gives NaN. *)
Definition pd_DataFrame (records : list (odict cell)) : DataFrame :=
  let cols := fold_left add_columns records [] in
  mkDataFrame cols
    ((fun rec => (fun c => default CNaN (odict_get rec c)) <$> cols)
     <$> records).

Fixpoint index_of (c : pystr) (cols : list pystr) : option nat :=
  match cols with
  | [] => None
  | c' :: cols' => if bool_decide (c' = c) then Some 0%nat
                   else S <$> index_of c cols'
  end.

(** The value in row [i] (0-based) of column [c]. *)
Definition df_cell (df : DataFrame) (i : nat) (c : pystr) : option cell :=
  row ← df_rows df !! i;
  j ← index_of c (df_columns df);
  row !! j.

(** ** Region naming and the extraction pass *)

Section Extraction.
Context `{Collaborators}.

Definition canvas_width : Z := 800.

(** [canvas_width * (bg_image.height / bg_image.width)], and its use as
    [height=int(canvas_height)] of the drawing surface. *)
Definition canvas_height (bg_image : image) : result pynum :=
  let '(bg_width, bg_height) := size bg_image in
  ratio ← py_truediv (PInt bg_height) (PInt bg_width);
  canvas_height ← py_mul (PInt canvas_width) (PFloat ratio);
  _ ← py_int canvas_height;
  Ok canvas_height.

(** [f"region_{i}_{int(region['left'])}_{int(region['top'])}"] *)
Definition region_key (i : nat) (region : Rect) : result pystr :=
  l ← py_int (rect_left region);
  t ← py_int (rect_top region);
  Ok (lit "region_" ++ str_of_int (Z.of_nat i) ++ lit "_" ++ str_of_int l
        ++ lit "_" ++ str_of_int t).

(** [f"Field_{i+1}"] *)
Definition default_field_name (i : nat) : pystr :=
  lit "Field_" ++ str_of_int (Z.of_nat i + 1).

(** The loop of [field_names_form], from region [i] on: the mapping after
    the loop and the default names put into the text inputs. *)
Fixpoint field_names_form (i : nat) (regions : list Rect)
    (field_names : gmap pystr pystr) : result (gmap pystr pystr * list pystr) :=
  match regions with
  | [] => Ok (field_names, [])
  | region :: rest =>
      region_key ← region_key i region;
      let default_name :=
        default (default_field_name i) (field_names !! region_key) in
      let entered :=
        text_input (lit "Name for Region " ++ str_of_int (Z.of_nat i + 1))
                   default_name
                   (lit "field_name_" ++ str_of_int (Z.of_nat i)) in
      '(field_names', shown) ←
        field_names_form (S i) rest (<[region_key := entered]> field_names);
      Ok (field_names', default_name :: shown)
  end.

(** The dict literal appended to [scaled_boxes]. *)
Definition scaled_box (scale_w scale_h : float) (region : Rect) : result Rect :=
  l ← py_mul (rect_left region) (PFloat scale_w);
  t ← py_mul (rect_top region) (PFloat scale_h);
  w ← py_mul (rect_width region) (PFloat scale_w);
  h ← py_mul (rect_height region) (PFloat scale_h);
  Ok (mkRect l t w h).

(** [scale_w] and [scale_h] for given canvas and source dimensions. *)
Definition scale_factors
    (canvas_width canvas_height original_w original_h : pynum)
    : result (float * float) :=
  scale_w ← py_truediv original_w canvas_width;
  scale_h ← py_truediv original_h canvas_height;
  Ok (scale_w, scale_h).

(** The loop over [enumerate(regions)] of the extract block, from region
    [i] on, appending to [scaled_boxes] and [field_names_list]. *)
Fixpoint regions_loop (field_names : gmap pystr pystr) (scale_w scale_h : float)
    (i : nat) (regions : list Rect)
    (scaled_boxes : list Rect) (field_names_list : list pystr)
    : result (list Rect * list pystr) :=
  match regions with
  | [] => Ok (scaled_boxes, field_names_list)
  | region :: rest =>
      region_key ← region_key i region;
      let field_name :=
        default (default_field_name i) (field_names !! region_key) in
      box ← scaled_box scale_w scale_h region;
      regions_loop field_names scale_w scale_h (S i) rest
        (scaled_boxes ++ [box]) (field_names_list ++ [field_name])
  end.

(** Everything of the extract block before the page loop. *)
Definition scale_regions (bg_image : image) (field_names : gmap pystr pystr)
    (regions : list Rect) : result (list Rect * list pystr) :=
  canvas_height ← canvas_height bg_image;
  let '(original_w, original_h) := size bg_image in
  '(scale_w, scale_h) ←
    scale_factors (PInt canvas_width) canvas_height
      (PInt original_w) (PInt original_h);
  regions_loop field_names scale_w scale_h 0 regions [] [].

(** The loop over [enumerate(scaled_boxes)] for one page, from box [j] on. *)
Fixpoint boxes_loop (page_image : image) (field_names_list : list pystr)
    (language : pystr) (preprocessing_options : list pystr)
    (j : nat) (scaled_boxes : list Rect) (page_data : odict cell)
    : Eff (odict cell) :=
  match scaled_boxes with
  | [] => mret page_data
  | box :: rest =>
      field_name ← lift (match field_names_list !! j with
                         | Some f => Ok f
                         | None => Raise IndexError
                         end);
      text ← (let '(log, text) :=
                perform_ocr page_image box language preprocessing_options in
              (log, Ok text));
      boxes_loop page_image field_names_list language preprocessing_options
        (S j) rest (odict_set page_data field_name (CStr text))
  end.

(** The loop over [enumerate(pdf_images)], from page [i] on. *)
Fixpoint pages_loop (scaled_boxes : list Rect) (field_names_list : list pystr)
    (language : pystr) (preprocessing_options : list pystr)
    (i : nat) (pdf_images : list image) (all_pages_data : list (odict cell))
    : Eff (list (odict cell)) :=
  match pdf_images with
  | [] => mret all_pages_data
  | page_image :: rest =>
      page_data ← boxes_loop page_image field_names_list language
                    preprocessing_options 0 scaled_boxes
                    [(lit "Page", CInt (Z.of_nat i + 1))];
      pages_loop scaled_boxes field_names_list language preprocessing_options
        (S i) rest (all_pages_data ++ [page_data])
  end.

(** The extract block: the table stored in [extracted_data]. *)
Definition extract_data (pdf_images : list image) (bg_image : image)
    (field_names : gmap pystr pystr) (regions : list Rect)
    (language : pystr) (preprocessing_options : list pystr) : Eff DataFrame :=
  '(scaled_boxes, field_names_list) ←
    lift (scale_regions bg_image field_names regions);
  all_pages_data ← pages_loop scaled_boxes field_names_list language
                     preprocessing_options 0 pdf_images [];
  mret (pd_DataFrame all_pages_data).

(** ** Language selection *)

Definition language_options : list pystr :=
  [lit "English"; lit "Hindi"; lit "English + Hindi"].

(** [st.selectbox(label, options)]: the option at the position chosen in
    the widget, the first option until one is chosen. *)
Definition selectbox (options : list pystr) (chosen : nat) : pystr :=
  default (default [] (head options)) (options !! chosen).

End Extraction.

(** ** Templates *)

#[local] Unset Elimination Schemes.
Inductive json : Type :=
| JNull
| JBool (b : bool)
| JNum (n : pynum)
| JStr (s : pystr)
| JArr (l : list json)
| JObj (o : list (pystr * json)).
#[local] Set Elimination Schemes.

Class JsonCodec : Type := {
  (** [json.dumps(value, indent=...)] *)
  json_dumps : json -> Z -> pystr;
  (** [json.load(file)] *)
  json_load : pystr -> result json
}.

(** The two session entries a template carries. *)
Record Template : Type := mkTemplate {
  canvas_json : json;
  field_names : gmap pystr pystr
}.

(** The [field_names] dict as a JSON value, and back.  The session
    mapping holds strings; a loaded value of another shape has no
    counterpart in this typed view and is reported as a [TypeError]. *)
Definition names_to_json (names : gmap pystr pystr) : json :=
  JObj ((fun kv => (kv.1, JStr kv.2)) <$> map_to_list names).

Definition names_of_json (v : json) : result (gmap pystr pystr) :=
  match v with
  | JObj o =>
      match mapM (fun kv => match kv.2 with
                            | JStr s => Some (kv.1, s)
                            | _ => None
                            end) o with
      | Some l => Ok (list_to_map l)
      | None => Raise TypeError
      end
  | _ => Raise TypeError
  end.

(** [d.get(key, default)] on a loaded value. *)
Definition json_get (d : json) (key : pystr) (dflt : json) : result json :=
  match d with
  | JObj o => Ok (default dflt (odict_get o key))
  | _ => Raise AttributeError
  end.

(** The dict written by "Save as Template". *)
Definition template_to_save (t : Template) : json :=
  JObj [(lit "regions", canvas_json t);
        (lit "field_names", names_to_json (field_names t))].

(** The two session entries the "Load Template" block assigns from the
    loaded document [template_data]. *)
Definition read_template (template_data : json) : result Template :=
  regions ← json_get template_data (lit "regions") JNull;
  names ← json_get template_data (lit "field_names") (JObj []);
  names ← names_of_json names;
  Ok (mkTemplate regions names).

Section TemplateStore.
Context `{JsonCodec}.

(** The data of the "Save as Template" download:
    [json.dumps(template_to_save, indent=2)]. *)
Definition save_template (t : Template) : pystr :=
  json_dumps (template_to_save t) 2.

(** The "Load Template" block on an uploaded file. *)
Definition load_template (uploaded_template : pystr) : result Template :=
  template_data ← json_load uploaded_template;
  read_template template_data.

End TemplateStore.

(** ** Reference readings used to compare with the specification *)

(** Two equal adjacent characters [c] somewhere in [s]. *)
Fixpoint has_consecutive (c : N) (s : pystr) : bool :=
  match s with
  | a :: (b :: _) as s' => ((a =? c) && (b =? c))%N || has_consecutive c s'
  | _ => false
  end.

(** ** A test double for the collaborators

    A page is its pixel size and the text lines printed on it, each at a
    height; cropping keeps the lines inside the box; preprocessing keeps
    the page; recognition returns the lines and fails when there is none. *)

Record toy_image : Type := mkToy {
  toy_size : Z * Z;
  toy_lines : list (Z * pystr)
}.

Definition TesseractError : exn := "TesseractError"%string.

Definition toy_crop (img : toy_image) (box : Z * Z * Z * Z) : toy_image :=
  let '(l, u, r, b) := box in
  mkToy (r - l, b - u)
    ((fun yl => (yl.1 - u, yl.2))
     <$> filter (fun yl => u <= yl.1 < b) (toy_lines img)).

Definition toy_collaborators : Collaborators := {|
  image := toy_image;
  size := toy_size;
  mode := fun _ => lit "RGB";
  crop := fun img box => Ok (toy_crop img box);
  grayscale := fun img => Ok img;
  invert := fun img => Ok img;
  image_to_string := fun img _ =>
    match toy_lines img with
    | [] => Raise TesseractError
    | ls => Ok (concat ((fun yl => yl.2 ++ [NEWLINE]) <$> ls))
    end;
  text_input := fun _ value _ => value
|}.

(** A codec double that stores the one document it was built for. *)
Definition toy_codec (doc : json) : JsonCodec := {|
  json_dumps := fun _ _ => lit "{}";
  json_load := fun _ => Ok doc
|}.


(** ** Predicates and tactics of the proofs *)

(** What the page loop does, as pure functions: the row of one page and
    the log of a whole pass. *)
Definition write_fields `{Collaborators} (page_image : image) (language : pystr)
    (preprocessing_options : list pystr)
    (fields : list (pystr * Rect)) (page_data : odict cell) : odict cell :=
  fold_left (fun d fb =>
               odict_set d fb.1
                 (CStr (perform_ocr page_image fb.2 language
                          preprocessing_options).2))
            fields page_data.

Definition page_row `{Collaborators} (scaled_boxes : list Rect)
    (field_names_list : list pystr) (language : pystr)
    (preprocessing_options : list pystr) (i : nat) (page_image : image)
    : odict cell :=
  write_fields page_image language preprocessing_options
    (zip field_names_list scaled_boxes) [(lit "Page", CInt (Z.of_nat i + 1))].

Definition page_log `{Collaborators} (scaled_boxes : list Rect)
    (language : pystr) (preprocessing_options : list pystr)
    (page_image : image) : list event :=
  concat ((fun box =>
             (perform_ocr page_image box language preprocessing_options).1)
          <$> scaled_boxes).

Definition pass_log `{Collaborators} (scaled_boxes : list Rect)
    (language : pystr) (preprocessing_options : list pystr)
    (pdf_images : list image) : list event :=
  concat (page_log scaled_boxes language preprocessing_options <$> pdf_images).

(** Only whitespace. *)
Definition all_space (ws : pystr) : Prop :=
  Forall (fun c => isspace c = true) ws.

Definition is_warning (ev : event) : Prop :=
  match ev with
  | EvWarning _ => True
  | _ => False
  end.

(** An extent that [int()] turns into a number that is not positive. *)
Definition nonpositive_extent (x : pynum) : Prop :=
  exists z, py_int x = Ok z /\ z <= 0.

Definition degenerate (b : Rect) : Prop :=
  nonpositive_extent (rect_width b) \/ nonpositive_extent (rect_height b).

Ltac eff_simpl :=
  repeat (unfold mbind, mret, Eff_bind, Eff_ret, result_bind, result_ret,
            lift, call in *; simpl in * ).


(** ** Sample inputs *)

Definition sample_page (lines : list (Z * string)) : toy_image :=
  mkToy (1240, 1754) ((fun yl => (yl.1, lit yl.2)) <$> lines).

Definition sample_pages : list toy_image :=
  [sample_page [(50, "Ann"); (150, "3 May"); (480, "12.50")];
   sample_page [(50, "Bob"); (480, "7.00")];
   sample_page [(50, "Cy"); (150, "5 May"); (480, "1.25")]]%string.

Definition sample_regions : list Rect :=
  [mkRect (PInt 10) (PInt 20) (PInt 100) (PInt 50);
   mkRect (PFloat (S754_finite false 5 (-1))) (PInt 90) (PInt 200) (PInt 40);
   mkRect (PInt 400) (PInt 300) (PInt 120) (PInt 30)].

Definition sample_names : gmap pystr pystr :=
  {[ lit "region_0_10_20" := lit "Name";
     lit "region_1_2_90" := lit "Date";
     lit "region_2_400_300" := lit "Amount" ]}.

(** ** Failures of the collaborators inside [perform_ocr] *)



Definition is_recognition (ev : event) : Prop :=
  match ev with
  | EvRecognize _ => True
  | _ => False
  end.

Definition first_page : toy_image :=
  sample_page [(50, "Ann"); (150, "3 May"); (480, "12.50")]%string.

Definition sample_template : Template :=
  mkTemplate
    (JObj [(lit "version", JStr (lit "4.4.0"));
           (lit "objects",
            JArr [JObj [(lit "type", JStr (lit "rect"));
                        (lit "left", JNum (PInt 10));
                        (lit "top", JNum (PInt 20));
                        (lit "width", JNum (PInt 100));
                        (lit "height", JNum (PInt 50))]])])
    sample_names.

(** A finite, nonzero float of sign [s] whose mantissa has at most 64
    digits and whose exponent lies within [B] of zero. *)
Definition finite_within (s : bool) (B : Z) (f : float) : Prop :=
  exists m e,
    f = S754_finite s m e /\ Zdigits2 (Z.pos m) <= 64 /\ - B <= e <= B.

(** A coordinate the drawing surface can report: an integer below 2^64 in
    magnitude or a finite float. *)
Definition regular_number (x : pynum) : Prop :=
  match x with
  | PInt z => Z.abs z < 2 ^ 64
  | PFloat f => is_finite f = true
  end.

Definition regular_region (r : Rect) : Prop :=
  regular_number (rect_left r) /\ regular_number (rect_top r)
  /\ regular_number (rect_width r) /\ regular_number (rect_height r).

(** [float(800)] *)
Definition float_800 : float := S754_finite false 7036874417766400 (-43).

(** Pages of unusual sizes. *)
Definition odd_page : toy_image := mkToy (1000, 1602) [].
Definition zero_width_page : toy_image := mkToy (0, 1754) [].
Definition zero_height_page : toy_image := mkToy (1240, 0) [].

(** A number equal to zero, and a region without width or height. *)
Definition zero_number (x : pynum) : Prop :=
  x = PInt 0 \/ exists s, x = PFloat (S754_zero s).

Definition zero_extent (r : Rect) : Prop :=
  zero_number (rect_width r) \/ zero_number (rect_height r).

(** The magnitude of a finite float in units of 2^-1100, an integer for
    every binary64 number. *)
Definition fixed (f : float) : Z :=
  match f with
  | S754_finite _ m e => Z.pos m * 2 ^ (e + 1100)
  | _ => 0
  end.

(** [f] is [z] up to a relative error of 2^-50. *)
Definition within_rounding (f : float) (z : Z) : Prop :=
  Z.abs (fixed f - z * 2 ^ 1100) * 2 ^ 50 <= z * 2 ^ 1100.


(** ** Further readings of the script *)

(** The characters of a text that are not whitespace, in order. *)
Definition visible (s : list N) : list N :=
  filter (fun c => isspace c = false) s.

(** The boxes handed to [image.crop] in a log, in order. *)
Definition crop_events (log : list event) : list (Z * Z * Z * Z) :=
  omap (fun ev => match ev with
                  | EvCrop box => Some box
                  | _ => None
                  end) log.

(** A coordinate [int()] refuses: NaN or an infinity. *)
Definition not_finite_number (x : pynum) : Prop :=
  x = PFloat S754_nan \/ exists s, x = PFloat (S754_infinity s).

(** The label and the widget key of the text input of region [i]. *)
Definition name_label (i : nat) : pystr :=
  lit "Name for Region " ++ str_of_int (Z.of_nat i + 1).

Definition name_widget_key (i : nat) : pystr :=
  lit "field_name_" ++ str_of_int (Z.of_nat i).

(** The distinct elements of a list, each at its first occurrence. *)
Definition first_occurrences (l : list pystr) : list pystr :=
  fold_left (fun acc k => if bool_decide (k ∈ acc) then acc else acc ++ [k])
            l [].

(** A collaborator double whose [ImageOps.grayscale] always fails. *)
Definition no_grayscale_collaborators : Collaborators := {|
  image := toy_image;
  size := toy_size;
  mode := fun _ => lit "RGB";
  crop := fun img box => Ok (toy_crop img box);
  grayscale := fun _ => Raise ValueError;
  invert := fun img => Ok img;
  image_to_string := fun img _ => Ok (lit "text");
  text_input := fun _ value _ => value
|}.

(** The pixel box [perform_ocr] hands to [image.crop] for a bounding box,
    when it gets that far. *)
Definition crop_box (b : Rect) : option (Z * Z * Z * Z) :=
  match py_int (rect_left b), py_int (rect_top b),
        py_int (rect_width b), py_int (rect_height b) with
  | Ok l, Ok t, Ok w, Ok h =>
      if bool_decide (0 < w) && bool_decide (0 < h)
      then Some (l, t, l + w, t + h) else None
  | _, _, _, _ => None
  end.

(** ** Rasterizing the upload (PyMuPDF and PIL) *)

Class PdfBackend `{Collaborators} : Type := {
  (** the content of the uploaded file, and of a rendered page *)
  bytes : Type;
  document : Type;
  pdf_page : Type;
  pixmap : Type;
  (** [fitz.open(stream=pdf_bytes, filetype="pdf")] *)
  fitz_open : bytes -> result document;
  (** [len(pdf_document)] *)
  page_count : document -> nat;
  (** [pdf_document.load_page(page_num)] *)
  load_page : document -> nat -> result pdf_page;
  (** [page.get_pixmap(dpi=...)] *)
  get_pixmap : pdf_page -> Z -> result pixmap;
  (** [pix.tobytes(format)] *)
  tobytes : pixmap -> pystr -> result bytes;
  (** [Image.open(io.BytesIO(img_bytes))] *)
  Image_open : bytes -> result image;
  (** [pdf_document.close()] *)
  document_close : document -> result unit
}.

(** The calls and the messages of the upload block. *)
Inductive pdf_event : Type :=
| EvOpen
| EvLoadPage (page_num : nat)
| EvPixmap (dpi : Z)
| EvToBytes (format : pystr)
| EvImageOpen
| EvClose
(** [st.error(f"Error processing PDF: {e}")] *)
| EvError (e : exn)
(** [st.success(f"PDF processed: {n} pages.")] *)
| EvSuccess (n : nat)
(** [st.error("Could not process the PDF. ...")] *)
| EvCouldNotProcess.

Definition PdfEff (A : Type) : Type := list pdf_event * result A.

Definition pdf_call {A} (ev : pdf_event) (r : result A) : PdfEff A := ([ev], r).

Section Rasterizer.
Context `{PdfBackend}.

#[local] Instance PdfEff_ret : MRet PdfEff := fun A a => ([], Ok a).
#[local] Instance PdfEff_bind : MBind PdfEff := fun A B f m =>
  match m with
  | (log, Ok a) => let '(log', r) := f a in (log ++ log', r)
  | (log, Raise e) => (log, Raise e)
  end.

Definition dpi_setting : Z := 150.

(** The loop over [range(len(pdf_document))], from the page numbers
    [page_nums] on, appending to [images]. *)
Fixpoint render_pages (pdf_document : document) (page_nums : list nat)
    (images : list image) : PdfEff (list image) :=
  match page_nums with
  | [] => mret images
  | page_num :: rest =>
      page ← pdf_call (EvLoadPage page_num) (load_page pdf_document page_num);
      pix ← pdf_call (EvPixmap dpi_setting) (get_pixmap page dpi_setting);
      img_bytes ← pdf_call (EvToBytes (lit "png")) (tobytes pix (lit "png"));
      image ← pdf_call EvImageOpen (Image_open img_bytes);
      render_pages pdf_document rest (images ++ [image])
  end.

(** The [try] block of [pdf_to_images]. *)
Definition pdf_to_images_try (pdf_bytes : bytes) : PdfEff (list image) :=
  pdf_document ← pdf_call EvOpen (fitz_open pdf_bytes);
  images ← render_pages pdf_document (seq 0 (page_count pdf_document)) [];
  _ ← pdf_call EvClose (document_close pdf_document);
  mret images.

(** [pdf_to_images(pdf_bytes)]: the log of the call and the returned list. *)
Definition pdf_to_images (pdf_bytes : bytes) : list pdf_event * list image :=
  match pdf_to_images_try pdf_bytes with
  | (log, Ok images) => (log, images)
  | (log, Raise e) => (log ++ [EvError e], [])
  end.

(** The upload block of the sidebar, for the file in the uploader (if any)
    and the pages held in the session: the log and the pages held
    afterwards. *)
Definition process_upload (uploaded_file : option bytes)
    (pdf_images : list image) : list pdf_event * list image :=
  match uploaded_file, pdf_images with
  | Some pdf_bytes, [] =>
      let '(log, images) := pdf_to_images pdf_bytes in
      (log ++ [match images with
               | [] => EvCouldNotProcess
               | _ => EvSuccess (length images)
               end],
       images)
  | _, _ => ([], pdf_images)
  end.

(** One page of the document as an image: the four calls of the loop
    body, without the log. *)
Definition render_page (pdf_document : document) (page_num : nat)
    : result image :=
  page ← load_page pdf_document page_num;
  pix ← get_pixmap page dpi_setting;
  img_bytes ← tobytes pix (lit "png");
  Image_open img_bytes.

End Rasterizer.

Definition is_pdf_error (ev : pdf_event) : Prop :=
  match ev with
  | EvError _ => True
  | _ => False
  end.

(** A backend double: the upload is the list of its pages, each the page
    image or nothing when the page cannot be rendered. *)
Definition toy_backend : @PdfBackend toy_collaborators := {|
  bytes := list (option toy_image);
  document := list (option toy_image);
  pdf_page := option toy_image;
  pixmap := toy_image;
  fitz_open := fun b => Ok b;
  page_count := fun doc => length doc;
  load_page := fun doc n =>
    match doc !! n with
    | Some p => Ok p
    | None => Raise IndexError
    end;
  get_pixmap := fun p _ =>
    match p with
    | Some img => Ok img
    | None => Raise ValueError
    end;
  tobytes := fun px _ => Ok [Some px];
  Image_open := fun b =>
    match b with
    | [Some img] => Ok (img : @image toy_collaborators)
    | _ => Raise ValueError
    end;
  document_close := fun _ => Ok tt
|}.

(** A call that renders a page, at the resolution and in the format the
    script asks for. *)
Definition is_page_call (ev : pdf_event) : Prop :=
  match ev with
  | EvLoadPage _ | EvImageOpen => True
  | EvPixmap dpi => dpi = 150
  | EvToBytes format => format = lit "png"
  | _ => False
  end.

(** ** The session

    [st.session_state] as a map from key to value; the values the script
    stores are the pages, the table, the field names, the drawing, the
    language and the preprocessing options. *)

Inductive session_value `{Collaborators} : Type :=
| SVPages (pdf_images : list image)
| SVTable (extracted_data : option DataFrame)
| SVNames (field_names : gmap pystr pystr)
| SVCanvas (canvas_json : option json)
| SVText (s : pystr)
| SVOptions (l : list pystr).

Section Session.
Context `{Collaborators}.

(** [if key not in st.session_state: st.session_state[key] = value] *)
Definition init_key (key : pystr) (value : session_value)
    (s : gmap pystr session_value) : gmap pystr session_value :=
  match s !! key with
  | Some _ => s
  | None => <[key := value]> s
  end.

(** The session state initialization at the top of the script. *)
Definition init_session (s : gmap pystr session_value)
    : gmap pystr session_value :=
  init_key (lit "canvas_json") (SVCanvas None)
    (init_key (lit "field_names") (SVNames ∅)
       (init_key (lit "extracted_data") (SVTable None)
          (init_key (lit "pdf_images") (SVPages []) s))).

(** The loop of "Clear and Restart":
    [for key in list(st.session_state.keys()): del st.session_state[key]]. *)
Definition clear_session (s : gmap pystr session_value)
    : gmap pystr session_value :=
  foldl (fun s' key => delete key s') s ((map_to_list s).*1).

(** [st.session_state.pdf_images], once initialized. *)
Definition session_pages (s : gmap pystr session_value) : list image :=
  match s !! lit "pdf_images" with
  | Some (SVPages pdf_images) => pdf_images
  | _ => []
  end.

End Session.

(** A codec double that refuses every file. *)
Definition JSONDecodeError : exn := "JSONDecodeError"%string.

Definition no_codec : JsonCodec := {|
  json_dumps := fun _ _ => lit "{}";
  json_load := fun _ => Raise JSONDecodeError
|}.

(** The whole source pixel of the canvas coordinate [x] on a page [w]
    pixels wide: [v] truncates to the whole part of [x * w / 800], or to
    one less where the quotient is exact. *)
Definition source_pixel (w x : Z) (v : pynum) : Prop :=
  exists px,
    py_int v = Ok px
    /\ (x * w) `div` 800 - 1 <= px <= (x * w) `div` 800
    /\ ((x * w) `mod` 800 <> 0 -> px = (x * w) `div` 800).

(** ** Sample inputs of the further properties *)

Definition one_region : list Rect :=
  [mkRect (PInt 10) (PInt 20) (PInt 100) (PInt 50)].

Definition small_box : Rect :=
  mkRect (PInt 0) (PInt 0) (PInt 10) (PInt 10).

Definition nan_box : Rect :=
  mkRect (PFloat S754_nan) (PInt 0) (PInt 10) (PInt 10).

(** Uploads of the backend double: two pages, a second page that cannot
    be rendered, and no page at all. *)
Definition two_page_upload : list (option toy_image) :=
  [Some first_page; Some first_page].

Definition broken_upload : list (option toy_image) :=
  [Some first_page; None].

Definition empty_upload : list (option toy_image) := [].
(** * Properties *)

(** ** Text cleanup *)

Lemma lstrip_split (s : pystr) :
  exists ws, s = ws ++ lstrip s /\ all_space ws.
Proof.
  induction s as [|c s IH]; simpl.
  - exists []. split; [done | constructor].
  - destruct (isspace c) eqn:Hc.
    + destruct IH as (ws & Hs & Hws).
      exists (c :: ws). split; [simpl; congruence | by constructor].
    + exists []. split; [done | constructor].
Qed.

Lemma lstrip_head (s : pystr) (c : N) :
  head (lstrip s) = Some c -> isspace c = false.
Proof.
  induction s as [|a s IH]; simpl; [done|].
  destruct (isspace a) eqn:Ha; [done|].
  simpl. intros [= <-]. done.
Qed.

Lemma rstrip_split (s : pystr) :
  exists ws, s = rstrip s ++ ws /\ all_space ws.
Proof.
  destruct (lstrip_split (reverse s)) as (ws & Hs & Hws).
  exists (reverse ws). split.
  - unfold rstrip. rewrite <- reverse_app, <- Hs.
    by rewrite reverse_involutive.
  - unfold all_space in *. rewrite Forall_forall in *.
    intros c Hc. apply Hws. by apply elem_of_reverse.
Qed.

Lemma rstrip_last (s : pystr) (c : N) :
  last (rstrip s) = Some c -> isspace c = false.
Proof.
  unfold rstrip. rewrite last_reverse. apply lstrip_head.
Qed.

Lemma strip_head (s : pystr) (c : N) :
  head (strip s) = Some c -> isspace c = false.
Proof.
  unfold strip. intros Hc.
  destruct (rstrip_split (lstrip s)) as (ws & Hs & _).
  apply (lstrip_head s). rewrite Hs.
  destruct (rstrip (lstrip s)); [done | exact Hc].
Qed.

Lemma strip_split (s : pystr) :
  exists ws1 ws2, s = ws1 ++ strip s ++ ws2 /\ all_space ws1 /\ all_space ws2.
Proof.
  destruct (lstrip_split s) as (ws1 & Hs1 & Hws1).
  destruct (rstrip_split (lstrip s)) as (ws2 & Hs2 & Hws2).
  exists ws1, ws2. unfold strip. by rewrite <- Hs2.
Qed.

Lemma replace_char_lookup (old new : N) (s : pystr) (i : nat) :
  replace_char old new s !! i
  = (fun c => if (c =? old)%N then new else c) <$> (s !! i).
Proof. unfold replace_char. apply list_lookup_fmap. Qed.

Lemma replace_newline_keeps (c : N) :
  isspace c = false -> (if (c =? NEWLINE)%N then SPACE else c) = c.
Proof.
  intros Hc. destruct (N.eqb_spec c NEWLINE) as [->|]; [|done].
  by vm_compute in Hc.
Qed.

Lemma clean_text_no_newline (text : pystr) : NEWLINE ∉ clean_text text.
Proof.
  unfold clean_text, replace_char. intros Hin.
  apply list_elem_of_fmap in Hin as (c & Hc & _).
  destruct (N.eqb_spec c NEWLINE); [by vm_compute in Hc | congruence].
Qed.

Lemma clean_text_head (text : pystr) (c : N) :
  head (clean_text text) = Some c -> isspace c = false.
Proof.
  unfold clean_text, replace_char. intros Hc.
  destruct (strip text) as [|a s] eqn:Hs; [done|].
  simpl in Hc. injection Hc as <-.
  assert (Ha : isspace a = false) by (apply (strip_head text); by rewrite Hs).
  by rewrite replace_newline_keeps.
Qed.

Lemma clean_text_last (text : pystr) (c : N) :
  last (clean_text text) = Some c -> isspace c = false.
Proof.
  unfold clean_text, replace_char. intros Hc.
  rewrite fmap_last in Hc.
  destruct (last (strip text)) as [a|] eqn:Hs; [|done].
  simpl in Hc. injection Hc as <-.
  assert (Ha : isspace a = false) by (by apply (rstrip_last (lstrip text))).
  by rewrite replace_newline_keeps.
Qed.

(** ** [perform_ocr] *)

Section EngineFacts.
Context `{Collaborators}.

(** The successful path through [perform_ocr]. *)
Lemma perform_ocr_recognized (img : image) (b : Rect) (language : pystr)
    (opts : list pystr) (l t w h : Z) (cropped processed : image)
    (text : pystr) :
  py_int (rect_left b) = Ok l -> py_int (rect_top b) = Ok t ->
  py_int (rect_width b) = Ok w -> py_int (rect_height b) = Ok h ->
  0 < w -> 0 < h ->
  crop img (l, t, l + w, t + h) = Ok cropped ->
  preprocess_image cropped opts = Ok processed ->
  image_to_string processed (lang_code language) = Ok text ->
  perform_ocr img b language opts
  = ([EvCrop (l, t, l + w, t + h); EvRecognize (lang_code language)],
     clean_text text).
Proof.
  intros Hl Ht Hw Hh Hw0 Hh0 Hcrop Hpre Hocr.
  unfold perform_ocr, perform_ocr_try.
  rewrite Hl, Ht, Hw, Hh. eff_simpl.
  rewrite !bool_decide_eq_true_2 by done. eff_simpl.
  rewrite Hcrop. eff_simpl. rewrite Hpre. eff_simpl. rewrite Hocr. done.
Qed.



(** Without a positive width and height nothing is cropped or recognized. *)
Lemma perform_ocr_skipped (img : image) (b : Rect) (language : pystr)
    (opts : list pystr) :
  ~ (exists w h, py_int (rect_width b) = Ok w /\ py_int (rect_height b) = Ok h
                 /\ 0 < w /\ 0 < h) ->
  (perform_ocr img b language opts).2 = []
  /\ Forall is_warning (perform_ocr img b language opts).1.
Proof.
  intros Hbad. unfold perform_ocr, perform_ocr_try.
  destruct (py_int (rect_left b)) as [l|e]; eff_simpl;
    [|split; [done | by repeat constructor]].
  destruct (py_int (rect_top b)) as [t|e]; eff_simpl;
    [|split; [done | by repeat constructor]].
  destruct (py_int (rect_width b)) as [w|e]; eff_simpl;
    [|split; [done | by repeat constructor]].
  destruct (py_int (rect_height b)) as [h|e]; eff_simpl;
    [|split; [done | by repeat constructor]].
  destruct (decide (0 < w)) as [Hw|Hw]; destruct (decide (0 < h)) as [Hh|Hh].
  - exfalso. apply Hbad. by exists w, h.
  - rewrite (bool_decide_eq_false_2 _ Hh), andb_false_r. eff_simpl.
    split; [done | constructor].
  - rewrite (bool_decide_eq_false_2 _ Hw). eff_simpl.
    split; [done | constructor].
  - rewrite (bool_decide_eq_false_2 _ Hw). eff_simpl.
    split; [done | constructor].
Qed.

End EngineFacts.

(** ** Insertion-ordered dicts *)

Section Odict.
Context {V : Type}.
Implicit Types (d : odict V) (k : pystr) (v : V).

Lemma odict_get_set_eq d k v : odict_get (odict_set d k v) k = Some v.
Proof.
  induction d as [|[k' v'] d IH]; simpl.
  - by rewrite bool_decide_eq_true_2.
  - destruct (decide (k' = k)) as [->|Hne].
    + rewrite bool_decide_eq_true_2 by done. simpl.
      by rewrite bool_decide_eq_true_2.
    + rewrite (bool_decide_eq_false_2 _ Hne). simpl.
      by rewrite (bool_decide_eq_false_2 _ Hne).
Qed.

Lemma odict_get_set_ne d k k' v :
  k <> k' -> odict_get (odict_set d k v) k' = odict_get d k'.
Proof.
  intros Hne. induction d as [|[k0 v0] d IH]; simpl.
  - by rewrite (bool_decide_eq_false_2 _ Hne).
  - destruct (decide (k0 = k)) as [->|Hk0].
    + rewrite bool_decide_eq_true_2 by done. simpl.
      by rewrite !(bool_decide_eq_false_2 _ Hne).
    + rewrite (bool_decide_eq_false_2 _ Hk0). simpl.
      by rewrite IH.
Qed.

Lemma odict_keys_set_new d k v :
  k ∉ odict_keys d -> odict_keys (odict_set d k v) = odict_keys d ++ [k].
Proof.
  unfold odict_keys. induction d as [|[k0 v0] d IH]; simpl; [done|].
  intros Hk. apply not_elem_of_cons in Hk as [Hne Hk].
  rewrite bool_decide_eq_false_2 by congruence. simpl.
  f_equal. by apply IH.
Qed.

End Odict.

(** ** The page loop *)

Section PageLoop.
Context `{Collaborators}.
Variables (language : pystr) (preprocessing_options : list pystr).

Lemma write_fields_cons (page : image) (f : pystr) (b : Rect)
    (fields : list (pystr * Rect)) (d : odict cell) :
  write_fields page language preprocessing_options ((f, b) :: fields) d
  = write_fields page language preprocessing_options fields
      (odict_set d f
         (CStr (perform_ocr page b language preprocessing_options).2)).
Proof. done. Qed.

Lemma write_fields_keys (page : image) (fields : list (pystr * Rect)) :
  forall d : odict cell,
  NoDup (fields.*1) ->
  (forall f, f ∈ fields.*1 -> f ∉ odict_keys d) ->
  odict_keys (write_fields page language preprocessing_options fields d)
  = odict_keys d ++ fields.*1.
Proof.
  induction fields as [|[f b] fields IH]; intros d Hnd Hfresh.
  - simpl. by rewrite app_nil_r.
  - rewrite write_fields_cons. simpl in *.
    apply NoDup_cons in Hnd as [Hf Hnd].
    rewrite IH; [| done |].
    + rewrite odict_keys_set_new by (apply Hfresh; left).
      by rewrite <- app_assoc.
    + intros f' Hf'. rewrite odict_keys_set_new by (apply Hfresh; left).
      apply not_elem_of_app. split; [apply Hfresh; by right|].
      apply not_elem_of_cons. split; [|apply not_elem_of_nil].
      intros ->. done.
Qed.

Lemma write_fields_get_other (page : image) (fields : list (pystr * Rect)) :
  forall (d : odict cell) (f : pystr),
  f ∉ fields.*1 ->
  odict_get (write_fields page language preprocessing_options fields d) f
  = odict_get d f.
Proof.
  induction fields as [|[f0 b] fields IH]; intros d f Hf; [done|].
  rewrite write_fields_cons. simpl in Hf.
  apply not_elem_of_cons in Hf as [Hne Hf].
  rewrite IH by done. by apply odict_get_set_ne.
Qed.

Lemma write_fields_get (page : image) (fields : list (pystr * Rect)) :
  forall (d : odict cell) (k : nat) (f : pystr) (b : Rect),
  NoDup (fields.*1) ->
  fields !! k = Some (f, b) ->
  odict_get (write_fields page language preprocessing_options fields d) f
  = Some (CStr (perform_ocr page b language preprocessing_options).2).
Proof.
  induction fields as [|[f0 b0] fields IH]; intros d k f b Hnd Hk; [done|].
  rewrite write_fields_cons. simpl in Hnd.
  apply NoDup_cons in Hnd as [Hf0 Hnd].
  destruct k as [|k]; simpl in Hk.
  - injection Hk as -> ->.
    rewrite write_fields_get_other by done.
    apply odict_get_set_eq.
  - by apply (IH _ k).
Qed.

Lemma boxes_loop_run (page : image) (names : list pystr) (boxes : list Rect) :
  forall (j : nat) (d : odict cell),
  (j + length boxes <= length names)%nat ->
  boxes_loop page names language preprocessing_options j boxes d
  = (page_log boxes language preprocessing_options page,
     Ok (write_fields page language preprocessing_options
           (zip (drop j names) boxes) d)).
Proof.
  induction boxes as [|box boxes IH]; intros j d Hlen.
  - simpl. by rewrite zip_with_nil_r.
  - simpl in Hlen.
    destruct (lookup_lt_is_Some_2 names j) as [f Hf]; [lia|].
    rewrite (drop_S _ _ _ Hf). simpl. rewrite Hf.
    unfold page_log. simpl.
    destruct (perform_ocr page box language preprocessing_options)
      as [log text] eqn:Hocr.
    unfold mbind, Eff_bind. rewrite IH by lia. done.
Qed.

Lemma pages_loop_run (names : list pystr) (boxes : list Rect)
    (pages : list image) :
  (length boxes <= length names)%nat ->
  forall (i : nat) (acc : list (odict cell)),
  pages_loop boxes names language preprocessing_options i pages acc
  = (pass_log boxes language preprocessing_options pages,
     Ok (acc ++ imap (fun k page =>
                        page_row boxes names language preprocessing_options
                          (i + k) page) pages)).
Proof.
  intros Hlen. induction pages as [|page pages IH]; intros i acc.
  - simpl. by rewrite app_nil_r.
  - simpl. rewrite boxes_loop_run by (simpl; lia).
    unfold mbind at 1, Eff_bind. simpl.
    rewrite IH. unfold pass_log. simpl. f_equal. f_equal.
    rewrite <- app_assoc. simpl. f_equal.
    unfold page_row. rewrite Nat.add_0_r. f_equal.
    apply imap_ext. intros k page' _. simpl.
    by rewrite Nat.add_succ_r.
Qed.

End PageLoop.

(** ** The table built from the rows *)

Lemma add_keys_fresh (K cols : list pystr) :
  NoDup K -> (forall k, k ∈ K -> k ∉ cols) ->
  fold_left (fun acc k => if bool_decide (k ∈ acc) then acc else acc ++ [k]) K cols
  = cols ++ K.
Proof.
  revert cols. induction K as [|k K IH]; intros cols Hnd Hfresh; simpl.
  - by rewrite app_nil_r.
  - apply NoDup_cons in Hnd as [Hk Hnd].
    rewrite bool_decide_eq_false_2 by (apply Hfresh; left).
    rewrite IH; [by rewrite <- app_assoc | done |].
    intros k' Hk'. apply not_elem_of_app. split; [apply Hfresh; by right|].
    apply not_elem_of_cons. split; [|apply not_elem_of_nil].
    intros ->. done.
Qed.

Lemma add_keys_known (K cols : list pystr) :
  (forall k, k ∈ K -> k ∈ cols) ->
  fold_left (fun acc k => if bool_decide (k ∈ acc) then acc else acc ++ [k]) K cols
  = cols.
Proof.
  induction K as [|k K IH]; intros Hin; simpl; [done|].
  rewrite bool_decide_eq_true_2 by (apply Hin; left).
  apply IH. intros k' Hk'. apply Hin. by right.
Qed.

Lemma add_columns_same (K : list pystr) (records : list (odict cell)) :
  Forall (fun rec => odict_keys rec = K) records ->
  fold_left add_columns records K = K.
Proof.
  induction records as [|rec records IH]; intros Hall; simpl; [done|].
  apply Forall_cons in Hall as [Hrec Hall].
  unfold add_columns at 2. rewrite Hrec, add_keys_known by done.
  by apply IH.
Qed.

Lemma pd_DataFrame_columns (K : list pystr) (records : list (odict cell)) :
  records <> [] -> NoDup K ->
  Forall (fun rec => odict_keys rec = K) records ->
  df_columns (pd_DataFrame records) = K.
Proof.
  intros Hne Hnd Hall. destruct records as [|rec records]; [done|].
  simpl. unfold add_columns at 2.
  pose proof Hall as Hall'. apply Forall_cons in Hall' as [Hrec Hrest].
  rewrite Hrec, add_keys_fresh; [| done |].
  - simpl. by apply add_columns_same.
  - intros k _. apply not_elem_of_nil.
Qed.

Lemma pd_DataFrame_rows_length (records : list (odict cell)) :
  length (df_rows (pd_DataFrame records)) = length records.
Proof. simpl. by rewrite length_fmap. Qed.

Lemma index_of_elem (c : pystr) (cols : list pystr) :
  c ∈ cols -> exists j, index_of c cols = Some j /\ cols !! j = Some c.
Proof.
  induction cols as [|c' cols IH]; intros Hin.
  - by apply elem_of_nil in Hin.
  - simpl. destruct (decide (c' = c)) as [->|Hne].
    + exists 0%nat. by rewrite bool_decide_eq_true_2.
    + rewrite (bool_decide_eq_false_2 _ Hne).
      apply elem_of_cons in Hin as [?|Hin]; [congruence|].
      destruct (IH Hin) as (j & Hj & Hc).
      exists (S j). by rewrite Hj.
Qed.

Lemma pd_DataFrame_cell (records : list (odict cell)) (i : nat)
    (rec : odict cell) (c : pystr) :
  records !! i = Some rec ->
  c ∈ df_columns (pd_DataFrame records) ->
  df_cell (pd_DataFrame records) i c = Some (default CNaN (odict_get rec c)).
Proof.
  intros Hrec Hc. destruct (index_of_elem _ _ Hc) as (j & Hj & Hcol).
  unfold df_cell. rewrite Hj. simpl in *.
  rewrite list_lookup_fmap, Hrec. simpl.
  by rewrite list_lookup_fmap, Hcol.
Qed.

(** ** The region loop *)

Section RegionLoop.
Context `{Collaborators}.

Lemma regions_loop_spec (names : gmap pystr pystr) (scale_w scale_h : float)
    (regions : list Rect) :
  forall (i : nat) (bs : list Rect) (ns : list pystr)
         (bs' : list Rect) (ns' : list pystr),
  regions_loop names scale_w scale_h i regions bs ns = Ok (bs', ns') ->
  exists boxes fs,
    bs' = bs ++ boxes /\ ns' = ns ++ fs
    /\ length boxes = length regions /\ length fs = length regions
    /\ forall k region, regions !! k = Some region ->
       exists key box,
         region_key (i + k) region = Ok key
         /\ scaled_box scale_w scale_h region = Ok box
         /\ fs !! k = Some (default (default_field_name (i + k)) (names !! key))
         /\ boxes !! k = Some box.
Proof.
  induction regions as [|region regions IH]; intros i bs ns bs' ns' Hrun.
  - simpl in Hrun. injection Hrun as <- <-.
    exists [], []. rewrite !app_nil_r. repeat split; try done.
  - simpl in Hrun.
    destruct (region_key i region) as [key|e] eqn:Hkey; [|done].
    destruct (scaled_box scale_w scale_h region) as [box|e] eqn:Hbox; [|done].
    unfold mbind, result_bind in Hrun.
    apply IH in Hrun as (boxes & fs & -> & -> & Hlb & Hlf & Hall).
    exists (box :: boxes),
      (default (default_field_name i) (names !! key) :: fs).
    rewrite <- !app_assoc. simpl. repeat split; try done; try congruence.
    intros [|k] region' Hk; simpl in Hk.
    + injection Hk as <-. exists key, box.
      rewrite Nat.add_0_r. done.
    + destruct (Hall k region' Hk) as (key' & box' & ? & ? & ? & ?).
      exists key', box'. rewrite Nat.add_succ_r. done.
Qed.

End RegionLoop.

(** ** The extraction pass *)

Section ExtractionFacts.
Context `{Collaborators}.

Lemma scale_regions_spec (bg_image : image) (names : gmap pystr pystr)
    (regions boxes : list Rect) (fs : list pystr) :
  scale_regions bg_image names regions = Ok (boxes, fs) ->
  exists (ch : pynum) (scale_w scale_h : float),
    canvas_height bg_image = Ok ch
    /\ scale_factors (PInt canvas_width) ch
         (PInt (size bg_image).1) (PInt (size bg_image).2)
       = Ok (scale_w, scale_h)
    /\ length boxes = length regions /\ length fs = length regions
    /\ forall k region, regions !! k = Some region ->
       exists key box,
         region_key k region = Ok key
         /\ scaled_box scale_w scale_h region = Ok box
         /\ fs !! k = Some (default (default_field_name k) (names !! key))
         /\ boxes !! k = Some box.
Proof.
  unfold scale_regions. intros Hrun.
  destruct (canvas_height bg_image) as [ch|e]; [|done].
  unfold mbind at 1, result_bind in Hrun.
  destruct (size bg_image) as [original_w original_h]. simpl.
  destruct (scale_factors _ _ _ _) as [[scale_w scale_h]|e] eqn:Hsf; [|done].
  unfold mbind, result_bind in Hrun.
  apply regions_loop_spec in Hrun
    as (boxes' & fs' & -> & -> & Hlb & Hlf & Hall).
  exists ch, scale_w, scale_h. simpl. by repeat split.
Qed.

Lemma extract_data_run (pdf_images : list image) (bg_image : image)
    (names : gmap pystr pystr) (regions : list Rect)
    (language : pystr) (opts : list pystr)
    (boxes : list Rect) (fs : list pystr) :
  scale_regions bg_image names regions = Ok (boxes, fs) ->
  extract_data pdf_images bg_image names regions language opts
  = (pass_log boxes language opts pdf_images,
     Ok (pd_DataFrame (imap (page_row boxes fs language opts) pdf_images))).
Proof.
  intros Hscale. unfold extract_data. rewrite Hscale.
  destruct (scale_regions_spec _ _ _ _ _ Hscale)
    as (? & ? & ? & _ & _ & Hlb & Hlf & _).
  unfold lift, mbind at 1, Eff_bind.
  rewrite pages_loop_run by lia.
  unfold mbind, Eff_bind, mret, Eff_ret. simpl.
  by rewrite app_nil_r.
Qed.

Lemma page_row_keys (boxes : list Rect) (fs : list pystr)
    (language : pystr) (opts : list pystr) (i : nat) (page : image) :
  NoDup (lit "Page" :: fs) -> length fs = length boxes ->
  odict_keys (page_row boxes fs language opts i page) = lit "Page" :: fs.
Proof.
  intros Hnd Hlen. apply NoDup_cons in Hnd as [Hpage Hnd].
  unfold page_row. rewrite write_fields_keys.
  - by rewrite fst_zip by lia.
  - by rewrite fst_zip by lia.
  - rewrite fst_zip by lia. intros f Hf Hin.
    apply list_elem_of_singleton in Hin as ->. done.
Qed.

Lemma page_row_page (boxes : list Rect) (fs : list pystr)
    (language : pystr) (opts : list pystr) (i : nat) (page : image) :
  lit "Page" ∉ fs -> length fs = length boxes ->
  odict_get (page_row boxes fs language opts i page) (lit "Page")
  = Some (CInt (Z.of_nat i + 1)).
Proof.
  intros Hpage Hlen. unfold page_row.
  rewrite write_fields_get_other by (by rewrite fst_zip by lia).
  unfold odict_get. by rewrite bool_decide_eq_true_2.
Qed.

Lemma page_row_field (boxes : list Rect) (fs : list pystr)
    (language : pystr) (opts : list pystr) (i : nat) (page : image)
    (j : nat) (f : pystr) (box : Rect) :
  NoDup fs -> length fs = length boxes ->
  fs !! j = Some f -> boxes !! j = Some box ->
  odict_get (page_row boxes fs language opts i page) f
  = Some (CStr (perform_ocr page box language opts).2).
Proof.
  intros Hnd Hlen Hf Hbox. unfold page_row.
  apply (write_fields_get _ _ _ _ _ j).
  - by rewrite fst_zip by lia.
  - rewrite lookup_zip_with, Hf. simpl. by rewrite Hbox.
Qed.

(** Each cell of the table is what [perform_ocr] returned for its page
    and region, when the field names are distinct and none is "Page". *)
Lemma extract_data_cell (pdf_images : list image) (bg_image : image)
    (names : gmap pystr pystr) (regions : list Rect)
    (language : pystr) (opts : list pystr)
    (boxes : list Rect) (fs : list pystr)
    (i j : nat) (page : image) (box : Rect) (f : pystr) :
  scale_regions bg_image names regions = Ok (boxes, fs) ->
  NoDup (lit "Page" :: fs) ->
  pdf_images !! i = Some page -> boxes !! j = Some box -> fs !! j = Some f ->
  df_cell (pd_DataFrame (imap (page_row boxes fs language opts) pdf_images)) i f
  = Some (CStr (perform_ocr page box language opts).2).
Proof.
  intros Hscale Hnd Hpage Hbox Hf.
  destruct (scale_regions_spec _ _ _ _ _ Hscale)
    as (ch & sw & sh & _ & _ & Hlb & Hlf & _).
  rewrite (pd_DataFrame_cell _ i (page_row boxes fs language opts i page)).
  - apply NoDup_cons in Hnd as [_ Hnd].
    rewrite (page_row_field _ _ _ _ _ _ j f box) by (done || lia). done.
  - by rewrite list_lookup_imap, Hpage.
  - rewrite (pd_DataFrame_columns (lit "Page" :: fs)).
    + right. by apply list_elem_of_lookup_2 with j.
    + destruct pdf_images; [done | by rewrite imap_cons].
    + done.
    + apply Forall_forall. intros rec Hrec.
      apply list_elem_of_lookup in Hrec as [i' Hi'].
      rewrite list_lookup_imap in Hi'.
      destruct (pdf_images !! i') as [page'|]; [|done].
      injection Hi' as <-. apply page_row_keys; [done | lia].
Qed.

End ExtractionFacts.

(** ** Region keys *)

Lemma lit_cons (a : ascii) (s : string) :
  lit (String a s) = N_of_ascii a :: lit s.
Proof. done. Qed.

Lemma lit_inj (s1 s2 : string) : lit s1 = lit s2 -> s1 = s2.
Proof.
  revert s2. induction s1 as [|a s1 IH]; intros [|b s2]; try done.
  rewrite !lit_cons. intros [= Hab Hs].
  f_equal; [|by apply IH].
  by rewrite <- (ascii_N_embedding a), <- (ascii_N_embedding b), Hab.
Qed.

Lemma str_of_int_inj (a b : Z) : str_of_int a = str_of_int b -> a = b.
Proof. unfold str_of_int. intros Hab%lit_inj. by apply (inj pretty). Qed.

Lemma pretty_N_go_no_underscore (x : N) (s : string) :
  UNDERSCORE ∉ lit s -> UNDERSCORE ∉ lit (pretty_N_go x s).
Proof.
  revert s. induction (N.lt_wf_0 x) as [x _ IH]; intros s Hs.
  assert (x = 0 \/ 0 < x)%N as [->|Hx] by lia.
  - by rewrite pretty_N_go_0.
  - rewrite pretty_N_go_step by done. apply IH; [by apply N.div_lt|].
    rewrite lit_cons. apply not_elem_of_cons. split; [|done].
    unfold pretty_N_char. by repeat case_match.
Qed.

Lemma str_of_nat_no_underscore (i : nat) :
  UNDERSCORE ∉ str_of_int (Z.of_nat i).
Proof.
  unfold str_of_int, pretty, pretty_Z.
  destruct (Z.of_nat i) as [|p|p] eqn:Hi; [| |lia].
  - change (lit "0") with [48%N].
    by intros ?%list_elem_of_singleton.
  - unfold pretty, pretty_positive, pretty, pretty_N.
    rewrite decide_False by done.
    apply pretty_N_go_no_underscore. apply not_elem_of_nil.
Qed.

Lemma app_separator (c : N) (xs ys rest1 rest2 : pystr) :
  c ∉ xs -> c ∉ ys -> xs ++ c :: rest1 = ys ++ c :: rest2 -> xs = ys.
Proof.
  revert ys. induction xs as [|x xs IH]; intros [|y ys] Hx Hy Heq;
    simpl in Heq; try done.
  - injection Heq as <- _. exfalso. apply Hy. left.
  - injection Heq as -> _. exfalso. apply Hx. left.
  - injection Heq as -> Heq.
    apply not_elem_of_cons in Hx as [_ Hx].
    apply not_elem_of_cons in Hy as [_ Hy].
    f_equal. by apply IH.
Qed.

(** Regions at different positions of the list never share a key. *)
Lemma region_key_index (i1 i2 : nat) (r1 r2 : Rect) (key : pystr) :
  region_key i1 r1 = Ok key -> region_key i2 r2 = Ok key -> i1 = i2.
Proof.
  unfold region_key. intros H1 H2.
  destruct (py_int (rect_left r1)) as [l1|]; [|done].
  destruct (py_int (rect_top r1)) as [t1|]; [|done].
  destruct (py_int (rect_left r2)) as [l2|]; [|done].
  destruct (py_int (rect_top r2)) as [t2|]; [|done].
  unfold mbind, result_bind in *.
  assert (Heq : lit "region_" ++ str_of_int (Z.of_nat i1) ++ lit "_"
                  ++ str_of_int l1 ++ lit "_" ++ str_of_int t1
                = lit "region_" ++ str_of_int (Z.of_nat i2) ++ lit "_"
                  ++ str_of_int l2 ++ lit "_" ++ str_of_int t2)
    by congruence.
  apply app_inv_head in Heq.
  apply (app_separator UNDERSCORE) in Heq;
    auto using str_of_nat_no_underscore.
  apply str_of_int_inj in Heq. lia.
Qed.

Section NamingForm.
Context `{Collaborators}.


(** The naming form returns whenever every region has a key. *)
Lemma field_names_form_total (regions : list Rect) :
  forall (i : nat) (names : gmap pystr pystr),
  (forall k region, regions !! k = Some region ->
                    exists key, region_key (i + k) region = Ok key) ->
  exists names' shown, field_names_form i regions names = Ok (names', shown).
Proof.
  induction regions as [|region0 regions IH]; intros i names Hkeys.
  - by exists names, [].
  - simpl. destruct (Hkeys 0%nat region0 eq_refl) as [key0 Hkey0].
    rewrite Nat.add_0_r in Hkey0. rewrite Hkey0.
    unfold mbind at 1, result_bind.
    edestruct (IH (S i)) as (names1 & shown1 & ->).
    + intros k region Hk. rewrite Nat.add_succ_l, <- Nat.add_succ_r.
      by apply Hkeys.
    + by eexists _, _.
Qed.

End NamingForm.

(** ** Binary64 rounding

    Facts about the rounding of [SpecFloat] at [prec = 53], [emax = 1024],
    enough to show that the scale factors of a page are finite. *)

Lemma digits2_pos_size (p : positive) : digits2_pos p = Pos.size p.
Proof. induction p; simpl; congruence. Qed.

Lemma Zdigits2_log2 (m : Z) : 0 < m -> Zdigits2 m = Z.log2 m + 1.
Proof.
  destruct m as [|p|p]; try lia. intros _. simpl.
  rewrite digits2_pos_size. destruct p; simpl; lia.
Qed.

Lemma Zdigits2_bounds (m : Z) :
  0 < m -> 2 ^ (Zdigits2 m - 1) <= m < 2 ^ Zdigits2 m.
Proof.
  intros Hm. rewrite Zdigits2_log2 by done.
  replace (Z.log2 m + 1 - 1) with (Z.log2 m) by lia.
  replace (Z.log2 m + 1) with (Z.succ (Z.log2 m)) by lia.
  by apply Z.log2_spec.
Qed.

Lemma Zdigits2_pos (m : Z) : 0 < m -> 1 <= Zdigits2 m.
Proof.
  intros. rewrite Zdigits2_log2 by done.
  pose proof (Z.log2_nonneg m). lia.
Qed.

Lemma Zdigits2_le (m k : Z) : 0 < m -> 0 <= k -> m < 2 ^ k -> Zdigits2 m <= k.
Proof.
  intros Hm Hk Hlt. rewrite Zdigits2_log2 by done.
  pose proof (proj1 (Z.log2_lt_pow2 m k Hm) Hlt). lia.
Qed.

Lemma shr_1_m (mrs : shr_record) :
  0 <= shr_m mrs -> shr_m (shr_1 mrs) = shr_m mrs / 2 /\ 0 <= shr_m (shr_1 mrs).
Proof.
  destruct mrs as [m r s]. unfold shr_1. cbn [shr_m].
  destruct m as [|[p|p|]|p]; cbn [shr_m]; intros Hm.
  - split; [reflexivity | lia].
  - split; [|lia]. apply (Z.div_unique _ _ _ 1); lia.
  - split; [|lia]. apply (Z.div_unique _ _ _ 0); lia.
  - split; [reflexivity | lia].
  - lia.
Qed.

Lemma pow2_xO (p : positive) : 2 ^ Z.pos p~0 = 2 ^ Z.pos p * 2 ^ Z.pos p.
Proof.
  replace (Z.pos p~0) with (Z.pos p + Z.pos p) by lia.
  apply Z.pow_add_r; lia.
Qed.

Lemma pow2_xI (p : positive) : 2 ^ Z.pos p~1 = 2 * (2 ^ Z.pos p * 2 ^ Z.pos p).
Proof.
  replace (Z.pos p~1) with (1 + (Z.pos p + Z.pos p)) by lia.
  rewrite !Z.pow_add_r by lia. by rewrite Z.pow_1_r.
Qed.

Lemma iter_shr_1 (p : positive) :
  forall mrs : shr_record,
  0 <= shr_m mrs ->
  shr_m (SpecFloat.iter_pos shr_1 p mrs) = shr_m mrs / 2 ^ Z.pos p
  /\ 0 <= shr_m (SpecFloat.iter_pos shr_1 p mrs).
Proof.
  induction p as [p IH|p IH|]; intros mrs Hm; cbn [SpecFloat.iter_pos].
  - destruct (shr_1_m mrs Hm) as [H1 H1'].
    destruct (IH _ H1') as [H2 H2'].
    destruct (IH _ H2') as [H3 H3'].
    split; [|done]. rewrite H3, H2, H1, pow2_xI.
    assert (0 < 2 ^ Z.pos p) by (apply Z.pow_pos_nonneg; lia).
    rewrite !Z.div_div by lia. f_equal; ring.
  - destruct (IH _ Hm) as [H2 H2'].
    destruct (IH _ H2') as [H3 H3'].
    split; [|done]. rewrite H3, H2, pow2_xO.
    assert (0 < 2 ^ Z.pos p) by (apply Z.pow_pos_nonneg; lia).
    by rewrite !Z.div_div by lia.
  - destruct (shr_1_m mrs Hm) as [H1 H1']. by rewrite Z.pow_1_r.
Qed.

Lemma shr_spec (mrs : shr_record) (e n : Z) :
  0 <= shr_m mrs ->
  exists mrs', shr mrs e n = (mrs', e + Z.max 0 n)
               /\ shr_m mrs' = shr_m mrs / 2 ^ Z.max 0 n.
Proof.
  intros Hm. destruct n as [|p|p]; simpl.
  - exists mrs. by rewrite Z.add_0_r, Z.div_1_r.
  - destruct (iter_shr_1 p mrs Hm) as [H1 _]. by eexists.
  - exists mrs. by rewrite Z.add_0_r, Z.div_1_r.
Qed.

Lemma shr_m_of_loc (m : Z) (l : location) : shr_m (shr_record_of_loc m l) = m.
Proof. by destruct l as [|[]]. Qed.

(** In the range of normal numbers the exponent function is linear. *)
Lemma fexp_normal (e : Z) : -1021 <= e -> fexp 53 1024 e = e - 53.
Proof. unfold fexp, emin. lia. Qed.

Lemma shr_fexp_spec (m e : Z) (l : location) :
  0 < m -> -1021 <= Zdigits2 m + e ->
  exists mrs,
    shr_fexp 53 1024 m e l = (mrs, e + Z.max 0 (Zdigits2 m - 53))
    /\ shr_m mrs = m / 2 ^ Z.max 0 (Zdigits2 m - 53).
Proof.
  intros Hm He. unfold shr_fexp. rewrite fexp_normal by done.
  replace (Zdigits2 m + e - 53 - e) with (Zdigits2 m - 53) by lia.
  destruct (shr_spec (shr_record_of_loc m l) e (Zdigits2 m - 53))
    as (mrs & Hshr & Hmrs).
  { rewrite shr_m_of_loc. lia. }
  exists mrs. by rewrite Hshr, Hmrs, shr_m_of_loc.
Qed.

(** Dropping the digits beyond the 53rd leaves a positive number below 2^53. *)
Lemma truncate_bounds (m : Z) :
  0 < m ->
  0 < m / 2 ^ Z.max 0 (Zdigits2 m - 53) < 2 ^ 53.
Proof.
  intros Hm. pose proof (Zdigits2_bounds m Hm) as [Hlo Hhi].
  pose proof (Zdigits2_pos m Hm) as Hd.
  set (d := Zdigits2 m) in *.
  destruct (Z.le_gt_cases d 53) as [Hsmall|Hbig].
  - rewrite Z.max_l by lia. rewrite Z.pow_0_r, Z.div_1_r.
    split; [done|]. apply Z.lt_le_trans with (2 ^ d); [done|].
    apply Z.pow_le_mono_r; lia.
  - rewrite Z.max_r by lia.
    assert (Hpow : 0 < 2 ^ (d - 53)) by (apply Z.pow_pos_nonneg; lia).
    split.
    + apply Z.div_str_pos. split; [done|].
      apply Z.le_trans with (2 ^ (d - 1)); [|done].
      apply Z.pow_le_mono_r; lia.
    + apply Z.div_lt_upper_bound; [done|].
      rewrite <- Z.pow_add_r by lia.
      by replace (d - 53 + 53) with d by lia.
Qed.

Lemma round_nearest_even_bounds (m : Z) (l : location) :
  m <= round_nearest_even m l <= m + 1.
Proof. destruct l as [|[]]; simpl; try destruct (Z.even m); lia. Qed.

Lemma shr_fexp_small (m e : Z) (l : location) :
  0 < m -> -1021 <= Zdigits2 m + e -> Zdigits2 m <= 53 ->
  shr_fexp 53 1024 m e l = (shr_record_of_loc m l, e).
Proof.
  intros Hm He Hd. unfold shr_fexp. rewrite fexp_normal by done.
  replace (Zdigits2 m + e - 53 - e) with (Zdigits2 m - 53) by lia.
  unfold shr. by destruct (Zdigits2 m - 53) as [|p|p] eqn:E; [| lia |].
Qed.

Lemma loc_of_shr_record_of_loc (m : Z) (l : location) :
  loc_of_shr_record (shr_record_of_loc m l) = l.
Proof. by destruct l as [|[]]. Qed.

(** The rounded number differs from the exact one by at most one unit of
    the dropped digits, and not at all when nothing is dropped. *)
Lemma binary_round_aux_error (s : bool) (mx ex : Z) (lx : location) :
  0 < mx -> Zdigits2 mx <= 130 -> -1000 <= ex <= 890 ->
  exists m e,
    binary_round_aux 53 1024 s mx ex lx = S754_finite s m e
    /\ Zdigits2 (Z.pos m) <= 53
    /\ ex <= e <= ex + 80
    /\ Z.abs (Z.pos m * 2 ^ (e - ex) - mx) <= 2 ^ Z.max 0 (Zdigits2 mx - 53)
    /\ (lx = loc_Exact -> Zdigits2 mx <= 53 -> Z.pos m * 2 ^ (e - ex) = mx).
Proof.
  intros Hmx Hdx Hex. unfold binary_round_aux.
  pose proof (Zdigits2_pos mx Hmx) as Hd1.
  destruct (shr_fexp_spec mx ex lx Hmx) as (mrs1 & Heq1 & Hm1); [lia|].
  assert (Hsmall : Zdigits2 mx <= 53 -> mrs1 = shr_record_of_loc mx lx).
  { intros Hd. rewrite shr_fexp_small in Heq1 by (done || lia).
    by injection Heq1 as <-. }
  rewrite Heq1. clear Heq1.
  pose proof (truncate_bounds mx Hmx) as Hb1. rewrite <- Hm1 in Hb1.
  pose proof (round_nearest_even_bounds (shr_m mrs1) (loc_of_shr_record mrs1))
    as Hr.
  set (N := Z.max 0 (Zdigits2 mx - 53)) in *.
  assert (HN : 0 <= N) by lia.
  assert (HpowN : 0 < 2 ^ N) by (apply Z.pow_pos_nonneg; lia).
  pose proof (Z.div_mod mx (2 ^ N) ltac:(lia)) as Hdm.
  pose proof (Z.mod_pos_bound mx (2 ^ N) HpowN) as Hmod.
  rewrite <- Hm1 in Hdm.
  assert (Hexact : lx = loc_Exact -> Zdigits2 mx <= 53 ->
                   round_nearest_even (shr_m mrs1) (loc_of_shr_record mrs1) = mx).
  { intros -> Hd. rewrite (Hsmall Hd). by rewrite loc_of_shr_record_of_loc. }
  set (m1 := round_nearest_even (shr_m mrs1) (loc_of_shr_record mrs1)) in *.
  set (e1 := ex + N) in *.
  assert (Hm1pos : 0 < m1) by lia.
  assert (Hd2 : Zdigits2 m1 <= 54).
  { apply Zdigits2_le; [done | lia |].
    change (2 ^ 54) with (2 * 2 ^ 53). lia. }
  pose proof (Zdigits2_pos m1 Hm1pos) as Hd2'.
  destruct (shr_fexp_spec m1 e1 loc_Exact Hm1pos) as (mrs2 & -> & Hm2);
    [lia|].
  pose proof (truncate_bounds m1 Hm1pos) as Hb2. rewrite <- Hm2 in Hb2.
  set (n2 := Z.max 0 (Zdigits2 m1 - 53)) in *.
  assert (Hback : shr_m mrs2 * 2 ^ n2 = m1).
  { rewrite Hm2. destruct (Z.le_gt_cases (Zdigits2 m1) 53) as [Hle|Hgt].
    - unfold n2. rewrite Z.max_l by lia. rewrite Z.pow_0_r, Z.div_1_r. lia.
    - pose proof (Zdigits2_bounds m1 Hm1pos) as [Hlo _].
      assert (Hd54 : Zdigits2 m1 = 54) by lia.
      rewrite Hd54 in Hlo. change (2 ^ (54 - 1)) with (2 ^ 53) in Hlo.
      assert (Hm1eq : m1 = 2 ^ 53) by lia.
      unfold n2. rewrite Hd54, Hm1eq. reflexivity. }
  destruct (shr_m mrs2) as [|m|m] eqn:Hm; [lia| |lia].
  rewrite (proj2 (Z.leb_le _ _)) by (change (1024 - 53) with 971; lia).
  exists m, (e1 + n2).
  assert (Hscale : Z.pos m * 2 ^ (e1 + n2 - ex) = m1 * 2 ^ N).
  { replace (e1 + n2 - ex) with (n2 + N) by (unfold e1; lia).
    rewrite Z.pow_add_r by lia. rewrite Z.mul_assoc, Hback. done. }
  split; [done|]. split; [apply Zdigits2_le; lia|]. split; [lia|].
  rewrite Hscale. split.
  - apply Z.abs_le. nia.
  - intros Hlx Hd. rewrite (Hexact Hlx Hd).
    unfold N. rewrite Z.max_l by lia. lia.
Qed.

(** Rounding a positive number of moderate size gives a finite float. *)
Lemma binary_round_aux_finite (s : bool) (mx ex : Z) (lx : location) :
  0 < mx -> Zdigits2 mx <= 130 -> -1000 <= ex <= 890 ->
  exists m e,
    binary_round_aux 53 1024 s mx ex lx = S754_finite s m e
    /\ Zdigits2 (Z.pos m) <= 53
    /\ ex <= e <= ex + 80.
Proof.
  intros Hmx Hdx Hex.
  destruct (binary_round_aux_error s mx ex lx Hmx Hdx Hex)
    as (m & e & Heq & Hd & He & _).
  by exists m, e.
Qed.

Lemma Zdigits2_mul (a b : Z) :
  0 < a -> 0 < b -> Zdigits2 (a * b) <= Zdigits2 a + Zdigits2 b.
Proof.
  intros Ha Hb.
  pose proof (Zdigits2_bounds a Ha) as [_ Ha'].
  pose proof (Zdigits2_bounds b Hb) as [_ Hb'].
  pose proof (Zdigits2_pos a Ha). pose proof (Zdigits2_pos b Hb).
  apply Zdigits2_le; [lia | lia |].
  rewrite Z.pow_add_r by lia. nia.
Qed.

Lemma fmul_finite (s1 s2 : bool) (B1 B2 : Z) (x y : float) :
  finite_within s1 B1 x -> finite_within s2 B2 y -> B1 + B2 <= 800 ->
  finite_within (xorb s1 s2) (B1 + B2 + 80) (fmul x y).
Proof.
  intros (m1 & e1 & -> & Hd1 & He1) (m2 & e2 & -> & Hd2 & He2) HB.
  unfold fmul, SFmul.
  destruct (binary_round_aux_finite (xorb s1 s2) (Z.pos (m1 * m2)) (e1 + e2)
              loc_Exact) as (m & e & -> & Hd & He); [lia | | lia |].
  - rewrite Pos2Z.inj_mul.
    pose proof (Zdigits2_mul (Z.pos m1) (Z.pos m2)). lia.
  - exists m, e. repeat split; lia.
Qed.

Lemma fdiv_finite (s1 s2 : bool) (B1 B2 : Z) (x y : float) :
  finite_within s1 B1 x -> finite_within s2 B2 y -> B1 + B2 <= 800 ->
  finite_within (xorb s1 s2) (B1 + B2 + 116) (fdiv x y).
Proof.
  intros (m1 & e1 & -> & Hd1 & He1) (m2 & e2 & -> & Hd2 & He2) HB.
  unfold fdiv, SFdiv, SFdiv_core_binary.
  pose proof (Zdigits2_pos (Z.pos m1) eq_refl) as Hd1'.
  pose proof (Zdigits2_pos (Z.pos m2) eq_refl) as Hd2'.
  pose proof (Zdigits2_bounds (Z.pos m1) eq_refl) as [Hlo1 Hhi1].
  pose proof (Zdigits2_bounds (Z.pos m2) eq_refl) as [Hlo2 Hhi2].
  set (d1 := Zdigits2 (Z.pos m1)) in *. set (d2 := Zdigits2 (Z.pos m2)) in *.
  rewrite fexp_normal by lia.
  set (e' := Z.min (d1 + e1 - (d2 + e2) - 53) (e1 - e2)).
  set (sh := e1 - e2 - e').
  assert (Hsh : 0 <= sh) by (unfold sh, e'; lia).
  set (m' := match sh with
             | 0 => Z.pos m1
             | Z.pos _ => Z.shiftl (Z.pos m1) sh
             | Z.neg _ => 0
             end).
  assert (Hm' : m' = Z.pos m1 * 2 ^ sh).
  { unfold m'. destruct sh as [|p|p] eqn:Hp; [lia | | lia].
    by rewrite Z.shiftl_mul_pow2. }
  clearbody m'.
  destruct (Z.div_eucl m' (Z.pos m2)) as [q r] eqn:Hdiv.
  assert (Hq : q = m' / Z.pos m2) by (unfold Z.div; by rewrite Hdiv).
  assert (Hpow : 0 < 2 ^ sh) by (apply Z.pow_pos_nonneg; lia).
  assert (Hbig : 2 ^ (d1 - 1 + sh) <= m').
  { rewrite Hm', Z.pow_add_r by lia. nia. }
  assert (Hsmall : m' < 2 ^ (d1 + sh)).
  { rewrite Hm', Z.pow_add_r by lia. nia. }
  assert (Hge : Z.pos m2 <= m').
  { apply Z.le_trans with (2 ^ d2); [lia|].
    apply Z.le_trans with (2 ^ (d1 - 1 + sh)); [|done].
    apply Z.pow_le_mono_r; unfold sh, e'; lia. }
  assert (Hqpos : 0 < q).
  { rewrite Hq. apply Z.div_str_pos. lia. }
  assert (Hqd : Zdigits2 q <= 130).
  { apply Zdigits2_le; [done | lia |].
    apply Z.le_lt_trans with m'.
    - rewrite Hq. apply Z.div_le_upper_bound; [lia | nia].
    - apply Z.lt_le_trans with (2 ^ (d1 + sh)); [done|].
      apply Z.pow_le_mono_r; unfold sh, e'; lia. }
  destruct (binary_round_aux_finite (xorb s1 s2) q e'
              (new_location (Z.pos m2) r)) as (m & e & -> & Hd & He);
    [done | done | unfold e'; lia |].
  exists m, e. repeat split; [lia | unfold e' in He; lia ..].
Qed.

Lemma pos_iter_xO (p k : positive) :
  Z.pos (Pos.iter xO p k) = Z.pos p * 2 ^ Z.pos k.
Proof.
  change (Pos.iter xO p k) with (shift_pos k p).
  rewrite shift_pos_correct. change (Z.pow_pos 2 k) with (2 ^ Z.pos k). lia.
Qed.

(** [float(z)] of a nonzero integer below 2^64 in magnitude. *)
Lemma float_of_int_finite (z : Z) :
  z <> 0 -> Z.abs z < 2 ^ 64 ->
  exists f, float_of_int z = Ok f /\ finite_within (z <? 0) 80 f.
Proof.
  intros Hz Hlt. unfold float_of_int, binary_normalize.
  assert (Hround : forall (s : bool) (p : positive),
            Z.pos p < 2 ^ 64 ->
            finite_within s 80 (binary_round 53 1024 s p 0)).
  { intros s p Hp. unfold binary_round.
    pose proof (Zdigits2_pos (Z.pos p) eq_refl) as Hd.
    pose proof (Zdigits2_bounds (Z.pos p) eq_refl) as [Hlo Hhi].
    assert (Hd64 : Zdigits2 (Z.pos p) <= 64) by (apply Zdigits2_le; lia).
    change (Z.pos (digits2_pos p)) with (Zdigits2 (Z.pos p)).
    set (d := Zdigits2 (Z.pos p)) in *.
    rewrite fexp_normal by lia. unfold shl_align.
    destruct (d + 0 - 53 - 0) as [|k|k] eqn:Hk.
    - destruct (binary_round_aux_finite s (Z.pos p) 0 loc_Exact)
        as (m & e & -> & Hdm & He); [done | fold d; lia | lia |].
      exists m, e. repeat split; lia.
    - destruct (binary_round_aux_finite s (Z.pos p) 0 loc_Exact)
        as (m & e & -> & Hdm & He); [done | fold d; lia | lia |].
      exists m, e. repeat split; lia.
    - assert (Hshift : Zdigits2 (Z.pos (Pos.iter xO p k)) <= 53).
      { apply Zdigits2_le; [done | lia |]. rewrite pos_iter_xO.
        apply Z.lt_le_trans with (2 ^ d * 2 ^ Z.pos k).
        - assert (0 < 2 ^ Z.pos k) by (apply Z.pow_pos_nonneg; lia). nia.
        - rewrite <- Z.pow_add_r by lia.
          apply Z.pow_le_mono_r; lia. }
      destruct (binary_round_aux_finite s (Z.pos (Pos.iter xO p k))
                  (d + 0 - 53) loc_Exact)
        as (m & e & -> & Hdm & He); [done | lia | lia |].
      exists m, e. repeat split; lia. }
  destruct z as [|p|p]; [done | |].
  - destruct (Hround false p) as (m & e & -> & Hd & He); [lia|].
    eexists. split; [done|]. by exists m, e.
  - destruct (Hround true p) as (m & e & -> & Hd & He); [lia|].
    eexists. split; [done|]. by exists m, e.
Qed.

Lemma fmul_error (s1 s2 : bool) (B1 B2 : Z) (x y : float) :
  finite_within s1 B1 x -> finite_within s2 B2 y -> B1 + B2 <= 800 ->
  Z.abs (fixed (fmul x y) * 2 ^ 1100 - fixed x * fixed y) * 2 ^ 52
  <= fixed x * fixed y.
Proof.
  intros (m1 & e1 & -> & Hd1 & He1) (m2 & e2 & -> & Hd2 & He2) HB.
  unfold fmul, SFmul.
  pose proof (Zdigits2_mul (Z.pos m1) (Z.pos m2) eq_refl eq_refl) as Hdm.
  destruct (binary_round_aux_error (xorb s1 s2) (Z.pos (m1 * m2)) (e1 + e2)
              loc_Exact) as (m & e & -> & Hd & He & Herr & Hexact);
    [lia | rewrite Pos2Z.inj_mul; lia | lia |].
  cbn [fixed]. rewrite Pos2Z.inj_mul in *.
  set (mx := Z.pos m1 * Z.pos m2) in *.
  set (o := Z.pos m * 2 ^ (e - (e1 + e2))) in *.
  assert (Hmx : 0 < mx) by (unfold mx; lia).
  set (T := 2 ^ (e1 + e2 + 2200)).
  assert (HT : 0 < T) by (apply Z.pow_pos_nonneg; lia).
  assert (Hout : Z.pos m * 2 ^ (e + 1100) * 2 ^ 1100 = o * T).
  { unfold o, T. rewrite <- !Z.mul_assoc. f_equal.
    rewrite <- !Z.pow_add_r by lia. f_equal. lia. }
  assert (Hin : Z.pos m1 * 2 ^ (e1 + 1100) * (Z.pos m2 * 2 ^ (e2 + 1100))
                = mx * T).
  { unfold mx, T.
    replace (e1 + e2 + 2200) with ((e1 + 1100) + (e2 + 1100)) by lia.
    rewrite (Z.pow_add_r 2 (e1 + 1100) (e2 + 1100)) by lia. ring. }
  rewrite Hout, Hin, <- Z.mul_sub_distr_r, Z.abs_mul, (Z.abs_eq T) by lia.
  assert (Hrel : Z.abs (o - mx) * 2 ^ 52 <= mx).
  { destruct (Z.le_gt_cases (Zdigits2 mx) 53) as [Hle|Hgt].
    - rewrite (Hexact eq_refl Hle). rewrite Z.sub_diag. simpl. lia.
    - pose proof (Zdigits2_bounds mx Hmx) as [Hlo _].
      rewrite Z.max_r in Herr by lia.
      apply Z.le_trans with (2 ^ (Zdigits2 mx - 53) * 2 ^ 52).
      + apply Z.mul_le_mono_nonneg_r; [lia | done].
      + rewrite <- Z.pow_add_r by lia.
        by replace (Zdigits2 mx - 53 + 52) with (Zdigits2 mx - 1) by lia. }
  nia.
Qed.

Lemma Zdigits2_ge_53 (q : Z) : 2 ^ 52 <= q -> 53 <= Zdigits2 q.
Proof.
  intros Hq. assert (Hpos : 0 < q) by lia.
  rewrite Zdigits2_log2 by done.
  pose proof (proj1 (Z.log2_le_pow2 q 52 Hpos) Hq). lia.
Qed.

Lemma quotient_error (o q m2 M : Z) :
  0 < m2 -> m2 * q <= M < m2 * (q + 1) -> 2 ^ 52 * m2 <= M ->
  Z.abs (o - q) * 2 ^ 52 <= q ->
  Z.abs (o * m2 - M) * 2 ^ 51 <= M.
Proof.
  intros Hm2 HM Hbig Hrel.
  change (2 ^ 52) with (2 * 2 ^ 51) in *.
  assert (Hc : 0 < 2 ^ 51) by done.
  set (c := 2 ^ 51) in *. clearbody c.
  pose proof (Z.abs_nonneg (o - q)) as Ha.
  assert (Hoq : - Z.abs (o - q) <= o - q <= Z.abs (o - q)) by lia.
  set (a := Z.abs (o - q)) in *. clearbody a.
  assert (H1 : Z.abs (o * m2 - M) <= a * m2 + m2).
  { apply Z.abs_le. split; nia. }
  assert (H2 : a * (2 * c) * m2 <= q * m2)
    by (apply Z.mul_le_mono_nonneg_r; lia).
  assert (H3 : Z.abs (o * m2 - M) * c <= (a * m2 + m2) * c)
    by (apply Z.mul_le_mono_nonneg_r; lia).
  nia.
Qed.

Lemma fdiv_error (s1 s2 : bool) (B1 B2 : Z) (x y : float) :
  finite_within s1 B1 x -> finite_within s2 B2 y -> B1 + B2 <= 800 ->
  Z.abs (fixed (fdiv x y) * fixed y - fixed x * 2 ^ 1100) * 2 ^ 51
  <= fixed x * 2 ^ 1100.
Proof.
  intros (m1 & e1 & -> & Hd1 & He1) (m2 & e2 & -> & Hd2 & He2) HB.
  unfold fdiv, SFdiv, SFdiv_core_binary.
  pose proof (Zdigits2_pos (Z.pos m1) eq_refl) as Hd1'.
  pose proof (Zdigits2_pos (Z.pos m2) eq_refl) as Hd2'.
  pose proof (Zdigits2_bounds (Z.pos m1) eq_refl) as [Hlo1 Hhi1].
  pose proof (Zdigits2_bounds (Z.pos m2) eq_refl) as [Hlo2 Hhi2].
  set (d1 := Zdigits2 (Z.pos m1)) in *. set (d2 := Zdigits2 (Z.pos m2)) in *.
  rewrite fexp_normal by lia.
  set (e' := Z.min (d1 + e1 - (d2 + e2) - 53) (e1 - e2)).
  set (sh := e1 - e2 - e').
  assert (Hsh : 0 <= sh) by (unfold sh, e'; lia).
  set (m' := match sh with
             | 0 => Z.pos m1
             | Z.pos _ => Z.shiftl (Z.pos m1) sh
             | Z.neg _ => 0
             end).
  assert (Hm' : m' = Z.pos m1 * 2 ^ sh).
  { unfold m'. destruct sh as [|p|p] eqn:Hp; [lia | | lia].
    by rewrite Z.shiftl_mul_pow2. }
  clearbody m'.
  destruct (Z.div_eucl m' (Z.pos m2)) as [q r] eqn:Hdiv.
  assert (Hq : q = m' / Z.pos m2) by (unfold Z.div; by rewrite Hdiv).
  assert (Hpow : 0 < 2 ^ sh) by (apply Z.pow_pos_nonneg; lia).
  assert (Hbig : 2 ^ (d1 - 1 + sh) <= m').
  { rewrite Hm', Z.pow_add_r by lia. nia. }
  assert (Hsmall : m' < 2 ^ (d1 + sh)).
  { rewrite Hm', Z.pow_add_r by lia. nia. }
  assert (Hge : 2 ^ 52 * Z.pos m2 <= m').
  { apply Z.le_trans with (2 ^ 52 * 2 ^ d2); [nia|].
    rewrite <- Z.pow_add_r by lia.
    apply Z.le_trans with (2 ^ (d1 - 1 + sh)); [|done].
    apply Z.pow_le_mono_r; unfold sh, e'; lia. }
  pose proof (Z.div_mod m' (Z.pos m2) ltac:(lia)) as Hdm.
  pose proof (Z.mod_pos_bound m' (Z.pos m2) ltac:(lia)) as Hmod.
  rewrite <- Hq in Hdm.
  assert (Hq52 : 2 ^ 52 <= q) by nia.
  assert (Hqpos : 0 < q) by lia.
  assert (Hqd : Zdigits2 q <= 130).
  { apply Zdigits2_le; [done | lia |].
    apply Z.le_lt_trans with m'; [nia|].
    apply Z.lt_le_trans with (2 ^ (d1 + sh)); [done|].
    apply Z.pow_le_mono_r; unfold sh, e'; lia. }
  destruct (binary_round_aux_error (xorb s1 s2) q e'
              (new_location (Z.pos m2) r))
    as (m & e & -> & Hd & He & Herr & _);
    [done | done | unfold e'; lia |].
  cbn [fixed].
  set (o := Z.pos m * 2 ^ (e - e')) in *.
  assert (Hrel : Z.abs (o - q) * 2 ^ 52 <= q).
  { pose proof (Zdigits2_bounds q Hqpos) as [Hlo _].
    assert (Hdq : 53 <= Zdigits2 q) by (by apply Zdigits2_ge_53).
    rewrite Z.max_r in Herr by lia.
    apply Z.le_trans with (2 ^ (Zdigits2 q - 53) * 2 ^ 52).
    - apply Z.mul_le_mono_nonneg_r; [lia | done].
    - rewrite <- Z.pow_add_r by lia.
      by replace (Zdigits2 q - 53 + 52) with (Zdigits2 q - 1) by lia. }
  set (T := 2 ^ (e' + e2 + 2200)).
  assert (HT : 0 < T) by (apply Z.pow_pos_nonneg; unfold e'; lia).
  assert (Hout : Z.pos m * 2 ^ (e + 1100) * (Z.pos m2 * 2 ^ (e2 + 1100))
                 = o * Z.pos m2 * T).
  { unfold o, T.
    replace (e + 1100) with ((e - e') + (e' + 1100)) by lia.
    replace (e' + e2 + 2200) with ((e' + 1100) + (e2 + 1100)) by lia.
    rewrite (Z.pow_add_r 2 (e - e') (e' + 1100)) by (unfold e'; lia).
    rewrite (Z.pow_add_r 2 (e' + 1100) (e2 + 1100)) by (unfold e'; lia).
    ring. }
  assert (Hin : Z.pos m1 * 2 ^ (e1 + 1100) * 2 ^ 1100 = m' * T).
  { rewrite Hm'. unfold T.
    rewrite <- !Z.mul_assoc. f_equal.
    rewrite <- !Z.pow_add_r by (unfold e'; lia). f_equal.
    unfold sh. lia. }
  rewrite Hout, Hin, <- Z.mul_sub_distr_r, Z.abs_mul, (Z.abs_eq T) by lia.
  assert (Hmain : Z.abs (o * Z.pos m2 - m') * 2 ^ 51 <= m').
  { apply (quotient_error o q (Z.pos m2) m'); try done; lia. }
  rewrite <- Z.mul_assoc, (Z.mul_comm T), Z.mul_assoc.
  by apply Z.mul_le_mono_nonneg_r; [lia|].
Qed.

Lemma fixed_exact_int (a : Z) : 0 < a -> fixed (exact_int a) = a * 2 ^ 1100.
Proof. destruct a; try lia. done. Qed.

Lemma fixed_float_800 : fixed float_800 = 800 * 2 ^ 1100.
Proof. by vm_compute. Qed.

(** [float(z)] is exact below 2^53. *)
Lemma float_of_int_exact (z : Z) :
  0 < z < 2 ^ 53 ->
  exists f, float_of_int z = Ok f /\ finite_within false 80 f
            /\ fixed f = z * 2 ^ 1100.
Proof.
  intros Hz. destruct z as [|p|p]; try lia.
  unfold float_of_int, binary_normalize, binary_round.
  pose proof (Zdigits2_pos (Z.pos p) eq_refl) as Hd.
  pose proof (Zdigits2_bounds (Z.pos p) eq_refl) as [Hlo Hhi].
  assert (Hd53 : Zdigits2 (Z.pos p) <= 53) by (apply Zdigits2_le; lia).
  change (Z.pos (digits2_pos p)) with (Zdigits2 (Z.pos p)).
  set (d := Zdigits2 (Z.pos p)) in *.
  rewrite fexp_normal by lia. unfold shl_align.
  destruct (d + 0 - 53 - 0) as [|k|k] eqn:Hk; [| lia |].
  - destruct (binary_round_aux_error false (Z.pos p) 0 loc_Exact)
      as (m & e & -> & Hdm & He & _ & Hexact); [done | fold d; lia | lia |].
    eexists. split; [done|]. split; [exists m, e; repeat split; lia|].
    cbn [fixed]. rewrite <- (Hexact eq_refl) by (fold d; lia).
    rewrite Z.sub_0_r, <- Z.mul_assoc, <- Z.pow_add_r by lia. done.
  - assert (Hmz : Z.pos (Pos.iter xO p k) = Z.pos p * 2 ^ Z.pos k)
      by apply pos_iter_xO.
    assert (Hshift : Zdigits2 (Z.pos (Pos.iter xO p k)) <= 53).
    { apply Zdigits2_le; [done | lia |]. rewrite Hmz.
      apply Z.lt_le_trans with (2 ^ d * 2 ^ Z.pos k).
      - assert (0 < 2 ^ Z.pos k) by (apply Z.pow_pos_nonneg; lia). nia.
      - rewrite <- Z.pow_add_r by lia.
        apply Z.pow_le_mono_r; lia. }
    destruct (binary_round_aux_error false (Z.pos (Pos.iter xO p k))
                (d + 0 - 53) loc_Exact)
      as (m & e & -> & Hdm & He & _ & Hexact); [done | lia | lia |].
    eexists. split; [done|]. split; [exists m, e; repeat split; lia|].
    cbn [fixed]. specialize (Hexact eq_refl Hshift). rewrite Hmz in Hexact.
    replace (e + 1100) with ((e - (d + 0 - 53)) + (1100 - Z.pos k)) by lia.
    rewrite Z.pow_add_r by lia. rewrite Z.mul_assoc, Hexact.
    rewrite <- Z.mul_assoc, <- Z.pow_add_r by lia.
    by replace (Z.pos k + (1100 - Z.pos k)) with 1100 by lia.
Qed.

Lemma close_trans (W S X : Z) :
  Z.abs (S - X) * 2 ^ 51 <= X -> Z.abs (W - S) * 2 ^ 52 <= S ->
  Z.abs (W - X) * 2 ^ 50 <= X.
Proof.
  change (2 ^ 52) with (4 * 2 ^ 50). change (2 ^ 51) with (2 * 2 ^ 50).
  assert (Hc : 0 < 2 ^ 50) by done. set (c := 2 ^ 50) in *. clearbody c.
  intros H1 H2. nia.
Qed.

Lemma cancel_scale (a b c d P : Z) :
  0 < P -> Z.abs (a * P - b * P) * c <= d * P -> Z.abs (a - b) * c <= d.
Proof.
  intros HP H. rewrite <- Z.mul_sub_distr_r, Z.abs_mul, (Z.abs_eq P) in H
    by lia.
  apply (Z.mul_le_mono_pos_r _ _ P); [done|]. lia.
Qed.

(** [a / b] of two positive integers below 2^64. *)
Lemma py_truediv_int_finite (a b : Z) :
  0 < a < 2 ^ 64 -> 0 < b < 2 ^ 64 ->
  exists q, py_truediv (PInt a) (PInt b) = Ok q /\ finite_within false 116 q.
Proof.
  intros Ha Hb. unfold py_truediv.
  rewrite bool_decide_eq_false_2 by lia.
  destruct (fdiv_finite false false 0 0 (exact_int a) (exact_int b))
    as (m & e & -> & Hd & He); [| | lia |].
  - destruct a as [|p|p]; try lia. exists p, 0.
    repeat split; try lia. apply Zdigits2_le; lia.
  - destruct b as [|p|p]; try lia. exists p, 0.
    repeat split; try lia. apply Zdigits2_le; lia.
  - eexists. split; [done|]. exists m, e. repeat split; lia.
Qed.

Lemma py_truediv_int_eq (a b : Z) :
  0 < a < 2 ^ 64 -> 0 < b < 2 ^ 64 ->
  py_truediv (PInt a) (PInt b) = Ok (fdiv (exact_int a) (exact_int b))
  /\ finite_within false 116 (fdiv (exact_int a) (exact_int b)).
Proof.
  intros Ha Hb.
  destruct (py_truediv_int_finite a b Ha Hb) as (q & Hq & Hfin).
  assert (Heq : q = fdiv (exact_int a) (exact_int b)).
  { destruct Hfin as (m & e & -> & _). revert Hq. unfold py_truediv.
    rewrite bool_decide_eq_false_2 by lia.
    destruct (fdiv (exact_int a) (exact_int b)); intros; congruence. }
  by rewrite <- Heq.
Qed.

(** [int(f)] of a positive float drops the fraction of its magnitude. *)
Lemma py_int_fixed (B : Z) (f : float) :
  finite_within false B f -> B <= 1100 ->
  py_int (PFloat f) = Ok (fixed f `div` 2 ^ 1100).
Proof.
  intros (m & e & -> & _ & He) HB. cbn [py_int fixed]. f_equal.
  case_bool_decide as Hsign.
  - rewrite Z.pow_add_r, Z.mul_assoc by lia.
    rewrite Z.div_mul; [done|]. apply Z.pow_nonzero; lia.
  - replace (2 ^ 1100) with (2 ^ (- e) * 2 ^ (e + 1100)).
    + rewrite Z.div_mul_cancel_r; [done | |]; apply Z.pow_nonzero; lia.
    + rewrite <- Z.pow_add_r by lia. f_equal. lia.
Qed.

(** A float within rounding of an integer truncates to that integer or to
    the one below it. *)
Lemma within_rounding_trunc (B : Z) (f : float) (z : Z) :
  finite_within false B f -> B <= 1100 -> within_rounding f z ->
  0 < z < 2 ^ 50 ->
  exists p, py_int (PFloat f) = Ok p /\ (p = z \/ p = z - 1).
Proof.
  intros Hfin HB Hclose Hz. rewrite (py_int_fixed B f Hfin HB).
  eexists. split; [done|]. unfold within_rounding in Hclose.
  assert (HP : 0 < 2 ^ 1100) by (apply Z.pow_pos_nonneg; lia).
  set (P := 2 ^ 1100) in *. clearbody P.
  set (F := fixed f) in *. clearbody F.
  assert (H50 : 0 < 2 ^ 50) by done.
  set (c := 2 ^ 50) in *. clearbody c.
  assert (Hnear : Z.abs (F - z * P) < P) by nia.
  assert (Hlo : z - 1 <= F `div` P) by (apply Z.div_le_lower_bound; lia).
  assert (Hhi : F `div` P < z + 1) by (apply Z.div_lt_upper_bound; lia).
  lia.
Qed.

(** ** Scale factors of a page *)

Lemma finite_within_is_finite (s : bool) (B : Z) (f : float) :
  finite_within s B f -> is_finite f = true /\ is_zero f = false.
Proof. by intros (m & e & -> & _). Qed.

Lemma to_float_regular (x : pynum) :
  regular_number x -> exists f, to_float x = Ok f /\ is_finite f = true.
Proof.
  destruct x as [z|f]; simpl; intros Hx; [|by exists f].
  destruct (decide (z = 0)) as [->|Hz].
  - by exists (S754_zero false).
  - destruct (float_of_int_finite z Hz Hx) as (f & Hf & Hfin).
    exists f. split; [done|].
    exact (proj1 (finite_within_is_finite _ _ _ Hfin)).
Qed.

Lemma py_int_regular (x : pynum) :
  regular_number x -> exists z, py_int x = Ok z.
Proof.
  destruct x as [z|[s|s| |s m e]]; simpl; intros Hx; try done; by eexists.
Qed.

Lemma py_mul_float (x : pynum) (scale : float) :
  py_mul x (PFloat scale)
  = match to_float x with
    | Ok a => Ok (PFloat (fmul a scale))
    | Raise e => Raise e
    end.
Proof. by destruct x. Qed.

Lemma scaled_box_total (scale_w scale_h : float) (region : Rect) :
  regular_region region ->
  exists box, scaled_box scale_w scale_h region = Ok box.
Proof.
  intros (Hl & Ht & Hw & Hh). unfold scaled_box.
  destruct (to_float_regular _ Hl) as (l & El & _).
  destruct (to_float_regular _ Ht) as (t & Et & _).
  destruct (to_float_regular _ Hw) as (w & Ew & _).
  destruct (to_float_regular _ Hh) as (h & Eh & _).
  rewrite !py_mul_float, El, Et, Ew, Eh. by eexists.
Qed.

Lemma region_key_total (i : nat) (region : Rect) :
  regular_region region -> exists key, region_key i region = Ok key.
Proof.
  intros (Hl & Ht & _). unfold region_key.
  destruct (py_int_regular _ Hl) as (l & ->).
  destruct (py_int_regular _ Ht) as (t & ->).
  by eexists.
Qed.

Lemma regions_loop_total (names : gmap pystr pystr) (scale_w scale_h : float)
    (regions : list Rect) :
  Forall regular_region regions ->
  forall (i : nat) (bs : list Rect) (ns : list pystr),
  exists r, regions_loop names scale_w scale_h i regions bs ns = Ok r.
Proof.
  induction 1 as [|region regions Hreg _ IH]; intros i bs ns; simpl.
  - by eexists.
  - destruct (region_key_total i region Hreg) as (key & ->).
    destruct (scaled_box_total scale_w scale_h region Hreg) as (box & ->).
    unfold mbind, result_bind. apply IH.
Qed.

Section PageScales.
Context `{Collaborators}.

Lemma float_of_int_800 : float_of_int canvas_width = Ok float_800.
Proof. reflexivity. Qed.

Lemma float_800_finite : finite_within false 43 float_800.
Proof. exists 7036874417766400%positive, (-43). by repeat split. Qed.

(** The canvas height and the scale factors of a page of positive size,
    as the floating-point operations that produce them. *)
Lemma page_scales_eq (bg_image : image) (w h : Z) :
  size bg_image = (w, h) -> 0 < w < 2 ^ 63 -> 0 < h < 2 ^ 63 ->
  exists hf ch scale_w,
    float_of_int h = Ok hf
    /\ ch = fmul float_800 (fdiv (exact_int h) (exact_int w))
    /\ scale_w = fdiv (exact_int w) (exact_int canvas_width)
    /\ finite_within false 80 hf
    /\ finite_within false 239 ch
    /\ finite_within false 116 scale_w
    /\ finite_within false 435 (fdiv hf ch)
    /\ canvas_height bg_image = Ok (PFloat ch)
    /\ scale_factors (PInt canvas_width) (PFloat ch) (PInt w) (PInt h)
       = Ok (scale_w, fdiv hf ch).
Proof.
  intros Hsize Hw Hh.
  assert (H63 : 2 ^ 63 < 2 ^ 64) by done.
  destruct (py_truediv_int_eq h w) as (Hratio & Hrf); [lia | lia |].
  set (ratio := fdiv (exact_int h) (exact_int w)) in *.
  assert (Hch : finite_within false 239 (fmul float_800 ratio)).
  { apply (fmul_finite false false 43 116);
      [apply float_800_finite | done | lia]. }
  remember (fmul float_800 ratio) as ch eqn:Ech.
  destruct (py_truediv_int_eq w canvas_width) as (Hsw & Hswf); [lia | done |].
  set (scale_w := fdiv (exact_int w) (exact_int canvas_width)) in *.
  destruct (float_of_int_finite h) as (hf & Hhf & Hhff); [lia | lia |].
  replace (h <? 0) with false in Hhff by (symmetry; apply Z.ltb_ge; lia).
  assert (Hsh : finite_within false 435 (fdiv hf ch)).
  { apply (fdiv_finite false false 80 239); [done | done | lia]. }
  exists hf, ch, scale_w. do 7 (split; [done|]). split.
  - unfold canvas_height. rewrite Hsize, Hratio.
    unfold mbind at 1, result_bind. rewrite py_mul_float.
    change (to_float (PInt canvas_width)) with (float_of_int canvas_width).
    rewrite float_of_int_800, <- Ech. unfold mbind at 1, result_bind.
    by destruct Hch as (m & e & -> & _).
  - unfold scale_factors. rewrite Hsw. unfold mbind at 1, result_bind.
    unfold py_truediv, to_float. rewrite Hhf.
    unfold mbind at 1, result_bind. unfold mbind at 1, result_bind.
    by destruct Hch as (m & e & -> & _).
Qed.

(** A page of positive size has a finite, nonzero canvas height and
    finite, nonzero scale factors. *)
Lemma page_scales_finite (bg_image : image) (w h : Z) :
  size bg_image = (w, h) -> 0 < w < 2 ^ 63 -> 0 < h < 2 ^ 63 ->
  exists ch scale_w scale_h,
    canvas_height bg_image = Ok (PFloat ch)
    /\ finite_within false 239 ch
    /\ scale_factors (PInt canvas_width) (PFloat ch) (PInt w) (PInt h)
       = Ok (scale_w, scale_h)
    /\ finite_within false 116 scale_w
    /\ finite_within false 435 scale_h.
Proof.
  intros Hsize Hw Hh.
  destruct (page_scales_eq bg_image w h Hsize Hw Hh)
    as (hf & ch & scale_w & _ & _ & _ & _ & Hch & Hsw & Hsh & Hc & Hsf).
  by exists ch, scale_w, (fdiv hf ch).
Qed.

(** The region covering the canvas of a page is mapped to the page size up
    to rounding, and its extents in whole pixels are the page's or one less. *)
Lemma full_canvas_close (bg_image : image) (w h : Z) :
  size bg_image = (w, h) -> 0 < w < 2 ^ 50 -> 0 < h < 2 ^ 50 ->
  exists ch scale_w scale_h,
    canvas_height bg_image = Ok (PFloat ch)
    /\ scale_factors (PInt canvas_width) (PFloat ch) (PInt w) (PInt h)
       = Ok (scale_w, scale_h)
    /\ within_rounding (fmul float_800 scale_w) w
    /\ within_rounding (fmul ch scale_h) h
    /\ exists pw ph,
         py_int (PFloat (fmul float_800 scale_w)) = Ok pw
         /\ py_int (PFloat (fmul ch scale_h)) = Ok ph
         /\ (pw = w \/ pw = w - 1) /\ (ph = h \/ ph = h - 1).
Proof.
  intros Hsize Hw Hh.
  assert (H50 : 2 ^ 50 < 2 ^ 53) by done.
  assert (H53 : 2 ^ 53 < 2 ^ 63) by done.
  destruct (page_scales_eq bg_image w h Hsize) as
    (hf & ch & scale_w & Hhf & _ & Esw & Hhff & Hch & Hsw & Hsh & Hc & Hsf);
    [lia | lia |].
  destruct (float_of_int_exact h) as (hf' & Hhf' & _ & Hfix); [lia|].
  rewrite Hhf in Hhf'. injection Hhf' as <-.
  set (scale_h := fdiv hf ch) in *.
  assert (HP : 0 < 2 ^ 1100) by (apply Z.pow_pos_nonneg; lia).
  assert (Hwf : finite_within false 239 (fmul float_800 scale_w)).
  { apply (fmul_finite false false 43 116);
      [apply float_800_finite | done | lia]. }
  assert (Hhtf : finite_within false 754 (fmul ch scale_h)).
  { apply (fmul_finite false false 239 435); [done | done | lia]. }
  assert (Hwc : within_rounding (fmul float_800 scale_w) w).
  { pose proof (fdiv_error false false 0 0 (exact_int w)
                  (exact_int canvas_width)) as Hdiv.
    rewrite <- Esw in Hdiv.
    rewrite (fixed_exact_int w), (fixed_exact_int canvas_width) in Hdiv
      by (done || lia).
    pose proof (fmul_error false false 43 116 float_800 scale_w
                  float_800_finite Hsw ltac:(lia)) as Hmul.
    rewrite fixed_float_800 in Hmul.
    unfold within_rounding.
    set (P := 2 ^ 1100) in *. clearbody P.
    set (S := fixed scale_w) in *. clearbody S.
    set (W := fixed (fmul float_800 scale_w)) in *. clearbody W.
    apply (close_trans W (canvas_width * S) (w * P)).
    - apply (cancel_scale _ _ _ _ P HP).
      replace (canvas_width * S * P - w * P * P)
        with (S * (canvas_width * P) - w * P * P) by ring.
      apply Hdiv; [| | lia].
      + destruct w as [|p|p]; try lia. exists p, 0.
        repeat split; try lia. apply Zdigits2_le; lia.
      + by exists 800%positive, 0.
    - apply (cancel_scale _ _ _ _ P HP).
      replace (canvas_width * S * P) with (800 * P * S)
        by (unfold canvas_width; ring).
      exact Hmul. }
  assert (Hhc : within_rounding (fmul ch scale_h) h).
  { pose proof (fdiv_error false false 80 239 hf ch Hhff Hch ltac:(lia))
      as Hdiv.
    fold scale_h in Hdiv. rewrite Hfix in Hdiv.
    pose proof (fmul_error false false 239 435 ch scale_h Hch Hsh ltac:(lia))
      as Hmul.
    unfold within_rounding.
    set (P := 2 ^ 1100) in *. clearbody P.
    set (S := fixed scale_h) in *. clearbody S.
    set (C := fixed ch) in *. clearbody C.
    set (T := fixed (fmul ch scale_h)) in *. clearbody T.
    apply (cancel_scale _ _ _ _ P HP).
    apply (close_trans (T * P) (C * S) (h * P * P)).
    - by replace (C * S) with (S * C) by ring.
    - exact Hmul. }
  exists ch, scale_w, scale_h. do 4 (split; [done|]).
  destruct (within_rounding_trunc 239 _ w Hwf ltac:(lia) Hwc Hw)
    as (pw & ? & ?).
  destruct (within_rounding_trunc 754 _ h Hhtf ltac:(lia) Hhc Hh)
    as (ph & ? & ?).
  by exists pw, ph.
Qed.

Lemma scale_regions_total (bg_image : image) (w h : Z)
    (names : gmap pystr pystr) (regions : list Rect) :
  size bg_image = (w, h) -> 0 < w < 2 ^ 63 -> 0 < h < 2 ^ 63 ->
  Forall regular_region regions ->
  exists boxes fs, scale_regions bg_image names regions = Ok (boxes, fs).
Proof.
  intros Hsize Hw Hh Hreg.
  destruct (page_scales_finite bg_image w h Hsize Hw Hh)
    as (ch & scale_w & scale_h & Hch & _ & Hsf & _).
  unfold scale_regions. rewrite Hch. unfold mbind at 1, result_bind.
  rewrite Hsize, Hsf. unfold mbind at 1, result_bind.
  destruct (regions_loop_total names scale_w scale_h regions Hreg 0%nat [] [])
    as ([boxes fs] & ->).
  by exists boxes, fs.
Qed.

(** A page of zero width stops at the division of the canvas height. *)
Lemma zero_width_raises (bg_image : image) (h : Z)
    (names : gmap pystr pystr) (regions : list Rect) :
  size bg_image = (0, h) ->
  canvas_height bg_image = Raise ZeroDivisionError
  /\ scale_regions bg_image names regions = Raise ZeroDivisionError.
Proof.
  intros Hsize.
  assert (Hch : canvas_height bg_image = Raise ZeroDivisionError).
  { unfold canvas_height. by rewrite Hsize. }
  split; [done|]. unfold scale_regions. by rewrite Hch.
Qed.

(** A page of zero height stops at the division by the canvas height. *)
Lemma zero_height_raises (bg_image : image) (w : Z)
    (names : gmap pystr pystr) (regions : list Rect) :
  size bg_image = (w, 0) -> 0 < w < 2 ^ 63 ->
  canvas_height bg_image = Ok (PFloat (S754_zero false))
  /\ scale_regions bg_image names regions = Raise ZeroDivisionError.
Proof.
  intros Hsize Hw.
  assert (Hch : canvas_height bg_image = Ok (PFloat (S754_zero false))).
  { unfold canvas_height. rewrite Hsize. unfold py_truediv.
    rewrite bool_decide_eq_false_2 by lia.
    destruct w as [|p|p]; try lia. done. }
  split; [done|]. unfold scale_regions. rewrite Hch, Hsize.
  unfold mbind at 1, result_bind. unfold scale_factors.
  assert (H63 : 2 ^ 63 < 2 ^ 64) by done.
  destruct (py_truediv_int_finite w canvas_width) as (scale_w & -> & _);
    [lia | done |].
  done.
Qed.

End PageScales.

(** ** The template store *)

Lemma mapM_names_to_json (l : list (pystr * pystr)) :
  mapM (fun kv : pystr * json =>
          match kv.2 with
          | JStr s => Some (kv.1, s)
          | _ => None
          end)
       ((fun kv : pystr * pystr => (kv.1, JStr kv.2)) <$> l)
  = Some l.
Proof.
  apply mapM_Some_2.
  induction l as [|[k v] l IH]; simpl; by constructor.
Qed.

Lemma names_of_to_json (names : gmap pystr pystr) :
  names_of_json (names_to_json names) = Ok names.
Proof.
  unfold names_of_json, names_to_json.
  by rewrite mapM_names_to_json, list_to_map_to_list.
Qed.

Lemma template_get_regions (t : Template) :
  json_get (template_to_save t) (lit "regions") JNull = Ok (canvas_json t).
Proof. reflexivity. Qed.

Lemma template_get_names (t : Template) :
  json_get (template_to_save t) (lit "field_names") (JObj [])
  = Ok (names_to_json (field_names t)).
Proof. reflexivity. Qed.

(** A zero extent stays zero, or becomes NaN, when it is scaled. *)
Lemma zero_number_scaled (x y : pynum) (scale : float) :
  zero_number x -> py_mul x (PFloat scale) = Ok y ->
  ~ exists z, py_int y = Ok z /\ 0 < z.
Proof.
  intros Hx Hy. rewrite py_mul_float in Hy.
  assert (Hzero : exists s, to_float x = Ok (S754_zero s)).
  { destruct Hx as [->|[s ->]]; by eexists. }
  destruct Hzero as [s Hs]. rewrite Hs in Hy. injection Hy as <-.
  intros (z & Hz & Hpos).
  destruct scale as [s'|s'| |s' m e]; simpl in Hz; try done;
    injection Hz as <-; lia.
Qed.

(** * The claims *)

(** C1 (amended).  When the field names of the regions are pairwise
    distinct and none of them is "Page", an extraction over N >= 1 pages
    returns a table with exactly N rows, in page order, with exactly the
    columns "Page", f1, ..., fk in template region order (one more than
    the number of regions), and row i (1-based) has i in column "Page". *)
Theorem C1_table_shape `{Collaborators}
    (pdf_images : list image) (bg_image : image)
    (names : gmap pystr pystr) (regions : list Rect)
    (language : pystr) (opts : list pystr)
    (boxes : list Rect) (fs : list pystr) :
  scale_regions bg_image names regions = Ok (boxes, fs) ->
  NoDup fs -> lit "Page" ∉ fs -> pdf_images <> [] ->
  exists log df,
    extract_data pdf_images bg_image names regions language opts = (log, Ok df)
    /\ length fs = length regions
    /\ df_columns df = lit "Page" :: fs
    /\ length (df_columns df) = S (length regions)
    /\ length (df_rows df) = length pdf_images
    /\ forall i, (i < length pdf_images)%nat ->
         df_cell df i (lit "Page") = Some (CInt (Z.of_nat i + 1)).
Proof.
  intros Hscale Hnd Hpage Hpages.
  destruct (scale_regions_spec _ _ _ _ _ Hscale)
    as (ch & sw & sh & _ & _ & Hlb & Hlf & _).
  assert (Hcols : df_columns
            (pd_DataFrame (imap (page_row boxes fs language opts) pdf_images))
          = lit "Page" :: fs).
  { apply pd_DataFrame_columns.
    - destruct pdf_images; [done | by rewrite imap_cons].
    - by apply NoDup_cons.
    - apply Forall_forall. intros rec Hrec.
      apply list_elem_of_lookup in Hrec as [i Hi].
      rewrite list_lookup_imap in Hi.
      destruct (pdf_images !! i) as [page|]; [|done].
      injection Hi as <-. apply page_row_keys; [by apply NoDup_cons | lia]. }
  eexists _, _. split; [by apply extract_data_run|].
  split; [done|]. split; [done|]. split; [rewrite Hcols; simpl; lia|].
  split; [by rewrite pd_DataFrame_rows_length, length_imap|].
  intros i Hi.
  destruct (lookup_lt_is_Some_2 pdf_images i Hi) as [page Hp].
  rewrite (pd_DataFrame_cell _ i (page_row boxes fs language opts i page)).
  - rewrite page_row_page by (done || lia). done.
  - by rewrite list_lookup_imap, Hp.
  - rewrite Hcols. left.
Qed.

(** Three pages and the regions "Name", "Date", "Amount". *)
Lemma C1_table_shape_witness :
  exists log df,
    @extract_data toy_collaborators sample_pages
      first_page sample_names sample_regions (lit "English") [] = (log, Ok df)
    /\ length [lit "Name"; lit "Date"; lit "Amount"] = length sample_regions
    /\ df_columns df = [lit "Page"; lit "Name"; lit "Date"; lit "Amount"]
    /\ length (df_columns df) = 4%nat
    /\ length (df_rows df) = 3%nat
    /\ forall i, (i < 3)%nat ->
         df_cell df i (lit "Page") = Some (CInt (Z.of_nat i + 1)).
Proof.
  eapply (@C1_table_shape toy_collaborators sample_pages _ sample_names
            sample_regions (lit "English") [] _
            [lit "Name"; lit "Date"; lit "Amount"]).
  - vm_compute. reflexivity.
  - apply (bool_decide_unpack _). vm_compute. exact I.
  - apply (bool_decide_unpack _). vm_compute. exact I.
  - discriminate.
Defined.

(** C1 as stated fails when a region is named "Page": its text replaces
    the page number and no second column appears. *)
Lemma C1_page_name_collision :
  let page := sample_page [(50, "INV-1")]%string in
  let region := mkRect (PInt 10) (PInt 20) (PInt 100) (PInt 50) in
  let names : gmap pystr pystr := {[ lit "region_0_10_20" := lit "Page" ]} in
  exists boxes log df,
    @scale_regions toy_collaborators page names [region]
      = Ok (boxes, [lit "Page"])
    /\ NoDup [lit "Page"]
    /\ @extract_data toy_collaborators [page] page names [region]
         (lit "English") [] = (log, Ok df)
    /\ df_columns df = [lit "Page"]
    /\ df_columns df <> lit "Page" :: [lit "Page"]
    /\ df_cell df 0 (lit "Page") = Some (CStr (lit "INV-1"))
    /\ df_cell df 0 (lit "Page") <> Some (CInt 1).
Proof.
  intros page region names.
  eexists _, _, _. split; [vm_compute; reflexivity|].
  split; [apply NoDup_singleton|].
  split; [vm_compute; reflexivity|].
  split; [reflexivity|]. split; [discriminate|].
  split; [vm_compute; reflexivity | discriminate].
Qed.

(** C2 (amended).  The scale factors are the binary64 quotients
    scale_w = source_width / canvas_width and
    scale_h = source_height / canvas_height, and every region
    (l, t, w, h) is mapped to (l*scale_w, t*scale_h, w*scale_w, h*scale_h),
    each product rounded to binary64.  For the script's canvas (width 800,
    height 800 * (page height / page width)) and every page of positive
    size, the region (0, 0, canvas_width, canvas_height) is mapped to the
    origin (0, 0) exactly and to the extent
    (canvas_width*scale_w, canvas_height*scale_h) as rounded products.
    The boxes the extraction hands to [perform_ocr] are the regions mapped
    in this way.  For a page below 2^50 pixels a side that extent is the
    page size up to a relative error of 2^-50, and truncated to whole
    pixels it is the page's width and height or one pixel less. *)
Theorem C2_coordinate_mapper `{Collaborators} :
  (forall (cw ch sw sh : pynum) (scale_w scale_h : float) (region box : Rect),
     scale_factors cw ch sw sh = Ok (scale_w, scale_h) ->
     scaled_box scale_w scale_h region = Ok box ->
     py_truediv sw cw = Ok scale_w /\ py_truediv sh ch = Ok scale_h
     /\ py_mul (rect_left region) (PFloat scale_w) = Ok (rect_left box)
     /\ py_mul (rect_top region) (PFloat scale_h) = Ok (rect_top box)
     /\ py_mul (rect_width region) (PFloat scale_w) = Ok (rect_width box)
     /\ py_mul (rect_height region) (PFloat scale_h) = Ok (rect_height box))
  /\ (forall (bg_image : image) (w h : Z),
        size bg_image = (w, h) -> 0 < w < 2 ^ 63 -> 0 < h < 2 ^ 63 ->
        exists ch scale_w scale_h,
          canvas_height bg_image = Ok (PFloat ch)
          /\ scale_factors (PInt canvas_width) (PFloat ch) (PInt w) (PInt h)
             = Ok (scale_w, scale_h)
          /\ scaled_box scale_w scale_h
               (mkRect (PInt 0) (PInt 0) (PInt canvas_width) (PFloat ch))
             = Ok (mkRect (PFloat (S754_zero false)) (PFloat (S754_zero false))
                          (PFloat (fmul float_800 scale_w))
                          (PFloat (fmul ch scale_h))))
  /\ (forall (bg_image : image) (names : gmap pystr pystr)
             (regions boxes : list Rect) (fs : list pystr),
        scale_regions bg_image names regions = Ok (boxes, fs) ->
        exists ch scale_w scale_h,
          canvas_height bg_image = Ok ch
          /\ scale_factors (PInt canvas_width) ch
               (PInt (size bg_image).1) (PInt (size bg_image).2)
             = Ok (scale_w, scale_h)
          /\ length boxes = length regions
          /\ forall k region,
               regions !! k = Some region ->
               exists box,
                 boxes !! k = Some box
                 /\ scaled_box scale_w scale_h region = Ok box)
  /\ (forall (bg_image : image) (w h : Z),
        size bg_image = (w, h) -> 0 < w < 2 ^ 50 -> 0 < h < 2 ^ 50 ->
        exists ch scale_w scale_h,
          canvas_height bg_image = Ok (PFloat ch)
          /\ scale_factors (PInt canvas_width) (PFloat ch) (PInt w) (PInt h)
             = Ok (scale_w, scale_h)
          /\ within_rounding (fmul float_800 scale_w) w
          /\ within_rounding (fmul ch scale_h) h
          /\ exists pw ph,
               py_int (PFloat (fmul float_800 scale_w)) = Ok pw
               /\ py_int (PFloat (fmul ch scale_h)) = Ok ph
               /\ (pw = w \/ pw = w - 1) /\ (ph = h \/ ph = h - 1)).
Proof.
  split; [|split; [|split]]; [| | |exact full_canvas_close].
  - intros cw ch sw sh scale_w scale_h region box Hsf Hbox.
    unfold scale_factors in Hsf.
    destruct (py_truediv sw cw) as [a|e]; [|done].
    unfold mbind at 1, result_bind in Hsf.
    destruct (py_truediv sh ch) as [b|e]; [|done].
    unfold mbind, result_bind in Hsf. injection Hsf as -> ->.
    split; [done|]. split; [done|].
    unfold scaled_box in Hbox.
    destruct (py_mul (rect_left region) _) as [l|e]; [|done].
    unfold mbind at 1, result_bind in Hbox.
    destruct (py_mul (rect_top region) _) as [t|e]; [|done].
    unfold mbind at 1, result_bind in Hbox.
    destruct (py_mul (rect_width region) _) as [w|e]; [|done].
    unfold mbind at 1, result_bind in Hbox.
    destruct (py_mul (rect_height region) _) as [h|e]; [|done].
    unfold mbind, result_bind in Hbox. by injection Hbox as <-.
  - intros bg_image w h Hsize Hw Hh.
    destruct (page_scales_finite bg_image w h Hsize Hw Hh)
      as (ch & scale_w & scale_h & Hch & _ & Hsf & Hswf & Hshf).
    exists ch, scale_w, scale_h. split; [done|]. split; [done|].
    destruct Hswf as (mw & ew & -> & _). destruct Hshf as (mh & eh & -> & _).
    unfold scaled_box. rewrite !py_mul_float.
    cbn [rect_left rect_top rect_width rect_height].
    change (to_float (PInt 0)) with (Ok (S754_zero false)).
    change (to_float (PInt canvas_width)) with (float_of_int canvas_width).
    rewrite float_of_int_800. reflexivity.
  - intros bg_image names regions boxes fs Hscale.
    destruct (scale_regions_spec _ _ _ _ _ Hscale)
      as (ch & scale_w & scale_h & Hch & Hsf & Hlb & _ & Hall).
    exists ch, scale_w, scale_h. split; [done|]. split; [done|].
    split; [done|]. intros k region Hk.
    destruct (Hall k region Hk) as (key & box & _ & Hbox & _ & Hb).
    by exists box.
Qed.

(** An A4 page at 150 dpi, 1240 x 1754 pixels. *)
Lemma C2_coordinate_mapper_witness :
  @size toy_collaborators first_page = (1240, 1754)
  /\ exists ch scale_w scale_h,
       @canvas_height toy_collaborators first_page = Ok (PFloat ch)
       /\ scale_factors (PInt canvas_width) (PFloat ch) (PInt 1240) (PInt 1754)
          = Ok (scale_w, scale_h)
       /\ scaled_box scale_w scale_h
            (mkRect (PInt 0) (PInt 0) (PInt canvas_width) (PFloat ch))
          = Ok (mkRect (PFloat (S754_zero false)) (PFloat (S754_zero false))
                       (PFloat (fmul float_800 scale_w))
                       (PFloat (fmul ch scale_h))).
Proof.
  split; [reflexivity|].
  apply (proj1 (proj2 (@C2_coordinate_mapper toy_collaborators))
           first_page 1240 1754);
    [reflexivity | lia | lia].
Defined.

(** On that page the region covering the canvas is mapped to the page
    size exactly. *)
Lemma full_canvas_exact_a4 :
  exists ch scale_w scale_h,
    @canvas_height toy_collaborators first_page = Ok (PFloat ch)
    /\ scale_factors (PInt canvas_width) (PFloat ch) (PInt 1240) (PInt 1754)
       = Ok (scale_w, scale_h)
    /\ float_of_int 1240 = Ok (fmul float_800 scale_w)
    /\ float_of_int 1754 = Ok (fmul ch scale_h).
Proof.
  eexists _, _, _.
  split; [vm_compute; reflexivity|]. split; [vm_compute; reflexivity|].
  split; vm_compute; reflexivity.
Qed.

(** C2 as stated fails in binary64: on a 1000 x 1602 page the canvas is
    800 x 1281.6000000000001 and the region covering it is mapped to the
    height 1601.9999999999998, not 1602, which [int] truncates to 1601;
    likewise a canvas width of 800 is mapped to 802.9999999999999 for a
    source width of 803. *)
Lemma C2_full_canvas_inexact :
  let ch := S754_finite false 5636536408630887 (-42) in
  let scale_w := S754_finite false 5629499534213120 (-52) in
  let scale_h := S754_finite false 5629499534213119 (-52) in
  let scale_803 := S754_finite false 4520488125973135 (-52) in
  @canvas_height toy_collaborators odd_page = Ok (PFloat ch)
  /\ scale_factors (PInt canvas_width) (PFloat ch) (PInt 1000) (PInt 1602)
     = Ok (scale_w, scale_h)
  /\ scaled_box scale_w scale_h
       (mkRect (PInt 0) (PInt 0) (PInt canvas_width) (PFloat ch))
     = Ok (mkRect (PFloat (S754_zero false)) (PFloat (S754_zero false))
                  (PFloat (S754_finite false 8796093022208000 (-43)))
                  (PFloat (S754_finite false 7045670510788607 (-42))))
  /\ float_of_int 1000 = Ok (S754_finite false 8796093022208000 (-43))
  /\ float_of_int 1602 = Ok (S754_finite false 7045670510788608 (-42))
  /\ S754_finite false 7045670510788607 (-42)
     <> S754_finite false 7045670510788608 (-42)
  /\ py_int (PFloat (S754_finite false 7045670510788607 (-42))) = Ok 1601
  /\ py_truediv (PInt 803) (PInt canvas_width) = Ok scale_803
  /\ py_mul (PInt canvas_width) (PFloat scale_803)
     = Ok (PFloat (S754_finite false 7063262696833023 (-43)))
  /\ float_of_int 803 = Ok (S754_finite false 7063262696833024 (-43)).
Proof.
  intros ch scale_w scale_h scale_803.
  split; [vm_compute; reflexivity|].
  split; [vm_compute; reflexivity|].
  split; [vm_compute; reflexivity|].
  split; [vm_compute; reflexivity|].
  split; [vm_compute; reflexivity|].
  split; [discriminate|].
  split; [vm_compute; reflexivity|].
  split; [vm_compute; reflexivity|].
  split; vm_compute; reflexivity.
Qed.



(** C4.  A bounding box whose width or height is zero, or not positive
    once truncated to an integer, gives the empty string on every page,
    for every language and preprocessing option set; nothing is cropped
    or recognized for it and [perform_ocr] returns normally.  A region
    drawn with zero width or height therefore has the empty string in its
    column on every page. *)
Theorem C4_degenerate_region `{Collaborators} :
  (forall (img : image) (b : Rect) (language : pystr) (opts : list pystr),
     degenerate b ->
     (perform_ocr img b language opts).2 = []
     /\ Forall is_warning (perform_ocr img b language opts).1
     /\ ~ Exists is_recognition (perform_ocr img b language opts).1)
  /\ (forall (pdf_images : list image) (bg_image : image)
             (names : gmap pystr pystr) (regions : list Rect)
             (language : pystr) (opts : list pystr)
             (boxes : list Rect) (fs : list pystr)
             (i j : nat) (page : image) (region : Rect) (f : pystr),
        scale_regions bg_image names regions = Ok (boxes, fs) ->
        NoDup (lit "Page" :: fs) ->
        pdf_images !! i = Some page -> regions !! j = Some region ->
        fs !! j = Some f ->
        zero_extent region ->
        exists log df,
          extract_data pdf_images bg_image names regions language opts
            = (log, Ok df)
          /\ df_cell df i f = Some (CStr [])).
Proof.
  assert (Hno_rec : forall img b language opts,
            Forall is_warning (perform_ocr img b language opts).1 ->
            ~ Exists is_recognition (perform_ocr img b language opts).1).
  { intros img b language opts Hlog Hex. rewrite Forall_forall in Hlog.
    apply Exists_exists in Hex as (ev & Hev & Hrec).
    specialize (Hlog ev Hev). by destruct ev. }
  split.
  - intros img b language opts Hdeg.
    destruct (perform_ocr_skipped img b language opts) as [Htext Hlog].
    { intros (w & h & Hw & Hh & Hw0 & Hh0).
      destruct Hdeg as [(z & Hz & Hz0)|(z & Hz & Hz0)].
      - rewrite Hw in Hz. injection Hz as ->. lia.
      - rewrite Hh in Hz. injection Hz as ->. lia. }
    split; [done|]. split; [done | by apply Hno_rec].
  - intros pdf_images bg_image names regions language opts boxes fs
      i j page region f Hscale Hnd Hpage Hregion Hf Hzero.
    destruct (scale_regions_spec _ _ _ _ _ Hscale)
      as (ch & sw & sh & _ & _ & _ & _ & Hall).
    destruct (Hall j region Hregion) as (key & box & _ & Hbox & _ & Hj).
    eexists _, _. split; [by apply extract_data_run|].
    rewrite (extract_data_cell _ bg_image names regions _ _ _ _ _ j page box)
      by done.
    destruct (perform_ocr_skipped page box language opts) as [-> _]; [|done].
    intros (w & h & Hw & Hh & Hw0 & Hh0).
    unfold scaled_box in Hbox.
    destruct (py_mul (rect_left region) _) as [l'|e]; [|done].
    unfold mbind at 1, result_bind in Hbox.
    destruct (py_mul (rect_top region) _) as [t'|e]; [|done].
    unfold mbind at 1, result_bind in Hbox.
    destruct (py_mul (rect_width region) _) as [w'|e] eqn:Ew; [|done].
    unfold mbind at 1, result_bind in Hbox.
    destruct (py_mul (rect_height region) _) as [h'|e] eqn:Eh; [|done].
    unfold mbind, result_bind in Hbox. injection Hbox as <-.
    simpl in Hw, Hh.
    destruct Hzero as [Hz|Hz].
    + apply (zero_number_scaled _ _ _ Hz Ew). by exists w.
    + apply (zero_number_scaled _ _ _ Hz Eh). by exists h.
Qed.

(** A box of width 0.0. *)
Lemma C4_degenerate_region_witness :
  let b := mkRect (PInt 15) (PInt 30) (PFloat (S754_zero false)) (PInt 77) in
  degenerate b
  /\ (@perform_ocr toy_collaborators first_page b (lit "Hindi") [lit "invert"]).2
     = []
  /\ Forall is_warning
       (@perform_ocr toy_collaborators first_page b (lit "Hindi") [lit "invert"]).1
  /\ ~ Exists is_recognition
         (@perform_ocr toy_collaborators first_page b (lit "Hindi") [lit "invert"]).1.
Proof.
  intros b.
  assert (Hdeg : degenerate b).
  { left. exists 0. split; [reflexivity | lia]. }
  split; [exact Hdeg|].
  exact (proj1 (@C4_degenerate_region toy_collaborators) first_page b
           (lit "Hindi") [lit "invert"] Hdeg).
Defined.

(** C5.  The language labels map to the recognizer's codes as
    "English" to "eng", "Hindi" to "hin", "English + Hindi" to "eng+hin",
    and the language selector returns no label outside these three. *)
Theorem C5_language_mapping :
  lang_code (lit "English") = lit "eng"
  /\ lang_code (lit "Hindi") = lit "hin"
  /\ lang_code (lit "English + Hindi") = lit "eng+hin"
  /\ language_options = [lit "English"; lit "Hindi"; lit "English + Hindi"]
  /\ forall chosen : nat,
       selectbox language_options chosen = lit "English"
       \/ selectbox language_options chosen = lit "Hindi"
       \/ selectbox language_options chosen = lit "English + Hindi".
Proof.
  split; [by vm_compute|]. split; [by vm_compute|]. split; [by vm_compute|].
  split; [done|].
  intros [|[|[|chosen]]]; vm_compute; auto.
Qed.

(** C6 (amended).  The value stored for a recognized text is that text
    with its leading and trailing whitespace removed and then every
    newline character replaced by one space, character for character (a
    run of n newlines becomes n spaces): the stored value contains no
    newline and neither starts nor ends with whitespace. *)
Theorem C6_stored_text `{Collaborators}
    (img : image) (b : Rect) (language : pystr) (opts : list pystr)
    (l t w h : Z) (cropped processed : image) (text : pystr) :
  py_int (rect_left b) = Ok l -> py_int (rect_top b) = Ok t ->
  py_int (rect_width b) = Ok w -> py_int (rect_height b) = Ok h ->
  0 < w -> 0 < h ->
  crop img (l, t, l + w, t + h) = Ok cropped ->
  preprocess_image cropped opts = Ok processed ->
  image_to_string processed (lang_code language) = Ok text ->
  let stored := (perform_ocr img b language opts).2 in
  (exists ws1 ws2, text = ws1 ++ strip text ++ ws2
                   /\ all_space ws1 /\ all_space ws2)
  /\ (forall c, head (strip text) = Some c -> isspace c = false)
  /\ (forall c, last (strip text) = Some c -> isspace c = false)
  /\ length stored = length (strip text)
  /\ (forall i, (stored !! i)
                = (fun c => if (c =? NEWLINE)%N then SPACE else c)
                  <$> (strip text !! i))
  /\ (NEWLINE ∉ stored)
  /\ (forall c, head stored = Some c -> isspace c = false)
  /\ (forall c, last stored = Some c -> isspace c = false).
Proof.
  intros Hl Ht Hw Hh Hw0 Hh0 Hcrop Hpre Hocr stored. subst stored.
  rewrite (perform_ocr_recognized _ _ _ _ l t w h cropped processed text)
    by done.
  simpl. split; [apply strip_split|].
  split; [apply strip_head|].
  split; [apply (rstrip_last (lstrip text))|].
  split; [unfold clean_text, replace_char; by rewrite length_fmap|].
  split; [intros i; apply replace_char_lookup|].
  split; [apply clean_text_no_newline|].
  split; [apply clean_text_head | apply clean_text_last].
Qed.

(** Two lines with blanks around them. *)
Lemma C6_stored_text_witness :
  let page := sample_page [(50, "  Ann"); (60, "Lee ")]%string in
  let b := mkRect (PInt 0) (PInt 0) (PInt 100) (PInt 100) in
  let stored := (@perform_ocr toy_collaborators page b (lit "English") []).2 in
  stored = lit "Ann Lee"
  /\ (NEWLINE ∉ stored)
  /\ (forall c, head stored = Some c -> isspace c = false)
  /\ (forall c, last stored = Some c -> isspace c = false).
Proof.
  intros page b stored.
  split; [vm_compute; reflexivity|].
  edestruct (@C6_stored_text toy_collaborators page b (lit "English") []
               0 0 100 100)
    as (_ & _ & _ & _ & _ & Hnl & Hhead & Hlast);
    try (vm_compute; reflexivity).
  exact (conj Hnl (conj Hhead Hlast)).
Defined.

(** C6 as stated fails on consecutive newlines: each becomes a space of
    its own, so the stored value has two adjacent spaces that the
    recognized text did not have. *)
Lemma C6_newline_run_kept :
  let page := sample_page [(50, "a"); (55, ""); (60, "b")]%string in
  let b := mkRect (PInt 0) (PInt 0) (PInt 100) (PInt 100) in
  let text := lit "a" ++ [NEWLINE; NEWLINE] ++ lit "b" ++ [NEWLINE] in
  @image_to_string toy_collaborators (toy_crop page (0, 0, 100, 100))
    (lit "eng") = Ok text
  /\ (@perform_ocr toy_collaborators page b (lit "English") []).2 = lit "a  b"
  /\ has_consecutive SPACE text = false
  /\ has_consecutive SPACE (lit "a  b") = true
  /\ lit "a  b" <> lit "a b".
Proof.
  intros page b text.
  split; [vm_compute; reflexivity|].
  split; [vm_compute; reflexivity|].
  split; [vm_compute; reflexivity|].
  split; [vm_compute; reflexivity | discriminate].
Qed.



(** C8.  Loading what "Save as Template" wrote restores the template:
    the saved document has the two top-level keys "regions" and
    "field_names", and reading them back gives the same region geometry
    and the same mapping from region key to field name; so does loading
    the downloaded text, when the json module reads back the document it
    wrote. *)
Theorem C8_template_round_trip (t : Template) :
  (exists regions names,
     template_to_save t
     = JObj [(lit "regions", regions); (lit "field_names", names)])
  /\ read_template (template_to_save t) = Ok t
  /\ (forall codec : JsonCodec,
        json_load (json_dumps (template_to_save t) 2)
          = Ok (template_to_save t) ->
        load_template (save_template t) = Ok t).
Proof.
  assert (Hread : read_template (template_to_save t) = Ok t).
  { unfold read_template.
    rewrite template_get_regions. unfold mbind at 1, result_bind.
    rewrite template_get_names. unfold mbind at 1, result_bind.
    rewrite names_of_to_json. by destruct t. }
  split; [by eexists _, _|]. split; [done|].
  intros codec Hcodec. unfold load_template, save_template.
  by rewrite Hcodec.
Qed.

(** A template with one region and three names. *)
Lemma C8_template_round_trip_witness :
  read_template (template_to_save sample_template) = Ok sample_template
  /\ @json_load (toy_codec (template_to_save sample_template))
       (@json_dumps (toy_codec (template_to_save sample_template))
          (template_to_save sample_template) 2)
     = Ok (template_to_save sample_template)
  /\ @load_template (toy_codec (template_to_save sample_template))
       (@save_template (toy_codec (template_to_save sample_template))
          sample_template)
     = Ok sample_template.
Proof.
  split; [exact (proj1 (proj2 (C8_template_round_trip sample_template)))|].
  split; [reflexivity|].
  exact (proj2 (proj2 (C8_template_round_trip sample_template))
           (toy_codec (template_to_save sample_template)) eq_refl).
Defined.

(** C9 (amended).  The canvas width is the constant 800, so it is always
    positive.  For a page whose width and height are positive and regions
    with finite coordinates the coordinate mapper succeeds.  For a page of
    zero width the division by the page width raises ZeroDivisionError
    when the canvas height is computed, and the extraction raises it too;
    for a page of zero height the division by the canvas height raises
    ZeroDivisionError. *)
Theorem C9_mapper_outcomes `{Collaborators} (bg_image : image) (w h : Z)
    (names : gmap pystr pystr) (regions : list Rect) :
  size bg_image = (w, h) ->
  0 < canvas_width
  /\ (0 < w < 2 ^ 63 -> 0 < h < 2 ^ 63 -> Forall regular_region regions ->
      exists boxes fs, scale_regions bg_image names regions = Ok (boxes, fs))
  /\ (w = 0 ->
      canvas_height bg_image = Raise ZeroDivisionError
      /\ scale_regions bg_image names regions = Raise ZeroDivisionError
      /\ forall pdf_images language opts,
           extract_data pdf_images bg_image names regions language opts
           = ([], Raise ZeroDivisionError))
  /\ (0 < w < 2 ^ 63 -> h = 0 ->
      scale_regions bg_image names regions = Raise ZeroDivisionError).
Proof.
  intros Hsize. split; [done|]. split; [|split].
  - intros Hw Hh Hreg. by apply (scale_regions_total bg_image w h).
  - intros ->.
    destruct (zero_width_raises bg_image h names regions Hsize) as [Hch Hsr].
    split; [done|]. split; [done|].
    intros pdf_images language opts. unfold extract_data. by rewrite Hsr.
  - intros Hw ->.
    by destruct (zero_height_raises bg_image w names regions Hsize Hw).
Qed.

(** An A4 page at 150 dpi and three regions. *)
Lemma C9_mapper_outcomes_witness :
  @size toy_collaborators first_page = (1240, 1754)
  /\ exists boxes fs,
       @scale_regions toy_collaborators first_page sample_names sample_regions
       = Ok (boxes, fs).
Proof.
  split; [reflexivity|].
  apply (proj1 (proj2 (@C9_mapper_outcomes toy_collaborators first_page
                         1240 1754 sample_names sample_regions eq_refl)));
    [lia | lia |].
  repeat constructor.
Defined.

(** C9 as stated fails: a page of zero width ends in the ZeroDivisionError
    of the unguarded division, not in a DegenerateGeometry error, and a
    page of zero height fails although the canvas width is positive. *)
Lemma C9_zero_width_division_error :
  @size toy_collaborators zero_width_page = (0, 1754)
  /\ @canvas_height toy_collaborators zero_width_page = Raise ZeroDivisionError
  /\ @scale_regions toy_collaborators zero_width_page sample_names
       sample_regions
     = Raise ZeroDivisionError
  /\ @extract_data toy_collaborators [zero_width_page] zero_width_page
       sample_names sample_regions (lit "English") []
     = ([], Raise ZeroDivisionError)
  /\ ZeroDivisionError <> DegenerateGeometry
  /\ 0 < canvas_width
  /\ @size toy_collaborators zero_height_page = (1240, 0)
  /\ @scale_regions toy_collaborators zero_height_page sample_names
       sample_regions
     = Raise ZeroDivisionError.
Proof.
  split; [reflexivity|]. split; [reflexivity|].
  split; [vm_compute; reflexivity|]. split; [vm_compute; reflexivity|].
  split; [discriminate|]. split; [reflexivity|]. split; [reflexivity|].
  vm_compute. reflexivity.
Qed.



(** * Further properties of the script *)

(** ** Text cleanup *)

Lemma lstrip_all_space (s : pystr) : all_space s -> lstrip s = [].
Proof.
  induction 1 as [|c s Hc _ IH]; simpl; [done|]. by rewrite Hc.
Qed.

Lemma visible_all_space (ws : pystr) : all_space ws -> visible ws = [].
Proof.
  unfold visible. induction 1 as [|c s Hc _ IH]; [done|].
  rewrite filter_cons_False; [done|]. by rewrite Hc.
Qed.

Lemma visible_replace_newline (s : pystr) :
  visible (replace_char NEWLINE SPACE s) = visible s.
Proof.
  unfold visible, replace_char. induction s as [|c s IH]; [done|].
  rewrite fmap_cons. destruct (c =? NEWLINE)%N eqn:Hc.
  - apply N.eqb_eq in Hc as ->.
    rewrite !filter_cons_False by done. exact IH.
  - destruct (isspace c) eqn:Hs.
    + rewrite !filter_cons_False by (by rewrite Hs). exact IH.
    + rewrite !filter_cons_True by done. by rewrite IH.
Qed.

(** X1.  The stored text is empty exactly when the recognized text holds
    nothing but whitespace. *)
Theorem clean_text_empty_iff (text : pystr) :
  clean_text text = [] <-> all_space text.
Proof.
  unfold clean_text, replace_char. split.
  - intros Hnil%fmap_nil_inv.
    destruct (strip_split text) as (ws1 & ws2 & Hs & H1 & H2).
    rewrite Hs, Hnil. simpl. unfold all_space in *. by apply Forall_app.
  - intros Hall. unfold strip. by rewrite lstrip_all_space.
Qed.

(** X2.  Cleaning never drops, changes or reorders a character that is not
    whitespace, and never makes the text longer. *)
Theorem clean_text_keeps_visible (text : pystr) :
  visible (clean_text text) = visible text
  /\ (length (clean_text text) <= length text)%nat.
Proof.
  destruct (strip_split text) as (ws1 & ws2 & Hs & H1 & H2).
  unfold clean_text. split.
  - rewrite visible_replace_newline. rewrite Hs at 2.
    unfold visible. rewrite !filter_app.
    fold (visible ws1) (visible ws2) (visible (strip text)).
    rewrite (visible_all_space ws1 H1), (visible_all_space ws2 H2).
    by rewrite app_nil_r.
  - unfold replace_char. rewrite length_fmap.
    rewrite Hs at 2. rewrite !length_app. lia.
Qed.

(** ** Preprocessing and recognition of one region *)

Lemma py_int_cases (x : pynum) :
  (exists z, py_int x = Ok z /\ ~ not_finite_number x)
  \/ (not_finite_number x
      /\ (py_int x = Raise ValueError \/ py_int x = Raise OverflowError)).
Proof.
  destruct x as [z|[s|s| |s m e]]; simpl.
  - left. eexists. split; [done|]. by intros [?|[? ?]].
  - left. eexists. split; [done|]. by intros [?|[? ?]].
  - right. split; [right; by exists s | by right].
  - right. split; [by left | by left].
  - left. eexists. split; [done|]. by intros [?|[? ?]].
Qed.

Section EngineMore.
Context `{Collaborators}.

(** X3.  [preprocess_image] looks only at whether 'grayscale' and 'invert'
    occur among the options: their order, repetitions and any other entry
    make no difference, and with neither the image comes back untouched. *)
Theorem preprocess_image_by_membership (img : image) (o1 o2 : list pystr) :
  (lit "grayscale" ∈ o1 <-> lit "grayscale" ∈ o2) ->
  (lit "invert" ∈ o1 <-> lit "invert" ∈ o2) ->
  preprocess_image img o1 = preprocess_image img o2
  /\ (lit "grayscale" ∉ o1 -> lit "invert" ∉ o1 ->
      preprocess_image img o2 = Ok img).
Proof.
  intros Hg Hi. unfold preprocess_image.
  rewrite (bool_decide_ext _ _ Hg), (bool_decide_ext _ _ Hi).
  split; [done|]. intros Hng Hni.
  rewrite !bool_decide_eq_false_2 by tauto. done.
Qed.

(** X4.  With 'invert' selected, the image handed to [ImageOps.invert] is
    of mode 'L' or comes out of [ImageOps.grayscale]; without it the result
    is the image itself or its grayscale conversion. *)
Theorem invert_only_after_grayscale (img out : image) (opts : list pystr) :
  preprocess_image img opts = Ok out ->
  (lit "invert" ∈ opts ->
   exists g, invert g = Ok out
             /\ (mode g = lit "L" \/ exists g0, grayscale g0 = Ok g))
  /\ (lit "invert" ∉ opts -> out = img \/ grayscale img = Ok out).
Proof.
  unfold preprocess_image. intros Hrun. split.
  - intros Hinv. rewrite (bool_decide_eq_true_2 _ Hinv) in Hrun.
    case_bool_decide as Hgray.
    + destruct (grayscale img) as [g1|e] eqn:Hg1; [|done].
      unfold mbind at 1, result_bind in Hrun.
      case_bool_decide as Hmode.
      * destruct (grayscale g1) as [g2|e] eqn:Hg2; [|done].
        exists g2. split; [exact Hrun|]. right. by exists g1.
      * exists g1. split; [exact Hrun|]. right. by exists img.
    + unfold mbind at 1, result_bind in Hrun.
      case_bool_decide as Hmode.
      * destruct (grayscale img) as [g1|e] eqn:Hg1; [|done].
        exists g1. split; [exact Hrun|]. right. by exists img.
      * exists img. split; [exact Hrun|]. left.
        by destruct (decide (mode img = lit "L")).
  - intros Hinv. rewrite (bool_decide_eq_false_2 _ Hinv) in Hrun.
    case_bool_decide as Hgray.
    + destruct (grayscale img) as [g1|e] eqn:Hg1; [|done].
      right. exact Hrun.
    + left. by injection Hrun.
Qed.

(** Every run of [perform_ocr] has one of five shapes. *)
Lemma perform_ocr_shapes (img : image) (b : Rect) (language : pystr)
    (opts : list pystr) :
  perform_ocr img b language opts = ([], [])
  \/ (exists e, perform_ocr img b language opts = ([EvWarning e], []))
  \/ (exists box e,
        perform_ocr img b language opts = ([EvCrop box; EvWarning e], []))
  \/ (exists box e,
        perform_ocr img b language opts
        = ([EvCrop box; EvRecognize (lang_code language); EvWarning e], []))
  \/ (exists l t w h cropped processed text,
        py_int (rect_left b) = Ok l /\ py_int (rect_top b) = Ok t
        /\ py_int (rect_width b) = Ok w /\ py_int (rect_height b) = Ok h
        /\ 0 < w /\ 0 < h
        /\ crop img (l, t, l + w, t + h) = Ok cropped
        /\ preprocess_image cropped opts = Ok processed
        /\ image_to_string processed (lang_code language) = Ok text
        /\ perform_ocr img b language opts
           = ([EvCrop (l, t, l + w, t + h); EvRecognize (lang_code language)],
              clean_text text)).
Proof.
  unfold perform_ocr, perform_ocr_try.
  destruct (py_int (rect_left b)) as [l|e] eqn:Hl; eff_simpl;
    [|right; left; by eexists].
  destruct (py_int (rect_top b)) as [t|e] eqn:Ht; eff_simpl;
    [|right; left; by eexists].
  destruct (py_int (rect_width b)) as [w|e] eqn:Hw; eff_simpl;
    [|right; left; by eexists].
  destruct (py_int (rect_height b)) as [h|e] eqn:Hh; eff_simpl;
    [|right; left; by eexists].
  destruct (bool_decide (0 < w) && bool_decide (0 < h)) eqn:Hguard;
    eff_simpl; [|by left].
  apply andb_true_iff in Hguard as [Hw0 Hh0].
  apply bool_decide_eq_true in Hw0, Hh0.
  destruct (crop img (l, t, l + w, t + h)) as [cropped|e] eqn:Hcrop; eff_simpl;
    [|right; right; left; by eexists _, _].
  destruct (preprocess_image cropped opts) as [processed|e] eqn:Hpre;
    eff_simpl; [|right; right; left; by eexists _, _].
  destruct (image_to_string processed (lang_code language)) as [text|e]
    eqn:Hocr; eff_simpl.
  - do 4 right. exists l, t, w, h, cropped, processed, text.
    by repeat split.
  - do 3 right. left. by eexists _, _.
Qed.

(** X5.  A run of [perform_ocr] crops at most once, recognizes at most once
    and only after the crop, and warns at most once; a text that is not
    empty comes from exactly one crop and one recognition with no warning,
    and a warning always comes with the empty string. *)
Theorem perform_ocr_log_shape (img : image) (b : Rect) (language : pystr)
    (opts : list pystr) :
  let log := (perform_ocr img b language opts).1 in
  let text := (perform_ocr img b language opts).2 in
  (exists calls warned,
     log = calls ++ warned
     /\ (calls = []
         \/ exists box,
              calls = [EvCrop box]
              \/ calls = [EvCrop box; EvRecognize (lang_code language)])
     /\ (warned = [] \/ exists e, warned = [EvWarning e]))
  /\ (text <> [] ->
      exists l t w h,
        py_int (rect_left b) = Ok l /\ py_int (rect_top b) = Ok t
        /\ py_int (rect_width b) = Ok w /\ py_int (rect_height b) = Ok h
        /\ 0 < w /\ 0 < h
        /\ log = [EvCrop (l, t, l + w, t + h);
                  EvRecognize (lang_code language)])
  /\ (forall e, EvWarning e ∈ log -> text = []).
Proof.
  intros log text. subst log text.
  destruct (perform_ocr_shapes img b language opts)
    as [Hr|[(e & Hr)|[(box & e & Hr)|[(box & e & Hr)|
        (l & t & w & h & cropped & processed & text & Hl & Ht & Hw & Hh
         & Hw0 & Hh0 & _ & _ & _ & Hr)]]]]; rewrite Hr; simpl.
  - split; [|done]. exists [], [].
    split; [done|]. split; by left.
  - split; [|done]. exists [], [EvWarning e].
    split; [done|]. split; [by left | right; by exists e].
  - split; [|done]. exists [EvCrop box], [EvWarning e].
    split; [done|]. split; [right; exists box; by left | right; by exists e].
  - split; [|done].
    exists [EvCrop box; EvRecognize (lang_code language)], [EvWarning e].
    split; [done|]. split; [right; exists box; by right | right; by exists e].
  - split.
    { exists [EvCrop (l, t, l + w, t + h); EvRecognize (lang_code language)],
        [].
      split; [done|]. split; [right; eexists; by right | by left]. }
    split; [intros _; by exists l, t, w, h|].
    intros e He. inversion He as [|? ? ? He2]; subst.
    inversion He2 as [|? ? ? He3]; subst. inversion He3.
Qed.

(** X6.  When preprocessing the crop raises, [perform_ocr] warns, returns
    the empty string and never calls the recognizer. *)
Theorem perform_ocr_preprocess_raises (img : image) (b : Rect)
    (language : pystr) (opts : list pystr) (l t w h : Z) (cropped : image)
    (e : exn) :
  py_int (rect_left b) = Ok l -> py_int (rect_top b) = Ok t ->
  py_int (rect_width b) = Ok w -> py_int (rect_height b) = Ok h ->
  0 < w -> 0 < h ->
  crop img (l, t, l + w, t + h) = Ok cropped ->
  preprocess_image cropped opts = Raise e ->
  perform_ocr img b language opts
  = ([EvCrop (l, t, l + w, t + h); EvWarning e], []).
Proof.
  intros Hl Ht Hw Hh Hw0 Hh0 Hcrop Hpre.
  unfold perform_ocr, perform_ocr_try.
  rewrite Hl, Ht, Hw, Hh. eff_simpl.
  rewrite !bool_decide_eq_true_2 by done. eff_simpl.
  rewrite Hcrop. eff_simpl. by rewrite Hpre.
Qed.

(** X7.  A box with a coordinate that is NaN or infinite is given up before
    anything is cropped: [int()] raises ValueError or OverflowError, which
    becomes the warning, and the result is the empty string. *)
Theorem perform_ocr_not_finite (img : image) (b : Rect) (language : pystr)
    (opts : list pystr) :
  not_finite_number (rect_left b) \/ not_finite_number (rect_top b)
  \/ not_finite_number (rect_width b) \/ not_finite_number (rect_height b) ->
  exists e,
    (e = ValueError \/ e = OverflowError)
    /\ perform_ocr img b language opts = ([EvWarning e], []).
Proof.
  intros Hbad. unfold perform_ocr, perform_ocr_try.
  destruct (py_int_cases (rect_left b)) as [(l & -> & Hl)|(_ & [-> | ->])];
    eff_simpl; [|by exists ValueError; auto|by exists OverflowError; auto].
  destruct (py_int_cases (rect_top b)) as [(t & -> & Ht)|(_ & [-> | ->])];
    eff_simpl; [|by exists ValueError; auto|by exists OverflowError; auto].
  destruct (py_int_cases (rect_width b)) as [(w & -> & Hw)|(_ & [-> | ->])];
    eff_simpl; [|by exists ValueError; auto|by exists OverflowError; auto].
  destruct (py_int_cases (rect_height b)) as [(h & -> & Hh)|(_ & [-> | ->])];
    eff_simpl; [|by exists ValueError; auto|by exists OverflowError; auto].
  tauto.
Qed.

End EngineMore.

(** The two options in another order, with a repetition and with an entry
    the function does not know. *)
Lemma preprocess_image_by_membership_witness :
  let o1 := [lit "invert"; lit "grayscale"; lit "sharpen"] in
  let o2 := [lit "grayscale"; lit "invert"; lit "invert"] in
  (lit "grayscale" ∈ o1 <-> lit "grayscale" ∈ o2)
  /\ (lit "invert" ∈ o1 <-> lit "invert" ∈ o2)
  /\ @preprocess_image toy_collaborators first_page o1
     = @preprocess_image toy_collaborators first_page o2.
Proof.
  intros o1 o2.
  assert (Hg : lit "grayscale" ∈ o1 <-> lit "grayscale" ∈ o2).
  { split; intros _; compute_done. }
  assert (Hi : lit "invert" ∈ o1 <-> lit "invert" ∈ o2).
  { split; intros _; compute_done. }
  split; [exact Hg|]. split; [exact Hi|].
  exact (proj1 (@preprocess_image_by_membership toy_collaborators
                  first_page o1 o2 Hg Hi)).
Defined.

(** Inverting a colour page of the double. *)
Lemma invert_only_after_grayscale_witness :
  @preprocess_image toy_collaborators first_page [lit "invert"]
  = Ok first_page
  /\ exists g,
       @invert toy_collaborators g = Ok first_page
       /\ (@mode toy_collaborators g = lit "L"
           \/ exists g0, @grayscale toy_collaborators g0 = Ok g).
Proof.
  assert (Hrun : @preprocess_image toy_collaborators first_page
                   [lit "invert"] = Ok first_page) by reflexivity.
  split; [exact Hrun|].
  apply (proj1 (@invert_only_after_grayscale toy_collaborators first_page
                  first_page [lit "invert"] Hrun)).
  compute_done.
Defined.

(** A crop whose grayscale conversion fails. *)
Lemma perform_ocr_preprocess_raises_witness :
  @preprocess_image no_grayscale_collaborators
    (toy_crop first_page (0, 0, 10, 10)) [lit "grayscale"]
  = Raise ValueError
  /\ @perform_ocr no_grayscale_collaborators first_page small_box
       (lit "English") [lit "grayscale"]
     = ([EvCrop (0, 0, 10, 10); EvWarning ValueError], []).
Proof.
  split; [reflexivity|].
  apply (@perform_ocr_preprocess_raises no_grayscale_collaborators
           first_page small_box (lit "English") [lit "grayscale"]
           0 0 10 10 (toy_crop first_page (0, 0, 10, 10)) ValueError);
    reflexivity || lia.
Defined.

(** A box whose left is NaN. *)
Lemma perform_ocr_not_finite_witness :
  not_finite_number (rect_left nan_box)
  /\ exists e,
       (e = ValueError \/ e = OverflowError)
       /\ @perform_ocr toy_collaborators first_page nan_box
            (lit "English") []
          = ([EvWarning e], []).
Proof.
  assert (Hnan : not_finite_number (rect_left nan_box)) by (left; reflexivity).
  split; [exact Hnan|].
  apply (@perform_ocr_not_finite toy_collaborators). left. exact Hnan.
Defined.

(** ** Region keys and the naming form *)

Lemma str_of_int_no_underscore (z : Z) : UNDERSCORE ∉ str_of_int z.
Proof.
  unfold str_of_int, pretty, pretty_Z.
  destruct z as [|p|p].
  - change (lit "0") with [48%N]. by intros ?%list_elem_of_singleton.
  - unfold pretty, pretty_positive, pretty, pretty_N.
    rewrite decide_False by done.
    apply pretty_N_go_no_underscore. apply not_elem_of_nil.
  - change (lit ("-" +:+ pretty p)) with (45%N :: lit (pretty p)).
    apply not_elem_of_cons. split; [done|].
    unfold pretty, pretty_positive, pretty, pretty_N.
    rewrite decide_False by done.
    apply pretty_N_go_no_underscore. apply not_elem_of_nil.
Qed.

(** X8.  Two regions share a key exactly when they have the same position
    in the list and the same truncated left and top; the width and the
    height of a region play no part in its key. *)
Theorem region_key_inj (i j : nat) (r1 r2 : Rect) (k1 k2 : pystr) :
  region_key i r1 = Ok k1 -> region_key j r2 = Ok k2 ->
  k1 = k2
  <-> i = j /\ py_int (rect_left r1) = py_int (rect_left r2)
      /\ py_int (rect_top r1) = py_int (rect_top r2).
Proof.
  unfold region_key. intros H1 H2.
  destruct (py_int (rect_left r1)) as [l1|]; [|done].
  destruct (py_int (rect_top r1)) as [t1|]; [|done].
  destruct (py_int (rect_left r2)) as [l2|]; [|done].
  destruct (py_int (rect_top r2)) as [t2|]; [|done].
  unfold mbind, result_bind in *.
  assert (E1 : k1 = lit "region_" ++ str_of_int (Z.of_nat i) ++ lit "_"
                      ++ str_of_int l1 ++ lit "_" ++ str_of_int t1)
    by congruence.
  assert (E2 : k2 = lit "region_" ++ str_of_int (Z.of_nat j) ++ lit "_"
                      ++ str_of_int l2 ++ lit "_" ++ str_of_int t2)
    by congruence.
  clear H1 H2. subst k1 k2. split.
  - intros Heq. apply app_inv_head in Heq.
    pose proof Heq as Hi.
    apply (app_separator UNDERSCORE) in Hi;
      auto using str_of_int_no_underscore.
    rewrite Hi in Heq. apply app_inv_head in Heq.
    apply (app_inv_head (lit "_")) in Heq.
    pose proof Heq as Hl.
    apply (app_separator UNDERSCORE) in Hl;
      auto using str_of_int_no_underscore.
    rewrite Hl in Heq. apply app_inv_head in Heq.
    apply (app_inv_head (lit "_")) in Heq.
    apply str_of_int_inj in Hi, Hl, Heq.
    split; [lia|]. by subst.
  - intros (-> & [= ->] & [= ->]). done.
Qed.

(** A region at left 2.5 and one at left 2 of another size, both first in
    the list. *)
Lemma region_key_inj_witness :
  let r1 := mkRect (PFloat (S754_finite false 5 (-1))) (PInt 90)
              (PInt 200) (PInt 40) in
  let r2 := mkRect (PInt 2) (PInt 90) (PInt 5) (PInt 5) in
  region_key 0 r1 = Ok (lit "region_0_2_90")
  /\ region_key 0 r2 = Ok (lit "region_0_2_90")
  /\ (lit "region_0_2_90" = lit "region_0_2_90"
      <-> 0%nat = 0%nat
          /\ py_int (rect_left r1) = py_int (rect_left r2)
          /\ py_int (rect_top r1) = py_int (rect_top r2)).
Proof.
  intros r1 r2.
  assert (H1 : region_key 0 r1 = Ok (lit "region_0_2_90"))
    by (vm_compute; reflexivity).
  assert (H2 : region_key 0 r2 = Ok (lit "region_0_2_90"))
    by (vm_compute; reflexivity).
  split; [exact H1|]. split; [exact H2|].
  exact (region_key_inj 0 0 r1 r2 _ _ H1 H2).
Defined.

Section NamingFormMore.
Context `{Collaborators}.

(** What one pass over the naming form shows and stores. *)
Lemma field_names_form_full (regions : list Rect) :
  forall (i : nat) (names names' : gmap pystr pystr) (shown : list pystr),
  field_names_form i regions names = Ok (names', shown) ->
  length shown = length regions
  /\ (forall k region,
        regions !! k = Some region ->
        exists key name,
          region_key (i + k) region = Ok key
          /\ shown !! k = Some name
          /\ name = default (default_field_name (i + k)) (names !! key)
          /\ names' !! key
             = Some (text_input (name_label (i + k)) name
                       (name_widget_key (i + k))))
  /\ (forall key,
        (forall k region, regions !! k = Some region ->
                          region_key (i + k) region <> Ok key) ->
        names' !! key = names !! key)
  /\ (forall key, is_Some (names !! key) -> is_Some (names' !! key)).
Proof.
  induction regions as [|region0 regions IH];
    intros i names names' shown Hrun.
  - injection Hrun as <- <-. by repeat split.
  - simpl in Hrun.
    destruct (region_key i region0) as [key0|e] eqn:Hkey0; [|done].
    unfold mbind at 1, result_bind in Hrun.
    destruct (field_names_form (S i) regions _) as [[names1 shown1]|e]
      eqn:Hrest; [|done].
    unfold mbind, result_bind in Hrun. injection Hrun as <- <-.
    destruct (IH _ _ _ _ Hrest) as (Hlen & Hreg & Hother & Hdom).
    assert (Hlater : forall k region, regions !! k = Some region ->
                       region_key (S i + k) region <> Ok key0).
    { intros k region Hk Hkey.
      pose proof (region_key_index _ _ _ _ _ Hkey0 Hkey). lia. }
    split; [simpl; by rewrite Hlen|]. split; [|split].
    + intros [|k] region Hk; simpl in Hk.
      * injection Hk as <-. rewrite Nat.add_0_r.
        eexists key0, _. split; [done|]. split; [done|]. split; [done|].
        rewrite (Hother key0 Hlater). by rewrite lookup_insert_eq.
      * destruct (Hreg k region Hk) as (key & name & Hkey & Hs & Hname & Hn).
        rewrite Nat.add_succ_r. exists key, name.
        split; [done|]. split; [done|]. split; [|done].
        rewrite Hname. rewrite lookup_insert_ne; [done|].
        intros ->. by apply (Hlater k region Hk).
    + intros key Hkey. rewrite Hother.
      * apply lookup_insert_ne. intros ->.
        apply (Hkey 0%nat region0 eq_refl). by rewrite Nat.add_0_r.
      * intros k region Hk. rewrite Nat.add_succ_l, <- Nat.add_succ_r.
        by apply (Hkey (S k)).
    + intros key Hkey. apply Hdom. rewrite lookup_insert_is_Some.
      destruct (decide (key0 = key)); auto.
Qed.

(** X9.  After the naming form has run, the column names of an extraction
    are the texts of the form's inputs, region by region: the fallback
    [Field_<i+1>] of the extract block is never used. *)
Theorem extraction_uses_entered_names (bg_image : image)
    (regions boxes : list Rect) (names names' : gmap pystr pystr)
    (shown fs : list pystr) :
  field_names_form 0 regions names = Ok (names', shown) ->
  scale_regions bg_image names' regions = Ok (boxes, fs) ->
  length fs = length shown
  /\ forall k name,
       shown !! k = Some name ->
       fs !! k
       = Some (text_input (name_label k) name (name_widget_key k)).
Proof.
  intros Hform Hscale.
  destruct (field_names_form_full _ _ _ _ _ Hform) as (Hlen & Hreg & _).
  destruct (scale_regions_spec _ _ _ _ _ Hscale)
    as (ch & scale_w & scale_h & _ & _ & _ & Hlf & Hall).
  split; [congruence|]. intros k name Hk.
  destruct (lookup_lt_is_Some_2 regions k) as [region Hregion].
  { rewrite <- Hlen. by eapply lookup_lt_Some. }
  destruct (Hreg k region Hregion) as (key & name' & Hkey & Hs & _ & Hn).
  destruct (Hall k region Hregion) as (key' & box & Hkey' & _ & Hf & _).
  simpl in Hkey. rewrite Hkey in Hkey'. injection Hkey' as <-.
  rewrite Hs in Hk. injection Hk as <-.
  rewrite Hf. simpl in Hn. by rewrite Hn.
Qed.

(** X10.  The naming form only adds and overwrites: every key stored
    before is still stored afterwards, and an entry whose key belongs to no
    region of the current drawing keeps its name. *)
Theorem field_names_form_keeps (regions : list Rect)
    (names names' : gmap pystr pystr) (shown : list pystr) :
  field_names_form 0 regions names = Ok (names', shown) ->
  (forall key, is_Some (names !! key) -> is_Some (names' !! key))
  /\ (forall key,
        (forall k region, regions !! k = Some region ->
                          region_key k region <> Ok key) ->
        names' !! key = names !! key).
Proof.
  intros Hform.
  destruct (field_names_form_full _ _ _ _ _ Hform) as (_ & _ & Hother & Hdom).
  split; [done|]. intros key Hkey. by apply Hother.
Qed.

Lemma field_names_form_again (regions : list Rect) :
  (forall label value key, text_input label value key = value) ->
  forall (i : nat) (names names' : gmap pystr pystr) (shown : list pystr),
  field_names_form i regions names = Ok (names', shown) ->
  field_names_form i regions names' = Ok (names', shown).
Proof.
  intros Hecho.
  induction regions as [|region0 regions IH];
    intros i names names' shown Hrun.
  - by injection Hrun as <- <-.
  - destruct (field_names_form_full _ _ _ _ _ Hrun) as (_ & Hreg & _).
    destruct (Hreg 0%nat region0 eq_refl)
      as (key & name & Hkey & Hs & Hname & Hn).
    rewrite Nat.add_0_r in Hkey, Hn, Hname. rewrite Hecho in Hn.
    simpl in Hrun. simpl. rewrite Hkey in Hrun |- *.
    unfold mbind at 1, result_bind in Hrun. unfold mbind at 1, result_bind.
    rewrite Hecho in Hrun |- *.
    destruct (field_names_form (S i) regions _) as [[names1 shown1]|e]
      eqn:Hrest; [|done].
    unfold mbind, result_bind in Hrun. injection Hrun as <- <-.
    rewrite Hn. simpl. rewrite insert_id by done.
    rewrite (IH _ _ _ _ Hrest). simpl in Hs. injection Hs as ->. done.
Qed.

(** X11.  The names entered in the form are the values it shows on its
    next run; when the inputs are left as shown, running the form again
    changes nothing. *)
Theorem field_names_form_next_run (regions : list Rect)
    (names names' : gmap pystr pystr) (shown : list pystr) :
  field_names_form 0 regions names = Ok (names', shown) ->
  (forall names'' shown' k name,
     field_names_form 0 regions names' = Ok (names'', shown') ->
     shown !! k = Some name ->
     shown' !! k
     = Some (text_input (name_label k) name (name_widget_key k)))
  /\ ((forall label value key, text_input label value key = value) ->
      field_names_form 0 regions names' = Ok (names', shown)).
Proof.
  intros Hform. split;
    [|intros Hecho; by apply (field_names_form_again _ Hecho _ names)].
  intros names'' shown' k name Hnext Hk.
  destruct (field_names_form_full _ _ _ _ _ Hform) as (Hlen & Hreg & _).
  destruct (field_names_form_full _ _ _ _ _ Hnext) as (_ & Hreg' & _).
  destruct (lookup_lt_is_Some_2 regions k) as [region Hregion].
  { rewrite <- Hlen. by eapply lookup_lt_Some. }
  destruct (Hreg k region Hregion) as (key & name1 & Hkey & Hs & _ & Hn).
  destruct (Hreg' k region Hregion) as (key' & name2 & Hkey' & Hs' & Hn2 & _).
  rewrite Hkey in Hkey'. injection Hkey' as <-.
  rewrite Hs in Hk. injection Hk as <-.
  rewrite Hs', Hn2. simpl in Hn. by rewrite Hn.
Qed.

End NamingFormMore.

(** One region, no stored name, inputs left as shown. *)
Lemma extraction_uses_entered_names_witness :
  exists names' shown boxes fs,
    @field_names_form toy_collaborators 0 one_region ∅ = Ok (names', shown)
    /\ @scale_regions toy_collaborators first_page names' one_region
       = Ok (boxes, fs)
    /\ length fs = length shown
    /\ forall k name,
         shown !! k = Some name ->
         fs !! k
         = Some (@text_input toy_collaborators (name_label k) name
                   (name_widget_key k)).
Proof.
  destruct (@field_names_form_total toy_collaborators one_region 0 ∅)
    as (names' & shown & Hform).
  { intros [|k] r Hr; [|done]. injection Hr as <-.
    eexists. vm_compute. reflexivity. }
  destruct (@scale_regions toy_collaborators first_page names' one_region)
    as [[boxes fs]|e] eqn:Hscale.
  - exists names', shown, boxes, fs. split; [exact Hform|].
    split; [exact Hscale|].
    exact (@extraction_uses_entered_names toy_collaborators first_page
             one_region boxes ∅ names' shown fs Hform Hscale).
  - exfalso.
    destruct (@scale_regions_total toy_collaborators first_page 1240 1754
                names' one_region) as (boxes & fs & Hok);
      [reflexivity | lia | lia | | congruence].
    repeat constructor; simpl; lia.
Defined.

Lemma field_names_form_keeps_witness :
  exists names' shown,
    @field_names_form toy_collaborators 0 one_region sample_names
    = Ok (names', shown)
    /\ (forall key, is_Some (sample_names !! key) -> is_Some (names' !! key))
    /\ (forall key,
          (forall k region, one_region !! k = Some region ->
                            region_key k region <> Ok key) ->
          names' !! key = sample_names !! key).
Proof.
  destruct (@field_names_form_total toy_collaborators one_region 0
              sample_names) as (names' & shown & Hform).
  { intros [|k] r Hr; [|done]. injection Hr as <-.
    eexists. vm_compute. reflexivity. }
  exists names', shown. split; [exact Hform|].
  exact (@field_names_form_keeps toy_collaborators one_region sample_names
           names' shown Hform).
Defined.

Lemma field_names_form_next_run_witness :
  exists names' shown,
    @field_names_form toy_collaborators 0 one_region ∅ = Ok (names', shown)
    /\ @field_names_form toy_collaborators 0 one_region names'
       = Ok (names', shown).
Proof.
  destruct (@field_names_form_total toy_collaborators one_region 0 ∅)
    as (names' & shown & Hform).
  { intros [|k] r Hr; [|done]. injection Hr as <-.
    eexists. vm_compute. reflexivity. }
  exists names', shown. split; [exact Hform|].
  apply (proj2 (@field_names_form_next_run toy_collaborators one_region ∅
                  names' shown Hform)).
  reflexivity.
Defined.

(** ** Rows and columns of the extracted table *)

Lemma odict_keys_set {V} (d : odict V) (k : pystr) (v : V) :
  odict_keys (odict_set d k v)
  = if bool_decide (k ∈ odict_keys d) then odict_keys d
    else odict_keys d ++ [k].
Proof.
  case_bool_decide as Hk; [|by apply odict_keys_set_new].
  unfold odict_keys in *. induction d as [|[k0 v0] d IH]; simpl in *.
  - by apply elem_of_nil in Hk.
  - destruct (decide (k0 = k)) as [->|Hne].
    + by rewrite bool_decide_eq_true_2.
    + rewrite (bool_decide_eq_false_2 _ Hne). simpl. f_equal.
      apply IH. apply elem_of_cons in Hk as [?|?]; [congruence | done].
Qed.

Lemma odict_get_keys {V} (d : odict V) (k : pystr) :
  k ∈ odict_keys d -> exists v, odict_get d k = Some v /\ (k, v) ∈ d.
Proof.
  unfold odict_keys. induction d as [|[k0 v0] d IH]; simpl; intros Hk.
  - by apply elem_of_nil in Hk.
  - destruct (decide (k0 = k)) as [->|Hne].
    + rewrite bool_decide_eq_true_2 by done. exists v0. split; [done | left].
    + rewrite (bool_decide_eq_false_2 _ Hne).
      apply elem_of_cons in Hk as [?|Hk]; [congruence|].
      destruct (IH Hk) as (v & Hv & Hin). exists v. split; [done | by right].
Qed.

Lemma odict_set_values {V} (P : V -> Prop) (d : odict V) (k : pystr) (v : V) :
  P v -> Forall (fun kv => P kv.2) d ->
  Forall (fun kv => P kv.2) (odict_set d k v).
Proof.
  intros Hv. induction 1 as [|[k0 v0] d H0 Hd IH]; simpl.
  - by repeat constructor.
  - case_bool_decide; constructor; done.
Qed.

Lemma add_keys_NoDup (K cols : list pystr) :
  NoDup cols ->
  NoDup (fold_left (fun acc k => if bool_decide (k ∈ acc) then acc
                                 else acc ++ [k]) K cols).
Proof.
  revert cols. induction K as [|k K IH]; intros cols Hnd; simpl; [done|].
  apply IH. case_bool_decide as Hk; [done|].
  apply NoDup_app. split; [done|]. split; [|apply NoDup_singleton].
  intros x Hx ->%list_elem_of_singleton. done.
Qed.

Lemma add_keys_elem (K cols : list pystr) (c : pystr) :
  c ∈ fold_left (fun acc k => if bool_decide (k ∈ acc) then acc
                              else acc ++ [k]) K cols
  <-> c ∈ cols \/ c ∈ K.
Proof.
  revert cols. induction K as [|k K IH]; intros cols; simpl.
  - split; [by left | intros [?|?%elem_of_nil]; done].
  - rewrite IH. case_bool_decide as Hk.
    + rewrite elem_of_cons. split; [tauto|].
      intros [?|[->|?]]; tauto.
    + rewrite elem_of_app, list_elem_of_singleton, elem_of_cons. tauto.
Qed.

Section TableFacts.
Context `{Collaborators}.
Variables (language : pystr) (opts : list pystr).

Lemma write_fields_keys_all (page : image) (fields : list (pystr * Rect)) :
  forall d : odict cell,
  odict_keys (write_fields page language opts fields d)
  = fold_left (fun acc k => if bool_decide (k ∈ acc) then acc else acc ++ [k])
              (fields.*1) (odict_keys d).
Proof.
  induction fields as [|[f b] fields IH]; intros d; [done|].
  rewrite write_fields_cons, IH. simpl. by rewrite odict_keys_set.
Qed.

(** The last region written under a name decides the cell. *)
Lemma write_fields_get_last (page : image) (fields : list (pystr * Rect)) :
  forall (d : odict cell) (j : nat) (f : pystr) (b : Rect),
  fields !! j = Some (f, b) ->
  (forall j', (j < j')%nat -> fields.*1 !! j' <> Some f) ->
  odict_get (write_fields page language opts fields d) f
  = Some (CStr (perform_ocr page b language opts).2).
Proof.
  induction fields as [|[f0 b0] fields IH]; intros d j f b Hj Hlast; [done|].
  rewrite write_fields_cons. destruct j as [|j]; simpl in Hj.
  - injection Hj as -> ->. rewrite write_fields_get_other.
    + apply odict_get_set_eq.
    + intros [j' Hj']%list_elem_of_lookup.
      by apply (Hlast (S j')); [lia|].
  - apply (IH _ j); [done|]. intros j' Hlt. apply (Hlast (S j')). lia.
Qed.

Lemma write_fields_values (page : image) (fields : list (pystr * Rect)) :
  forall d : odict cell,
  Forall (fun kv => kv.2 <> CNaN) d ->
  Forall (fun kv => kv.2 <> CNaN)
         (write_fields page language opts fields d).
Proof.
  induction fields as [|[f b] fields IH]; intros d Hd; [done|].
  rewrite write_fields_cons. apply IH.
  by apply (odict_set_values (fun v => v <> CNaN)).
Qed.

Lemma page_row_keys_all (boxes : list Rect) (fs : list pystr) (i : nat)
    (page : image) :
  length fs = length boxes ->
  odict_keys (page_row boxes fs language opts i page)
  = first_occurrences (lit "Page" :: fs).
Proof.
  intros Hlen. unfold page_row. rewrite write_fields_keys_all.
  by rewrite fst_zip by lia.
Qed.

Lemma table_columns (boxes : list Rect) (fs : list pystr)
    (pdf_images : list image) :
  length fs = length boxes -> pdf_images <> [] ->
  df_columns (pd_DataFrame (imap (page_row boxes fs language opts) pdf_images))
  = first_occurrences (lit "Page" :: fs).
Proof.
  intros Hlen Hne. apply pd_DataFrame_columns.
  - destruct pdf_images; [done | by rewrite imap_cons].
  - apply add_keys_NoDup. constructor.
  - apply Forall_forall. intros rec Hrec.
    apply list_elem_of_lookup in Hrec as [i' Hi'].
    rewrite list_lookup_imap in Hi'.
    destruct (pdf_images !! i') as [page'|]; [|done].
    injection Hi' as <-. by apply page_row_keys_all.
Qed.

End TableFacts.

Section ExtractionMore.
Context `{Collaborators}.

(** X12.  Without any condition on the field names, the columns of the
    table are "Page" and the field names, each once, at its first
    occurrence; where several regions carry one name (or a region is named
    "Page"), the cell holds the text of the last of them. *)
Theorem extract_data_last_name_wins (pdf_images : list image)
    (bg_image : image) (names : gmap pystr pystr) (regions : list Rect)
    (language : pystr) (opts : list pystr)
    (boxes : list Rect) (fs : list pystr) :
  scale_regions bg_image names regions = Ok (boxes, fs) ->
  pdf_images <> [] ->
  exists log df,
    extract_data pdf_images bg_image names regions language opts
    = (log, Ok df)
    /\ df_columns df = first_occurrences (lit "Page" :: fs)
    /\ NoDup (df_columns df)
    /\ (forall c, c ∈ df_columns df <-> c = lit "Page" \/ c ∈ fs)
    /\ forall i page j f box,
         pdf_images !! i = Some page ->
         fs !! j = Some f -> boxes !! j = Some box ->
         (forall j', (j < j')%nat -> fs !! j' <> Some f) ->
         df_cell df i f = Some (CStr (perform_ocr page box language opts).2).
Proof.
  intros Hscale Hne.
  destruct (scale_regions_spec _ _ _ _ _ Hscale)
    as (ch & sw & sh & _ & _ & Hlb & Hlf & _).
  assert (Hlen : length fs = length boxes) by lia.
  eexists _, _. split; [by apply extract_data_run|].
  rewrite (table_columns language opts boxes fs pdf_images Hlen Hne).
  split; [done|]. split; [apply add_keys_NoDup; constructor|].
  assert (Hcols : forall c, c ∈ first_occurrences (lit "Page" :: fs)
                            <-> c = lit "Page" \/ c ∈ fs).
  { intros c. unfold first_occurrences. rewrite add_keys_elem.
    rewrite elem_of_cons. split; [intros [?%elem_of_nil|?]; done | by right]. }
  split; [done|].
  intros i page j f box Hpage Hf Hbox Hlast.
  rewrite (pd_DataFrame_cell _ i (page_row boxes fs language opts i page)).
  - unfold page_row.
    rewrite (write_fields_get_last language opts _ _ _ j f box).
    + done.
    + rewrite lookup_zip_with, Hf. simpl. by rewrite Hbox.
    + rewrite fst_zip by lia. done.
  - by rewrite list_lookup_imap, Hpage.
  - rewrite (table_columns language opts boxes fs pdf_images Hlen Hne).
    apply Hcols. right. by apply list_elem_of_lookup_2 with j.
Qed.

(** X13.  The extracted table is rectangular and complete: every row has
    one cell per column, and no cell of any page is missing. *)
Theorem extract_data_no_missing_cell (pdf_images : list image)
    (bg_image : image) (names : gmap pystr pystr) (regions : list Rect)
    (language : pystr) (opts : list pystr)
    (boxes : list Rect) (fs : list pystr) :
  scale_regions bg_image names regions = Ok (boxes, fs) ->
  pdf_images <> [] ->
  exists log df,
    extract_data pdf_images bg_image names regions language opts
    = (log, Ok df)
    /\ Forall (fun row => length row = length (df_columns df)) (df_rows df)
    /\ forall i c,
         (i < length pdf_images)%nat -> c ∈ df_columns df ->
         exists v, df_cell df i c = Some v /\ v <> CNaN.
Proof.
  intros Hscale Hne.
  destruct (scale_regions_spec _ _ _ _ _ Hscale)
    as (ch & sw & sh & _ & _ & Hlb & Hlf & _).
  assert (Hlen : length fs = length boxes) by lia.
  eexists _, _. split; [by apply extract_data_run|]. split.
  - apply Forall_forall. intros row Hrow. simpl in Hrow.
    apply list_elem_of_fmap in Hrow as (rec & -> & _).
    by rewrite length_fmap.
  - intros i c Hi Hc.
    destruct (lookup_lt_is_Some_2 pdf_images i Hi) as [page Hpage].
    rewrite (pd_DataFrame_cell _ i (page_row boxes fs language opts i page));
      [| by rewrite list_lookup_imap, Hpage | done].
    rewrite (table_columns language opts boxes fs pdf_images Hlen Hne) in Hc.
    rewrite <- (page_row_keys_all language opts boxes fs i page Hlen) in Hc.
    destruct (odict_get_keys _ _ Hc) as (v & -> & Hin).
    exists v. split; [done|].
    assert (Hvals : Forall (fun kv => kv.2 <> CNaN)
                      (page_row boxes fs language opts i page)).
    { apply write_fields_values. by repeat constructor. }
    rewrite Forall_forall in Hvals. exact (Hvals _ Hin).
Qed.

Lemma crop_events_perform_ocr (img : image) (b : Rect) (language : pystr)
    (opts : list pystr) :
  crop_events (perform_ocr img b language opts).1
  = from_option (fun box => [box]) [] (crop_box b).
Proof.
  unfold perform_ocr, perform_ocr_try, crop_box.
  destruct (py_int (rect_left b)) as [l|e]; eff_simpl; [|done].
  destruct (py_int (rect_top b)) as [t|e]; eff_simpl; [|done].
  destruct (py_int (rect_width b)) as [w|e]; eff_simpl; [|done].
  destruct (py_int (rect_height b)) as [h|e]; eff_simpl; [|done].
  destruct (bool_decide (0 < w) && bool_decide (0 < h)); eff_simpl; [|done].
  destruct (crop img (l, t, l + w, t + h)) as [cropped|e]; eff_simpl; [|done].
  destruct (preprocess_image cropped opts) as [processed|e]; eff_simpl;
    [|done].
  by destruct (image_to_string processed (lang_code language)).
Qed.

Lemma crop_events_page_log (boxes : list Rect) (language : pystr)
    (opts : list pystr) (page : image) :
  crop_events (page_log boxes language opts page) = omap crop_box boxes.
Proof.
  unfold page_log, crop_events.
  induction boxes as [|box boxes IH]; [done|].
  rewrite fmap_cons, concat_cons, omap_app, IH.
  fold (crop_events (perform_ocr page box language opts).1).
  rewrite crop_events_perform_ocr. simpl. by destruct (crop_box box).
Qed.

(** X14.  The extraction crops the same pixel boxes, in the same order,
    out of every page: the boxes depend on the regions and on the page
    shown on the canvas, never on the page being read. *)
Theorem extract_data_same_crops (pdf_images : list image)
    (bg_image : image) (names : gmap pystr pystr) (regions : list Rect)
    (language : pystr) (opts : list pystr)
    (boxes : list Rect) (fs : list pystr) :
  scale_regions bg_image names regions = Ok (boxes, fs) ->
  crop_events
    (extract_data pdf_images bg_image names regions language opts).1
  = concat (replicate (length pdf_images) (omap crop_box boxes)).
Proof.
  intros Hscale. rewrite (extract_data_run _ _ _ _ _ _ _ _ Hscale).
  simpl. unfold pass_log.
  induction pdf_images as [|page pages IH]; [done|].
  rewrite fmap_cons, concat_cons. unfold crop_events in *.
  rewrite omap_app, IH. simpl. f_equal.
  apply crop_events_page_log.
Qed.

Lemma region_key_not_finite (i : nat) (region : Rect) :
  not_finite_number (rect_left region) \/ not_finite_number (rect_top region) ->
  exists e, region_key i region = Raise e.
Proof.
  intros Hbad. unfold region_key.
  destruct (py_int_cases (rect_left region))
    as [(l & -> & Hl)|(_ & [-> | ->])]; [|by eexists..].
  destruct (py_int_cases (rect_top region))
    as [(t & -> & Ht)|(_ & [-> | ->])]; [|by eexists..].
  tauto.
Qed.

Lemma field_names_form_raises (regions : list Rect) :
  forall (i k : nat) (region : Rect) (e : exn) (names : gmap pystr pystr),
  regions !! k = Some region -> region_key (i + k) region = Raise e ->
  exists e', field_names_form i regions names = Raise e'.
Proof.
  induction regions as [|region0 regions IH];
    intros i k region e names Hk Hkey; [done|].
  simpl. destruct k as [|k]; simpl in Hk.
  - injection Hk as <-. rewrite Nat.add_0_r in Hkey. rewrite Hkey.
    by eexists.
  - destruct (region_key i region0) as [key0|e0]; [|by eexists].
    unfold mbind at 1, result_bind.
    rewrite Nat.add_succ_r in Hkey.
    edestruct (IH (S i) k region e) as [e' ->]; [done | done |].
    by eexists.
Qed.

Lemma regions_loop_raises (names : gmap pystr pystr) (scale_w scale_h : float)
    (regions : list Rect) :
  forall (i k : nat) (region : Rect) (e : exn)
         (bs : list Rect) (ns : list pystr),
  regions !! k = Some region -> region_key (i + k) region = Raise e ->
  exists e', regions_loop names scale_w scale_h i regions bs ns = Raise e'.
Proof.
  induction regions as [|region0 regions IH];
    intros i k region e bs ns Hk Hkey; [done|].
  simpl. destruct k as [|k]; simpl in Hk.
  - injection Hk as <-. rewrite Nat.add_0_r in Hkey. rewrite Hkey.
    by eexists.
  - destruct (region_key i region0) as [key0|e0]; [|by eexists].
    unfold mbind at 1, result_bind.
    destruct (scaled_box scale_w scale_h region0) as [box|e0]; [|by eexists].
    unfold mbind at 1, result_bind.
    rewrite Nat.add_succ_r in Hkey. by apply (IH (S i) k region e).
Qed.

Lemma scale_regions_raises (bg_image : image) (names : gmap pystr pystr)
    (regions : list Rect) (k : nat) (region : Rect) (e : exn) :
  regions !! k = Some region -> region_key k region = Raise e ->
  exists e', scale_regions bg_image names regions = Raise e'.
Proof.
  intros Hk Hkey. unfold scale_regions.
  destruct (canvas_height bg_image) as [ch|e0]; [|by eexists].
  cbn [mbind result_bind].
  destruct (size bg_image) as [original_w original_h].
  destruct (scale_factors _ _ _ _) as [[scale_w scale_h]|e0];
    [|by eexists].
  cbn [mbind result_bind].
  by apply (regions_loop_raises names scale_w scale_h regions 0 k region e).
Qed.

(** X15.  A region whose left or top is NaN or infinite has no key: the
    naming form raises, and so does the extraction, before any page is
    cropped or recognized and without a table. *)
Theorem non_finite_region_stops (pdf_images : list image) (bg_image : image)
    (names : gmap pystr pystr) (regions : list Rect)
    (language : pystr) (opts : list pystr) (k : nat) (region : Rect) :
  regions !! k = Some region ->
  not_finite_number (rect_left region) \/ not_finite_number (rect_top region) ->
  (exists e, field_names_form 0 regions names = Raise e)
  /\ (exists e,
        extract_data pdf_images bg_image names regions language opts
        = ([], Raise e)).
Proof.
  intros Hk Hbad.
  destruct (region_key_not_finite k region Hbad) as [e Hkey]. split.
  - by apply (field_names_form_raises regions 0 k region e).
  - destruct (scale_regions_raises bg_image names regions k region e Hk Hkey)
      as [e' Hsr].
    unfold extract_data. rewrite Hsr. by exists e'.
Qed.

End ExtractionMore.

(** Two regions under one name, read from two pages. *)
Lemma extract_data_last_name_wins_witness :
  let regions := [mkRect (PInt 10) (PInt 20) (PInt 100) (PInt 50);
                  mkRect (PInt 10) (PInt 90) (PInt 100) (PInt 50)] in
  let names := {[ lit "region_0_10_20" := lit "Total";
                  lit "region_1_10_90" := lit "Total" ]} in
  exists boxes fs log df,
    @scale_regions toy_collaborators first_page names regions
    = Ok (boxes, fs)
    /\ @extract_data toy_collaborators [first_page; first_page] first_page
         names regions (lit "English") []
       = (log, Ok df)
    /\ df_columns df = first_occurrences (lit "Page" :: fs).
Proof.
  intros regions names.
  destruct (@scale_regions toy_collaborators first_page names regions)
    as [[boxes fs]|e] eqn:Hscale.
  - destruct (@extract_data_last_name_wins toy_collaborators
                [first_page; first_page] first_page names regions
                (lit "English") [] boxes fs Hscale)
      as (log & df & Hrun & Hcols & _); [discriminate|].
    exists boxes, fs, log, df.
    split; [reflexivity|]. split; [exact Hrun | exact Hcols].
  - exfalso.
    destruct (@scale_regions_total toy_collaborators first_page 1240 1754
                names regions) as (boxes & fs & Hok);
      [reflexivity | lia | lia | | congruence].
    repeat constructor; simpl; lia.
Defined.

Lemma extract_data_no_missing_cell_witness :
  exists boxes fs log df,
    @scale_regions toy_collaborators first_page ∅ one_region = Ok (boxes, fs)
    /\ @extract_data toy_collaborators [first_page; first_page] first_page
         ∅ one_region (lit "English") []
       = (log, Ok df)
    /\ Forall (fun row => length row = length (df_columns df)) (df_rows df).
Proof.
  destruct (@scale_regions toy_collaborators first_page ∅ one_region)
    as [[boxes fs]|e] eqn:Hscale.
  - destruct (@extract_data_no_missing_cell toy_collaborators
                [first_page; first_page] first_page ∅ one_region
                (lit "English") [] boxes fs Hscale)
      as (log & df & Hrun & Hrect & _); [discriminate|].
    exists boxes, fs, log, df.
    split; [reflexivity|]. split; [exact Hrun | exact Hrect].
  - exfalso.
    destruct (@scale_regions_total toy_collaborators first_page 1240 1754
                ∅ one_region) as (boxes & fs & Hok);
      [reflexivity | lia | lia | | congruence].
    repeat constructor; simpl; lia.
Defined.

Lemma extract_data_same_crops_witness :
  exists boxes fs,
    @scale_regions toy_collaborators first_page ∅ one_region = Ok (boxes, fs)
    /\ crop_events
         (@extract_data toy_collaborators [first_page; first_page]
            first_page ∅ one_region (lit "English") []).1
       = concat (replicate 2 (omap crop_box boxes)).
Proof.
  destruct (@scale_regions toy_collaborators first_page ∅ one_region)
    as [[boxes fs]|e] eqn:Hscale.
  - exists boxes, fs. split; [reflexivity|].
    exact (@extract_data_same_crops toy_collaborators
             [first_page; first_page] first_page ∅ one_region
             (lit "English") [] boxes fs Hscale).
  - exfalso.
    destruct (@scale_regions_total toy_collaborators first_page 1240 1754
                ∅ one_region) as (boxes & fs & Hok);
      [reflexivity | lia | lia | | congruence].
    repeat constructor; simpl; lia.
Defined.

(** A region whose left is NaN, after a regular one. *)
Lemma non_finite_region_stops_witness :
  let regions := one_region ++ [nan_box] in
  regions !! 1%nat = Some nan_box
  /\ not_finite_number (rect_left nan_box)
  /\ (exists e, @field_names_form toy_collaborators 0 regions ∅ = Raise e)
  /\ (exists e,
        @extract_data toy_collaborators [first_page] first_page ∅ regions
          (lit "English") []
        = ([], Raise e)).
Proof.
  intros regions.
  assert (Hnan : not_finite_number (rect_left nan_box)) by (left; reflexivity).
  split; [reflexivity|]. split; [exact Hnan|].
  apply (@non_finite_region_stops toy_collaborators [first_page] first_page
           ∅ regions (lit "English") [] 1 nan_box eq_refl).
  left. exact Hnan.
Defined.

(** ** Rasterizing the upload *)

Lemma last_cons_snoc {A} (a b : A) (l : list A) :
  last (a :: l ++ [b]) = Some b.
Proof. by rewrite (app_comm_cons l [b] a), last_snoc. Qed.

Section RasterizerFacts.
Context `{PdfBackend}.

(** One turn of the page loop. *)
Lemma render_pages_step (doc : document) (n : nat) (rest : list nat)
    (acc : list image) :
  (exists img log0,
     render_page doc n = Ok img /\ Forall is_page_call log0
     /\ render_pages doc (n :: rest) acc
        = (log0 ++ (render_pages doc rest (acc ++ [img])).1,
           (render_pages doc rest (acc ++ [img])).2))
  \/ (exists e log0,
        render_page doc n = Raise e /\ Forall is_page_call log0
        /\ render_pages doc (n :: rest) acc = (log0, Raise e)).
Proof.
  unfold render_page. simpl.
  unfold mbind, PdfEff_bind, result_bind, pdf_call.
  destruct (load_page doc n) as [page|e];
    [|right; exists e, [EvLoadPage n]; by repeat constructor].
  destruct (get_pixmap page dpi_setting) as [pix|e].
  2:{ right. exists e, [EvLoadPage n; EvPixmap dpi_setting].
      by repeat constructor. }
  destruct (tobytes pix (lit "png")) as [img_bytes|e].
  2:{ right.
      exists e, [EvLoadPage n; EvPixmap dpi_setting; EvToBytes (lit "png")].
      by repeat constructor. }
  destruct (Image_open img_bytes) as [img|e].
  2:{ right.
      exists e, [EvLoadPage n; EvPixmap dpi_setting; EvToBytes (lit "png");
                 EvImageOpen].
      by repeat constructor. }
  left.
  exists img, [EvLoadPage n; EvPixmap dpi_setting; EvToBytes (lit "png");
               EvImageOpen].
  split; [done|]. split; [by repeat constructor|].
  by destruct (render_pages doc rest (acc ++ [img])) as [log r].
Qed.

Lemma render_pages_log (doc : document) (nums : list nat) :
  forall acc, Forall is_page_call (render_pages doc nums acc).1.
Proof.
  induction nums as [|n rest IH]; intros acc; [constructor|].
  destruct (render_pages_step doc n rest acc)
    as [(img & log0 & _ & Hlog & ->)|(e & log0 & _ & Hlog & ->)]; [|done].
  simpl. apply Forall_app. split; [done | apply IH].
Qed.

Lemma render_pages_ok (doc : document) (nums : list nat) :
  forall imgs acc,
  Forall2 (fun n img => render_page doc n = Ok img) nums imgs ->
  (render_pages doc nums acc).2 = Ok (acc ++ imgs).
Proof.
  induction nums as [|n rest IH]; intros imgs acc Hall.
  - apply Forall2_nil_inv_l in Hall as ->. simpl. by rewrite app_nil_r.
  - apply Forall2_cons_inv_l in Hall as (img & imgs' & Hn & Hrest & ->).
    destruct (render_pages_step doc n rest acc)
      as [(img' & log0 & Hr & _ & ->)|(e & log0 & Hr & _ & _)];
      [|congruence].
    simpl. rewrite Hn in Hr. injection Hr as <-.
    rewrite (IH imgs') by done. by rewrite <- app_assoc.
Qed.

Lemma render_pages_inv (doc : document) (nums : list nat) :
  forall acc out,
  (render_pages doc nums acc).2 = Ok out ->
  exists imgs,
    out = acc ++ imgs
    /\ Forall2 (fun n img => render_page doc n = Ok img) nums imgs.
Proof.
  induction nums as [|n rest IH]; intros acc out Hout.
  - simpl in Hout. injection Hout as <-. exists [].
    by rewrite app_nil_r.
  - destruct (render_pages_step doc n rest acc)
      as [(img & log0 & Hr & _ & Hrun)|(e & log0 & _ & _ & Hrun)];
      rewrite Hrun in Hout; [|done].
    simpl in Hout. destruct (IH _ _ Hout) as (imgs & -> & Hall).
    exists (img :: imgs). rewrite <- app_assoc. split; [done|].
    by constructor.
Qed.

Lemma render_pages_all (doc : document) (nums : list nat) :
  (forall n, n ∈ nums -> exists img, render_page doc n = Ok img) ->
  exists imgs, Forall2 (fun n img => render_page doc n = Ok img) nums imgs.
Proof.
  induction nums as [|n rest IH]; intros Hall; [by exists []|].
  destruct (Hall n) as [img Himg]; [left|].
  destruct IH as [imgs Himgs]; [intros m Hm; apply Hall; by right|].
  exists (img :: imgs). by constructor.
Qed.

(** X16.  When the document opens, every page renders and the document
    closes, [pdf_to_images] returns one image per page, in page order, each
    rendered at 150 dpi through a PNG; nothing is reported as an error. *)
Theorem pdf_to_images_success (pdf_bytes : bytes) (doc : document) :
  fitz_open pdf_bytes = Ok doc ->
  (forall n, (n < page_count doc)%nat ->
             exists img, render_page doc n = Ok img) ->
  document_close doc = Ok tt ->
  exists log0 images,
    pdf_to_images pdf_bytes = (EvOpen :: log0 ++ [EvClose], images)
    /\ Forall is_page_call log0
    /\ length images = page_count doc
    /\ forall n img, images !! n = Some img -> render_page doc n = Ok img.
Proof.
  intros Hopen Hpages Hclose.
  destruct (render_pages_all doc (seq 0 (page_count doc))) as [imgs Himgs].
  { intros n Hn%elem_of_seq. apply Hpages. lia. }
  pose proof (render_pages_ok doc _ imgs [] Himgs) as Hrun.
  pose proof (render_pages_log doc (seq 0 (page_count doc)) []) as Hlog.
  unfold pdf_to_images, pdf_to_images_try. rewrite Hopen.
  unfold mbind, PdfEff_bind, mret, PdfEff_ret, pdf_call.
  destruct (render_pages doc (seq 0 (page_count doc)) []) as [log r].
  simpl in Hrun, Hlog. subst r. rewrite Hclose. simpl.
  exists log, imgs. split; [done|]. split; [done|].
  split.
  - rewrite <- (Forall2_length _ _ _ Himgs). apply length_seq.
  - intros n img Hn.
    destruct (Forall2_lookup_r _ _ _ _ _ Himgs Hn) as (m & Hm & Hr).
    apply lookup_seq in Hm as [-> _]. done.
Qed.

(** X17.  [pdf_to_images] is all or nothing: a result that is not empty
    means that the document opened, that every page rendered and that the
    document closed without raising; the result then holds every page and
    no error was reported. *)
Theorem pdf_to_images_all_or_nothing (pdf_bytes : bytes) :
  (pdf_to_images pdf_bytes).2 <> [] ->
  exists doc,
    fitz_open pdf_bytes = Ok doc
    /\ document_close doc = Ok tt
    /\ Forall2 (fun n img => render_page doc n = Ok img)
         (seq 0 (page_count doc)) (pdf_to_images pdf_bytes).2
    /\ Forall (fun ev => ~ is_pdf_error ev) (pdf_to_images pdf_bytes).1.
Proof.
  unfold pdf_to_images, pdf_to_images_try.
  destruct (fitz_open pdf_bytes) as [doc|e] eqn:Hopen; [|done].
  unfold mbind, PdfEff_bind, mret, PdfEff_ret, pdf_call.
  pose proof (render_pages_inv doc (seq 0 (page_count doc)) []) as Hinv.
  pose proof (render_pages_log doc (seq 0 (page_count doc)) []) as Hlog.
  destruct (render_pages doc (seq 0 (page_count doc)) []) as [log [imgs|e]];
    [|done].
  destruct (document_close doc) as [[]|e] eqn:Hclose; [|done].
  simpl. intros _. exists doc. split; [done|]. split; [done|].
  destruct (Hinv imgs eq_refl) as (imgs' & -> & Hall). split; [done|].
  constructor; [simpl; tauto|].
  apply Forall_app. split; [|repeat constructor; simpl; tauto].
  eapply Forall_impl; [exact Hlog|]. intros ev Hev Herr. by destruct ev.
Qed.

(** X18.  When a page fails to render, [pdf_to_images] gives up the pages
    rendered before it and returns the empty list; it reports one error,
    renders no further page and never closes the document. *)
Theorem pdf_to_images_page_fails (pdf_bytes : bytes) (doc : document)
    (n : nat) (e : exn) :
  fitz_open pdf_bytes = Ok doc ->
  (n < page_count doc)%nat ->
  render_page doc n = Raise e ->
  exists log0 e',
    pdf_to_images pdf_bytes = (EvOpen :: log0 ++ [EvError e'], [])
    /\ Forall is_page_call log0.
Proof.
  intros Hopen Hn Hfail.
  unfold pdf_to_images, pdf_to_images_try. rewrite Hopen.
  unfold mbind, PdfEff_bind, mret, PdfEff_ret, pdf_call.
  pose proof (render_pages_inv doc (seq 0 (page_count doc)) []) as Hinv.
  pose proof (render_pages_log doc (seq 0 (page_count doc)) []) as Hlog.
  destruct (render_pages doc (seq 0 (page_count doc)) []) as [log [imgs|e']].
  - exfalso. destruct (Hinv imgs eq_refl) as (imgs' & _ & Hall).
    destruct (Forall2_lookup_l _ _ _ n n Hall) as (img & _ & Hr).
    { apply lookup_seq. lia. }
    congruence.
  - by exists log, e'.
Qed.

(** X19.  When the upload yields no page, the sidebar reports that the PDF
    could not be processed; this happens after an error of
    [pdf_to_images], and also, without any error, for a document that
    opens and closes but has no page. *)
Theorem process_upload_without_pages (pdf_bytes : bytes) :
  (process_upload (Some pdf_bytes) []).2 = [] ->
  last (process_upload (Some pdf_bytes) []).1 = Some EvCouldNotProcess
  /\ ((exists e, EvError e ∈ (process_upload (Some pdf_bytes) []).1)
      \/ (exists doc, fitz_open pdf_bytes = Ok doc
                      /\ page_count doc = 0%nat
                      /\ document_close doc = Ok tt)).
Proof.
  unfold process_upload, pdf_to_images, pdf_to_images_try.
  destruct (fitz_open pdf_bytes) as [doc|e] eqn:Hopen.
  2:{ simpl. intros _. split; [done|]. left. exists e. right. left. }
  unfold mbind, PdfEff_bind, mret, PdfEff_ret, pdf_call.
  pose proof (render_pages_inv doc (seq 0 (page_count doc)) []) as Hinv.
  destruct (render_pages doc (seq 0 (page_count doc)) []) as [log [imgs|e]].
  2:{ simpl. intros _. split; [apply last_cons_snoc|].
      left. exists e. right. apply elem_of_app. left.
      apply elem_of_app. right. left. }
  destruct (document_close doc) as [[]|e] eqn:Hclose.
  2:{ simpl. intros _. split; [apply last_cons_snoc|].
      left. exists e. right. apply elem_of_app. left.
      apply elem_of_app. right. left. }
  simpl. intros ->. split; [apply last_cons_snoc|]. right.
  exists doc. split; [done|]. split; [|done].
  destruct (Hinv [] eq_refl) as (imgs' & Himgs & Hall).
  symmetry in Himgs. apply app_eq_nil in Himgs as [_ ->].
  apply Forall2_length in Hall. rewrite length_seq in Hall. done.
Qed.

End RasterizerFacts.

(** An upload of two pages. *)
Lemma pdf_to_images_success_witness :
  @fitz_open _ toy_backend two_page_upload = Ok two_page_upload
  /\ @document_close _ toy_backend two_page_upload = Ok tt
  /\ exists log0 images,
       @pdf_to_images _ toy_backend two_page_upload
       = (EvOpen :: log0 ++ [EvClose], images)
       /\ Forall is_page_call log0
       /\ length images = 2%nat.
Proof.
  split; [reflexivity|]. split; [reflexivity|].
  destruct (@pdf_to_images_success _ toy_backend two_page_upload
              two_page_upload eq_refl)
    as (log0 & images & Hrun & Hlog & Hlen & _); [|reflexivity|].
  - intros [|[|n]] Hn; [by eexists | by eexists | simpl in Hn; lia].
  - exists log0, images.
    split; [exact Hrun|]. split; [exact Hlog | exact Hlen].
Defined.

Lemma pdf_to_images_all_or_nothing_witness :
  (@pdf_to_images _ toy_backend two_page_upload).2 <> []
  /\ exists doc,
       @fitz_open _ toy_backend two_page_upload = Ok doc
       /\ @document_close _ toy_backend doc = Ok tt.
Proof.
  assert (Hne : (@pdf_to_images _ toy_backend two_page_upload).2 <> [])
    by (vm_compute; discriminate).
  split; [exact Hne|].
  destruct (@pdf_to_images_all_or_nothing _ toy_backend two_page_upload Hne)
    as (doc & Hopen & Hclose & _).
  exists doc. split; [exact Hopen | exact Hclose].
Defined.

(** An upload whose second page cannot be rendered. *)
Lemma pdf_to_images_page_fails_witness :
  @render_page _ toy_backend broken_upload 1 = Raise ValueError
  /\ exists log0 e',
       @pdf_to_images _ toy_backend broken_upload
       = (EvOpen :: log0 ++ [EvError e'], [])
       /\ Forall is_page_call log0.
Proof.
  split; [reflexivity|].
  apply (@pdf_to_images_page_fails _ toy_backend broken_upload broken_upload
           1 ValueError); [reflexivity | simpl; lia | reflexivity].
Defined.

(** An upload without pages. *)
Lemma process_upload_without_pages_witness :
  (@process_upload _ toy_backend (Some empty_upload) []).2 = []
  /\ last (@process_upload _ toy_backend (Some empty_upload) []).1
     = Some EvCouldNotProcess.
Proof.
  split; [reflexivity|].
  exact (proj1 (@process_upload_without_pages _ toy_backend empty_upload
                  eq_refl)).
Defined.

(** ** The height of the drawing surface *)

Lemma floor_of_close (C w T P : Z) :
  0 < w -> 0 < P -> 0 <= T ->
  Z.abs (C * w - T * P) < P ->
  T `div` w - 1 <= C `div` P <= T `div` w
  /\ (T `mod` w <> 0 -> C `div` P = T `div` w).
Proof.
  intros Hw HP HT Hclose.
  pose proof (Z.div_mod T w ltac:(lia)) as Hdm.
  pose proof (Z.mod_pos_bound T w Hw) as Hr.
  set (q := T `div` w) in *. set (r := T `mod` w) in *.
  clearbody q r. subst T.
  assert (Hlo : (q - 1) * P <= C).
  { apply (Z.mul_le_mono_pos_r _ _ w Hw). nia. }
  assert (Hhi : C < (q + 1) * P).
  { apply (Z.mul_lt_mono_pos_r w); [done|]. nia. }
  assert (Hq1 : q - 1 <= C `div` P)
    by (apply Z.div_le_lower_bound; lia).
  assert (Hq2 : C `div` P < q + 1)
    by (apply Z.div_lt_upper_bound; lia).
  split; [lia|]. intros Hr0.
  assert (Hmid : q * P <= C).
  { apply (Z.mul_le_mono_pos_r _ _ w Hw). nia. }
  assert (q <= C `div` P) by (apply Z.div_le_lower_bound; lia). lia.
Qed.

Lemma close_trans_wide (c W S X : Z) :
  0 < c ->
  Z.abs (S - X) * (2 * c) <= X -> Z.abs (W - S) * (4 * c) <= S ->
  Z.abs (W - X) * c <= X.
Proof. intros Hc H1 H2. nia. Qed.

Lemma close_meet (c A B M : Z) :
  4 <= c ->
  Z.abs (M - A) * (2 * c) <= A -> Z.abs (M - B) * (4 * c) <= B ->
  Z.abs (A - B) * c <= B.
Proof. intros Hc H1 H2. nia. Qed.

Section CanvasFacts.
Context `{Collaborators}.

(** The canvas height and the scale factors of a page, with the distance
    of each from the exact quotient. *)
Lemma page_scales_close (bg_image : image) (w h : Z) :
  size bg_image = (w, h) -> 0 < w < 2 ^ 53 -> 0 < h < 2 ^ 53 ->
  exists ch scale_w scale_h,
    canvas_height bg_image = Ok (PFloat ch)
    /\ scale_factors (PInt canvas_width) (PFloat ch) (PInt w) (PInt h)
       = Ok (scale_w, scale_h)
    /\ finite_within false 239 ch
    /\ finite_within false 116 scale_w
    /\ finite_within false 435 scale_h
    /\ Z.abs (fixed ch * w - 800 * h * 2 ^ 1100) * 2 ^ 50
       <= 800 * h * 2 ^ 1100
    /\ Z.abs (800 * fixed scale_w - w * 2 ^ 1100) * 2 ^ 49 <= w * 2 ^ 1100
    /\ Z.abs (800 * fixed scale_h - w * 2 ^ 1100) * 2 ^ 49 <= w * 2 ^ 1100.
Proof.
  intros Hsize Hw Hh.
  assert (H53 : 2 ^ 53 < 2 ^ 63) by done.
  destruct (page_scales_eq bg_image w h Hsize) as
    (hf & ch & scale_w & Hhf & Ech & Esw & Hhff & Hch & Hsw & Hsh & Hc & Hsf);
    [lia | lia |].
  destruct (float_of_int_exact h) as (hf' & Hhf' & _ & Hfix); [lia|].
  rewrite Hhf in Hhf'. injection Hhf' as <-.
  destruct (py_truediv_int_eq h w) as (_ & Hrf); [lia | lia |].
  set (ratio := fdiv (exact_int h) (exact_int w)) in *.
  set (scale_h := fdiv hf ch) in *.
  exists ch, scale_w, scale_h. do 5 (split; [done|]).
  assert (HP : 0 < 2 ^ 1100) by (apply Z.pow_pos_nonneg; lia).
  assert (Hfw : finite_within false 0 (exact_int w)).
  { destruct w as [|p|p]; try lia. exists p, 0.
    repeat split; try lia. apply Zdigits2_le; lia. }
  assert (Hfh : finite_within false 0 (exact_int h)).
  { destruct h as [|p|p]; try lia. exists p, 0.
    repeat split; try lia. apply Zdigits2_le; lia. }
  assert (Hf800 : finite_within false 0 (exact_int canvas_width))
    by (by exists 800%positive, 0).
  pose proof (fdiv_error false false 0 0 _ _ Hfh Hfw ltac:(lia)) as Hratio.
  fold ratio in Hratio.
  rewrite (fixed_exact_int w), (fixed_exact_int h) in Hratio by lia.
  pose proof (fmul_error false false 43 116 float_800 ratio
                float_800_finite Hrf ltac:(lia)) as Hmul.
  rewrite fixed_float_800, <- Ech in Hmul.
  pose proof (fdiv_error false false 0 0 _ _ Hfw Hf800 ltac:(lia)) as Hdw.
  rewrite <- Esw in Hdw.
  rewrite (fixed_exact_int w), (fixed_exact_int canvas_width) in Hdw
    by (done || lia).
  pose proof (fdiv_error false false 80 239 hf ch Hhff Hch ltac:(lia)) as Hdh.
  fold scale_h in Hdh. rewrite Hfix in Hdh.
  assert (HSh : 0 <= fixed scale_h).
  { destruct Hsh as (m & e & -> & _). simpl.
    apply Z.mul_nonneg_nonneg; [lia|]. apply Z.pow_nonneg. lia. }
  unfold canvas_width in Hdw.
  set (P := 2 ^ 1100) in *. clearbody P.
  set (R := fixed ratio) in *. clearbody R.
  set (C := fixed ch) in *. clearbody C.
  set (Sw := fixed scale_w) in *. clearbody Sw.
  set (Sh := fixed scale_h) in *. clearbody Sh.
  assert (Hratio' : Z.abs (R * w - h * P) * 2 ^ 51 <= h * P).
  { apply (cancel_scale _ _ _ _ P HP).
    by replace (R * w * P - h * P * P) with (R * (w * P) - h * P * P) by ring. }
  assert (Hmul' : Z.abs (C - 800 * R) * 2 ^ 52 <= 800 * R).
  { apply (cancel_scale _ _ _ _ P HP).
    by replace (800 * R * P) with (800 * P * R) by ring. }
  assert (Hch' : Z.abs (C * w - 800 * h * P) * 2 ^ 50 <= 800 * h * P).
  { apply (close_trans (C * w) (800 * R * w) (800 * h * P)).
    - replace (800 * R * w - 800 * h * P) with (800 * (R * w - h * P))
        by ring.
      rewrite Z.abs_mul. change (Z.abs 800) with 800. lia.
    - replace (C * w - 800 * R * w) with ((C - 800 * R) * w) by ring.
      rewrite Z.abs_mul, (Z.abs_eq w) by lia.
      rewrite <- Z.mul_assoc, (Z.mul_comm w), Z.mul_assoc.
      apply Z.mul_le_mono_nonneg_r; lia. }
  split; [exact Hch'|]. split.
  - assert (Hdw' : Z.abs (800 * Sw - w * P) * 2 ^ 51 <= w * P).
    { apply (cancel_scale _ _ _ _ P HP).
      by replace (800 * Sw * P - w * P * P) with (Sw * (800 * P) - w * P * P)
        by ring. }
    change (2 ^ 51) with (4 * 2 ^ 49) in Hdw'. lia.
  - assert (HhP : 0 < h * P) by lia.
    apply (cancel_scale _ _ _ _ (h * P) HhP).
    replace (800 * Sh * (h * P)) with (Sh * (800 * h * P)) by ring.
    apply (close_meet (2 ^ 49) _ _ (Sh * C * w)); [done | |].
    + change (2 * 2 ^ 49) with (2 ^ 50).
      replace (Sh * C * w - Sh * (800 * h * P))
        with (Sh * (C * w - 800 * h * P)) by ring.
      rewrite Z.abs_mul, (Z.abs_eq Sh) by done.
      rewrite <- Z.mul_assoc. apply Z.mul_le_mono_nonneg_l; done.
    + change (4 * 2 ^ 49) with (2 ^ 51).
      replace (Sh * C * w - w * P * (h * P))
        with ((Sh * C - h * P * P) * w) by ring.
      rewrite Z.abs_mul, (Z.abs_eq w) by lia.
      replace (w * P * (h * P)) with (h * P * P * w) by ring.
      rewrite <- Z.mul_assoc, (Z.mul_comm w), Z.mul_assoc.
      apply Z.mul_le_mono_nonneg_r; lia.
Qed.

(** X20.  For a page of [w] by [h] pixels the drawing surface is
    [int(canvas_height)] pixels high, which is the whole part of
    [800 * h / w], or one less where [800 * h / w] is itself a whole
    number: apart from that one pixel the canvas has the proportions of
    the page. *)
Theorem canvas_height_pixels (bg_image : image) (w h : Z) :
  size bg_image = (w, h) -> 0 < w < 2 ^ 40 -> 0 < h < 2 ^ 40 ->
  exists ch px,
    canvas_height bg_image = Ok ch
    /\ py_int ch = Ok px
    /\ (canvas_width * h) `div` w - 1 <= px <= (canvas_width * h) `div` w
    /\ ((canvas_width * h) `mod` w <> 0 ->
        px = (canvas_width * h) `div` w).
Proof.
  intros Hsize Hw Hh.
  assert (H40 : 2 ^ 40 < 2 ^ 53) by done.
  destruct (page_scales_close bg_image w h Hsize) as
    (ch & scale_w & scale_h & Hc & _ & Hch & _ & _ & Hclose & _);
    [lia | lia |].
  exists (PFloat ch), (fixed ch `div` 2 ^ 1100).
  split; [done|]. split; [by apply (py_int_fixed 239)|].
  assert (HP : 0 < 2 ^ 1100) by (apply Z.pow_pos_nonneg; lia).
  unfold canvas_width.
  apply floor_of_close; [lia | done | lia |].
  assert (H50 : 0 < 2 ^ 50) by done.
  assert (HT : 800 * h < 2 ^ 50).
  { change (2 ^ 50) with (1024 * 2 ^ 40). lia. }
  set (P := 2 ^ 1100) in *. clearbody P.
  set (T := 800 * h) in *. set (c := 2 ^ 50) in *.
  clearbody c. nia.
Qed.

(** An integer canvas coordinate times a scale factor. *)
Lemma scaled_coordinate (scale : float) (w x : Z) :
  finite_within false 435 scale ->
  Z.abs (800 * fixed scale - w * 2 ^ 1100) * 2 ^ 49 <= w * 2 ^ 1100 ->
  0 < w < 2 ^ 30 -> 0 <= x < 2 ^ 18 ->
  exists v, py_mul (PInt x) (PFloat scale) = Ok v /\ source_pixel w x v.
Proof.
  intros Hfin Hclose Hw Hx. rewrite py_mul_float. unfold to_float.
  destruct (decide (x = 0)) as [->|Hx0].
  - destruct Hfin as (m & e & -> & _). eexists. split; [done|].
    exists 0. by repeat split.
  - assert (H53 : 2 ^ 18 < 2 ^ 53) by done.
    destruct (float_of_int_exact x) as (xf & -> & Hxf & Hfix); [lia|].
    eexists. split; [done|].
    pose proof (fmul_finite false false 80 435 xf scale Hxf Hfin ltac:(lia))
      as Hvf.
    pose proof (fmul_error false false 80 435 xf scale Hxf Hfin ltac:(lia))
      as Hmul.
    rewrite Hfix in Hmul.
    exists (fixed (fmul xf scale) `div` 2 ^ 1100).
    split; [by apply (py_int_fixed 595)|].
    assert (HP : 0 < 2 ^ 1100) by (apply Z.pow_pos_nonneg; lia).
    assert (HS : 0 <= fixed scale).
    { destruct Hfin as (m & e & -> & _). simpl.
      apply Z.mul_nonneg_nonneg; [lia|]. apply Z.pow_nonneg. lia. }
    set (P := 2 ^ 1100) in *. clearbody P.
    set (S := fixed scale) in *. clearbody S.
    set (V := fixed (fmul xf scale)) in *. clearbody V.
    assert (Hmul' : Z.abs (V - x * S) * 2 ^ 52 <= x * S).
    { apply (cancel_scale _ _ _ _ P HP).
      by replace (x * S * P) with (x * P * S) by ring. }
    assert (Hnear : Z.abs (V * 800 - x * w * P) * 2 ^ 48 <= x * w * P).
    { apply (close_trans_wide (2 ^ 48) _ (800 * (x * S))); [done | |].
      - change (2 * 2 ^ 48) with (2 ^ 49).
        replace (800 * (x * S) - x * w * P) with (x * (800 * S - w * P))
          by ring.
        rewrite Z.abs_mul, (Z.abs_eq x) by lia.
        replace (x * w * P) with (x * (w * P)) by ring.
        rewrite <- Z.mul_assoc. apply Z.mul_le_mono_nonneg_l; lia.
      - replace (V * 800 - 800 * (x * S)) with (800 * (V - x * S)) by ring.
        rewrite Z.abs_mul. change (Z.abs 800) with 800.
        change (4 * 2 ^ 48) with (2 ^ 50).
        assert (0 <= Z.abs (V - x * S)) by lia.
        change (2 ^ 52) with (4 * 2 ^ 50) in Hmul'. nia. }
    apply floor_of_close; [lia | done | nia |].
    assert (H48 : 0 < 2 ^ 48) by done.
    assert (HT : x * w < 2 ^ 48).
    { change (2 ^ 48) with (2 ^ 18 * 2 ^ 30). nia. }
    set (T := x * w) in *. set (c := 2 ^ 48) in *.
    clearbody c. nia.
Qed.

(** X21.  A region drawn at whole canvas coordinates is mapped to whole
    source pixels by one scale in both directions: after the truncation
    of [perform_ocr], each of left, top, width and height [x] becomes the
    whole part of [x * w / 800] for a page [w] pixels wide, or one less
    where that quotient is exact. *)
Theorem scaled_box_pixels (bg_image : image) (w h : Z) (l t wd ht : Z) :
  size bg_image = (w, h) -> 0 < w < 2 ^ 30 -> 0 < h < 2 ^ 30 ->
  0 <= l < 2 ^ 18 -> 0 <= t < 2 ^ 18 ->
  0 <= wd < 2 ^ 18 -> 0 <= ht < 2 ^ 18 ->
  exists ch scale_w scale_h box,
    canvas_height bg_image = Ok ch
    /\ scale_factors (PInt canvas_width) ch (PInt w) (PInt h)
       = Ok (scale_w, scale_h)
    /\ scaled_box scale_w scale_h
         (mkRect (PInt l) (PInt t) (PInt wd) (PInt ht))
       = Ok box
    /\ source_pixel w l (rect_left box)
    /\ source_pixel w t (rect_top box)
    /\ source_pixel w wd (rect_width box)
    /\ source_pixel w ht (rect_height box).
Proof.
  intros Hsize Hw Hh Hl Ht Hwd Hht.
  assert (H30 : 2 ^ 30 < 2 ^ 53) by done.
  destruct (page_scales_close bg_image w h Hsize) as
    (ch & scale_w & scale_h & Hc & Hsf & _ & Hsw & Hsh & _ & Hcw & Hchh);
    [lia | lia |].
  assert (Hsw' : finite_within false 435 scale_w).
  { destruct Hsw as (m & e & -> & Hd & He). exists m, e.
    repeat split; lia. }
  destruct (scaled_coordinate scale_w w l Hsw' Hcw Hw Hl) as (bl & Hbl & Hpl).
  destruct (scaled_coordinate scale_h w t Hsh Hchh Hw Ht) as (bt & Hbt & Hpt).
  destruct (scaled_coordinate scale_w w wd Hsw' Hcw Hw Hwd)
    as (bw & Hbw & Hpw).
  destruct (scaled_coordinate scale_h w ht Hsh Hchh Hw Hht)
    as (bh & Hbh & Hph).
  exists (PFloat ch), scale_w, scale_h, (mkRect bl bt bw bh).
  split; [done|]. split; [done|]. split; [|done].
  unfold scaled_box. cbn [rect_left rect_top rect_width rect_height].
  by rewrite Hbl, Hbt, Hbw, Hbh.
Qed.

End CanvasFacts.

(** A region of whole coordinates on the A4 page. *)
Lemma scaled_box_pixels_witness :
  @size toy_collaborators first_page = (1240, 1754)
  /\ exists ch scale_w scale_h box,
       @canvas_height toy_collaborators first_page = Ok ch
       /\ scale_factors (PInt canvas_width) ch (PInt 1240) (PInt 1754)
          = Ok (scale_w, scale_h)
       /\ scaled_box scale_w scale_h
            (mkRect (PInt 10) (PInt 20) (PInt 100) (PInt 50))
          = Ok box
       /\ source_pixel 1240 10 (rect_left box)
       /\ source_pixel 1240 20 (rect_top box)
       /\ source_pixel 1240 100 (rect_width box)
       /\ source_pixel 1240 50 (rect_height box).
Proof.
  split; [reflexivity|].
  apply (@scaled_box_pixels toy_collaborators first_page 1240 1754
           10 20 100 50); [reflexivity | lia..].
Defined.

(** An A4 page at 150 dpi: the canvas is 1131 pixels high. *)
Lemma canvas_height_pixels_witness :
  @size toy_collaborators first_page = (1240, 1754)
  /\ exists ch px,
       @canvas_height toy_collaborators first_page = Ok ch
       /\ py_int ch = Ok px
       /\ 1131 - 1 <= px <= 1131.
Proof.
  split; [reflexivity|].
  destruct (@canvas_height_pixels toy_collaborators first_page 1240 1754)
    as (ch & px & Hch & Hpx & Hrange & _); [reflexivity | lia | lia |].
  exists ch, px. split; [exact Hch|]. split; [exact Hpx|].
  change ((canvas_width * 1754) `div` 1240) with 1131 in Hrange.
  exact Hrange.
Defined.

(** ** Loading a template *)

Section TemplateLoad.
Context `{JsonCodec}.


(** X23.  Nothing guards the load: a file the json module refuses raises
    its error, and a document whose top level is not an object raises
    AttributeError at [template_data.get]. *)
Theorem load_template_raises (uploaded_template : pystr) :
  (forall e, json_load uploaded_template = Raise e ->
             load_template uploaded_template = Raise e)
  /\ (forall d, json_load uploaded_template = Ok d ->
                (forall o, d <> JObj o) ->
                load_template uploaded_template = Raise AttributeError).
Proof.
  unfold load_template, read_template. split.
  - by intros e ->.
  - intros d -> Hd. destruct d; try done. by destruct (Hd o).
Qed.

End TemplateLoad.


(** ** The session *)

Section SessionFacts.
Context `{PdfBackend}.

Lemma init_key_lookup (key key' : pystr) (value : session_value)
    (s : gmap pystr session_value) :
  init_key key value s !! key'
  = match s !! key' with
    | Some v => Some v
    | None => if bool_decide (key = key') then Some value else None
    end.
Proof.
  unfold init_key.
  destruct (s !! key) as [v|] eqn:Hkey.
  - destruct (s !! key') as [v'|] eqn:Hkey'; [done|].
    rewrite bool_decide_eq_false_2; [done|]. congruence.
  - destruct (decide (key = key')) as [<-|Hne].
    + by rewrite lookup_insert_eq, Hkey, bool_decide_eq_true_2.
    + rewrite lookup_insert_ne by done.
      rewrite (bool_decide_eq_false_2 _ Hne). by destruct (s !! key').
Qed.

Lemma clear_session_empty (s : gmap pystr session_value) : clear_session s = ∅.
Proof.
  unfold clear_session.
  apply map_eq. intros key. rewrite lookup_empty.
  assert (Hfold : forall (keys : list pystr) (s' : gmap pystr session_value),
            foldl (fun s'' k => delete k s'') s' keys !! key
            = if bool_decide (key ∈ keys) then None else s' !! key).
  { induction keys as [|k keys IH]; intros s'; simpl; [done|].
    rewrite IH. destruct (decide (key = k)) as [->|Hne].
    - rewrite lookup_delete_eq.
      rewrite (bool_decide_eq_true_2 (k ∈ k :: keys)) by left.
      by case_bool_decide.
    - rewrite lookup_delete_ne by done.
      rewrite (bool_decide_ext (key ∈ keys) (key ∈ k :: keys)); [done|].
      rewrite elem_of_cons. split; [by right|].
      by intros [?|?]. }
  rewrite Hfold. case_bool_decide as Hin; [done|].
  destruct (s !! key) as [v|] eqn:Hkey; [|done].
  exfalso. apply Hin. apply list_elem_of_fmap.
  exists (key, v). split; [done|]. by apply elem_of_map_to_list.
Qed.

(** X24.  The initialization block, which runs again on every rerun of the
    script, never changes an entry the session already holds; it only
    supplies the four defaults that are missing, and running it twice is
    the same as running it once. *)
Theorem init_session_keeps (s : gmap pystr session_value) :
  (forall key value, s !! key = Some value ->
                     init_session s !! key = Some value)
  /\ (forall key,
        key ∈ [lit "pdf_images"; lit "extracted_data"; lit "field_names";
               lit "canvas_json"] ->
        is_Some (init_session s !! key))
  /\ init_session (init_session s) = init_session s.
Proof.
  assert (Hkeep : forall (t : gmap pystr session_value) key value,
            t !! key = Some value -> init_session t !! key = Some value).
  { intros t key value Hkey. unfold init_session.
    rewrite !init_key_lookup. by rewrite Hkey. }
  assert (Hfour : forall (t : gmap pystr session_value) key,
            key ∈ [lit "pdf_images"; lit "extracted_data"; lit "field_names";
                   lit "canvas_json"] ->
            is_Some (init_session t !! key)).
  { intros t key Hkey. unfold init_session. rewrite !init_key_lookup.
    destruct (t !! key) as [v|]; [by eexists|].
    repeat (apply elem_of_cons in Hkey as [->|Hkey]; [by eexists|]).
    by apply elem_of_nil in Hkey. }
  split; [apply Hkeep|]. split; [apply Hfour|].
  apply map_eq. intros key.
  destruct (init_session s !! key) as [v|] eqn:Hkey; [by apply Hkeep|].
  assert (Hnot : forall k,
            k ∈ [lit "pdf_images"; lit "extracted_data"; lit "field_names";
                 lit "canvas_json"] -> k <> key).
  { intros k Hk ->. destruct (Hfour s key Hk) as [v Hv]. congruence. }
  unfold init_session at 1. rewrite !init_key_lookup, Hkey.
  rewrite !bool_decide_eq_false_2; [done|..]; apply Hnot;
    repeat constructor.
Qed.

(** X25.  "Clear and Restart" empties the session, so the run that follows
    starts from the four defaults whatever the session held; with the file
    still in the uploader that run rasterizes the upload again. *)
Theorem clear_and_restart (s : gmap pystr session_value)
    (uploaded_file : option bytes) :
  clear_session s = ∅
  /\ init_session (clear_session s) = init_session ∅
  /\ session_pages (init_session (clear_session s)) = []
  /\ process_upload uploaded_file
       (session_pages (init_session (clear_session s)))
     = process_upload uploaded_file [].
Proof.
  rewrite clear_session_empty. done.
Qed.

End SessionFacts.
